(** * deposit-rate-scraper: the fetch / diagnose / crawl / extract pipeline

    A shallow embedding of [src/deposits/{utils,http,parsers,cli}.py].

    Conventions of the embedding.
    - A Python [str] is the [string] of the bytes of its UTF-8 encoding; on
      such strings [x in t], [startswith] and [endswith] are those of Python.
      [str.lower], [str.upper], [str.isspace], [str.isdigit], [\d] and [\s]
      are the ASCII restrictions of the Python operations (a byte above 127
      is left alone by [lower] and is neither a digit nor a blank), and
      [len] and slices count bytes: the embedding is exact on ASCII text.
    - A Python [float] is a binary64 [float] of the kernel; [float(s)] is
      [py_float], the correctly rounded value of the decimal literal.
    - A raised exception is a value of [exn]; a call that may raise returns a
      [pyresult].
    - [urlparse] and [parse_qs] follow CPython 3.11's [urllib.parse].
    - Network, HTML parsing and JSON parsing are the parameters of
      [Section Pipeline], the file system of the report writers those of
      [Section ReportFiles]; everything built on them is translated from
      the source.
    - A pandas frame is the list of its rows, and [sort_values] on several
      columns a stable sort with missing values last. *)

From Stdlib Require Import Bool Arith ZArith NArith List String Ascii Lia.
From Stdlib Require Import Floats Permutation Sorted.
From Stdlib Require DecimalString.
Import ListNotations.

Set Warnings "-inexact-float,-register-all,-abstract-large-number".
Local Open Scope Z_scope.
Local Open Scope list_scope.
Local Open Scope string_scope.
Local Open Scope bool_scope.

(** ** Exceptions and results *)

(** [PyExc cls msg] is an instance of the exception class [cls] whose [str()]
    is [msg]; [RetryError last] is tenacity's wrapper around the exception of
    the last attempt. *)
Inductive exn : Type :=
| PyExc (cls msg : string)
| RetryError (last : exn).

Inductive pyresult (A : Type) : Type :=
| Ok (a : A)
| Raise (e : exn).
Arguments Ok {A} a.
Arguments Raise {A} e.

Definition rbind {A B : Type} (r : pyresult A) (k : A -> pyresult B) : pyresult B :=
  match r with
  | Ok a => k a
  | Raise e => Raise e
  end.

Notation "x <- r ;; k" := (rbind r (fun x => k))
  (at level 61, r at next level, right associativity).

(** ** Python string operations (ASCII) *)

Definition code (c : ascii) : N := N_of_ascii c.

(** [str.isspace] on ASCII: TAB..CR, FS..US and the space. *)
Definition isspace (c : ascii) : bool :=
  (((9 <=? code c) && (code c <=? 13)) || ((28 <=? code c) && (code c <=? 32)))%N.

Definition isdigit (c : ascii) : bool :=
  ((48 <=? code c) && (code c <=? 57))%N.

Definition isupper (c : ascii) : bool :=
  ((65 <=? code c) && (code c <=? 90))%N.

Definition islower (c : ascii) : bool :=
  ((97 <=? code c) && (code c <=? 122))%N.

Definition isalpha (c : ascii) : bool := isupper c || islower c.

Definition lower_char (c : ascii) : ascii :=
  if isupper c then ascii_of_N (code c + 32) else c.

Definition upper_char (c : ascii) : ascii :=
  if islower c then ascii_of_N (code c - 32) else c.

Fixpoint lower (s : string) : string :=
  match s with
  | EmptyString => EmptyString
  | String c r => String (lower_char c) (lower r)
  end.

Fixpoint upper (s : string) : string :=
  match s with
  | EmptyString => EmptyString
  | String c r => String (upper_char c) (upper r)
  end.

Fixpoint mem_char (c : ascii) (chars : string) : bool :=
  match chars with
  | EmptyString => false
  | String d r => Ascii.eqb c d || mem_char c r
  end.

Fixpoint forallb_str (p : ascii -> bool) (s : string) : bool :=
  match s with
  | EmptyString => true
  | String c r => p c && forallb_str p r
  end.

Fixpoint existsb_str (p : ascii -> bool) (s : string) : bool :=
  match s with
  | EmptyString => false
  | String c r => p c || existsb_str p r
  end.

(** Dropping the leading characters that satisfy [p]. *)
Fixpoint lstrip_with (p : ascii -> bool) (s : string) : string :=
  match s with
  | EmptyString => EmptyString
  | String c r => if p c then lstrip_with p r else s
  end.

Fixpoint rstrip_with (p : ascii -> bool) (s : string) : string :=
  match s with
  | EmptyString => EmptyString
  | String c r =>
      match rstrip_with p r with
      | EmptyString => if p c then EmptyString else String c EmptyString
      | r' => String c r'
      end
  end.

(** [s.strip()] *)
Definition strip (s : string) : string :=
  rstrip_with isspace (lstrip_with isspace s).

(** [s.lstrip(chars)]: [chars] is a set of characters, not a prefix. *)
Definition lstrip (s chars : string) : string :=
  lstrip_with (fun c => mem_char c chars) s.

(** [s.startswith(p)] *)
Fixpoint startswith (s p : string) {struct p} : bool :=
  match p, s with
  | EmptyString, _ => true
  | String _ _, EmptyString => false
  | String a p', String b s' => Ascii.eqb a b && startswith s' p'
  end.

(** [s.endswith(p)] *)
Fixpoint endswith (s p : string) : bool :=
  String.eqb s p ||
  match s with
  | EmptyString => false
  | String _ r => endswith r p
  end.

(** [x in t] for two strings. *)
Fixpoint contains (x t : string) : bool :=
  startswith t x ||
  match t with
  | EmptyString => false
  | String _ r => contains x r
  end.

(** [s[:n]] and [s[n:]] *)
Fixpoint take (n : N) (s : string) : string :=
  match s with
  | EmptyString => EmptyString
  | String c r => if (n =? 0)%N then EmptyString else String c (take (N.pred n) r)
  end.

Fixpoint drop (n : nat) (s : string) : string :=
  match n, s with
  | O, _ => s
  | S _, EmptyString => EmptyString
  | S m, String _ r => drop m r
  end.

(** The longest prefix whose characters satisfy [p], and the rest. *)
Fixpoint span (p : ascii -> bool) (s : string) : string * string :=
  match s with
  | EmptyString => (EmptyString, EmptyString)
  | String c r =>
      if p c then let '(a, b) := span p r in (String c a, b)
      else (EmptyString, s)
  end.

(** [s.split(c, 1)] when [c] occurs in [s]: the text before the first [c] and
    the text after it. *)
Fixpoint split_once (c : ascii) (s : string) : option (string * string) :=
  match s with
  | EmptyString => None
  | String d r =>
      if Ascii.eqb d c then Some (EmptyString, r)
      else match split_once c r with
           | Some (a, b) => Some (String d a, b)
           | None => None
           end
  end.

(** [s.split(c)] on a one-character separator. *)
Fixpoint split_char (c : ascii) (s : string) : list string :=
  match s with
  | EmptyString => [EmptyString]
  | String d r =>
      if Ascii.eqb d c then EmptyString :: split_char c r
      else match split_char c r with
           | w :: ws => String d w :: ws
           | [] => [String d EmptyString]
           end
  end.

(** [s.replace(old, new)] for one-character [old] and [new]. *)
Fixpoint replace_char (old new : ascii) (s : string) : string :=
  match s with
  | EmptyString => EmptyString
  | String c r =>
      String (if Ascii.eqb c old then new else c) (replace_char old new r)
  end.

(** [s.replace(old, "")] for a one-character [old]. *)
Fixpoint remove_char (old : ascii) (s : string) : string :=
  match s with
  | EmptyString => EmptyString
  | String c r =>
      if Ascii.eqb c old then remove_char old r else String c (remove_char old r)
  end.

(** [s.split()]: the maximal runs of non-blank characters. *)
Fixpoint split_ws (s : string) : list string :=
  match s with
  | EmptyString => []
  | String c r =>
      if isspace c then split_ws r
      else match r with
           | EmptyString => [String c EmptyString]
           | String d _ =>
               if isspace d then String c EmptyString :: split_ws r
               else match split_ws r with
                    | w :: ws => String c w :: ws
                    | [] => [String c EmptyString]
                    end
           end
  end.

(** [sep.join(parts)] *)
Fixpoint join (sep : string) (parts : list string) : string :=
  match parts with
  | [] => EmptyString
  | [w] => w
  | w :: ws => w ++ sep ++ join sep ws
  end.

Definition is_empty (s : string) : bool :=
  match s with
  | EmptyString => true
  | _ => false
  end.

(** [any(x in t for x in xs)] *)
Definition any_in (xs : list string) (t : string) : bool :=
  existsb (fun x => contains x t) xs.

(** ** urllib.parse *)

Record SplitResult : Type := mkSplit {
  scheme : string;
  netloc : string;
  path : string;
  query : string;
  fragment : string
}.

Definition scheme_char (c : ascii) : bool :=
  isalpha c || isdigit c || mem_char c "+-.".

(** The WHATWG set of C0 control characters and the space. *)
Definition c0_or_space (c : ascii) : bool := (code c <=? 32)%N.

(** The scheme step of [urlsplit]: [i = url.find(':')], and when [i > 0], the
    first character is an ASCII letter and all of [url[:i]] are scheme
    characters, the scheme is cut off. *)
Definition split_scheme (url : string) : string * string :=
  match split_once ":" url with
  | Some (String c0 pre, post) =>
      if isalpha c0 && forallb_str scheme_char (String c0 pre)
      then (lower (String c0 pre), post)
      else (EmptyString, url)
  | _ => (EmptyString, url)
  end.

Definition netloc_stop (c : ascii) : bool := mem_char c "/?#".

(** [urlsplit(url)], for the default arguments.  A netloc with one bracket
    but not the other raises [ValueError]; the further validation of a
    well-bracketed address literal (CPython 3.11.4 and later) and the NFKC
    check of a non-ASCII netloc are not modelled. *)
Definition urlsplit (url0 : string) : pyresult SplitResult :=
  let url := lstrip_with c0_or_space url0 in
  let url := remove_char "010" (remove_char "013" (remove_char "009" url)) in
  let '(sch, url) := split_scheme url in
  nu <- (if startswith url "//" then
           let '(nl, rest) := span (fun c => negb (netloc_stop c)) (drop 2 url) in
           if xorb (mem_char "[" nl) (mem_char "]" nl)
           then Raise (PyExc "ValueError" "Invalid IPv6 URL")
           else Ok (nl, rest)
         else Ok (EmptyString, url)) ;;
  let '(nl, url) := nu in
  let '(url, frag) :=
    match split_once "#" url with
    | Some (a, b) => (a, b)
    | None => (url, EmptyString)
    end in
  let '(url, qry) :=
    match split_once "?" url with
    | Some (a, b) => (a, b)
    | None => (url, EmptyString)
    end in
  Ok (mkSplit sch nl url qry frag).

(** [urlparse(url)]: the fields read by this program ([netloc], [query]) are
    those of [urlsplit]. *)
Definition urlparse (url : string) : pyresult SplitResult := urlsplit url.

(** ** utils.py *)

(** [domain_of]: [urlparse(url).netloc.lower().lstrip("www.")] *)
Definition domain_of (url : string) : pyresult string :=
  r <- urlparse url ;;
  Ok (lstrip (lower (netloc r)) "www.").

(** ** Python floats *)

Local Open Scope float_scope.

Definition digit_val (c : ascii) : Z := Z.of_N (code c) - 48.

(** The integer written by a string of decimal digits. *)
Definition Z_of_digits (s : string) : Z :=
  (fix go (acc : Z) (s : string) : Z :=
     match s with
     | EmptyString => acc
     | String c r => go (10 * acc + digit_val c)%Z r
     end) 0%Z s.

(** The binary64 value nearest to [num / den] (ties to even), for positive
    [num] and [den]: the quotient is scaled to a 53-bit significand (fewer
    bits in the subnormal range), rounded, and scaled back. *)
Definition nearest_binary64 (num den : Z) : float :=
  let k0 := (Z.log2 num - Z.log2 den)%Z in
  let ge_pow2 (k : Z) : bool :=
    if (0 <=? k)%Z then (den * 2 ^ k <=? num)%Z else (den <=? num * 2 ^ (- k))%Z in
  let k := if ge_pow2 k0 then k0 else (k0 - 1)%Z in
  let e2 := Z.max (k - 52) (-1074) in
  let a := if (0 <=? e2)%Z then num else (num * 2 ^ (- e2))%Z in
  let b := if (0 <=? e2)%Z then (den * 2 ^ e2)%Z else den in
  let q := (a / b)%Z in
  let r := (a mod b)%Z in
  let q' := if (b <? 2 * r)%Z || ((b =? 2 * r)%Z && Z.odd q) then (q + 1)%Z else q in
  Z.ldexp (PrimFloat.of_uint63 (Uint63.of_Z q')) e2.

(** The binary64 value of [m * 10 ^ e10], [0 <= m].  The two guards only
    keep the powers of ten small: above [10 ^ 310] the value overflows, and
    below [2 ^ -1080] it rounds to zero. *)
Definition decimal_to_float (m e10 : Z) : float :=
  if (m =? 0)%Z then 0
  else if (310 <? e10)%Z then infinity
  else if (Z.log2 m + 1 + 3 * e10 <? -1080)%Z then 0
  else if (0 <=? e10)%Z then nearest_binary64 (m * 10 ^ e10) 1
  else nearest_binary64 m (10 ^ (- e10)).

(** Underscores of a numeric literal: each stands between two digits, and
    they are removed ([None]: misplaced underscore). *)
Fixpoint strip_underscores (prev : option ascii) (s : string) : option string :=
  let prev_digit := match prev with Some p => isdigit p | None => false end in
  let prev_us := match prev with Some p => Ascii.eqb p "_" | None => false end in
  match s with
  | EmptyString => if prev_us then None else Some EmptyString
  | String c r =>
      if Ascii.eqb c "_" then
        if prev_digit then strip_underscores (Some c) r else None
      else if prev_us && negb (isdigit c) then None
      else match strip_underscores (Some c) r with
           | Some r' => Some (String c r')
           | None => None
           end
  end.

(** The optional exponent [e[+-]digits] that ends a decimal literal;
    [None]: text is left over. *)
Definition parse_exponent (s : string) : option Z :=
  match s with
  | EmptyString => Some 0%Z
  | String e r =>
      if mem_char e "eE" then
        let '(neg, r) :=
          match r with
          | String "-" r' => (true, r')
          | String "+" r' => (false, r')
          | _ => (false, r)
          end in
        let '(ds, rest) := span isdigit r in
        if is_empty ds || negb (is_empty rest) then None
        else Some (if neg then (- Z_of_digits ds)%Z else Z_of_digits ds)
      else None
  end.

(** [digits[.digits][exponent]] or [.digits[exponent]], unsigned. *)
Definition parse_decimal (s : string) : option float :=
  let '(ip, r1) := span isdigit s in
  let '(fp, r2) :=
    match r1 with
    | String "." r => span isdigit r
    | _ => (EmptyString, r1)
    end in
  if is_empty ip && is_empty fp then None
  else match parse_exponent r2 with
       | Some e =>
           Some (decimal_to_float (Z_of_digits (ip ++ fp))
                   (e - Z.of_nat (String.length fp)))
       | None => None
       end.

(** The blanks [float()] strips: those of C's [isspace]. *)
Definition isspace_c (c : ascii) : bool :=
  (((9 <=? code c) && (code c <=? 13)) || (code c =? 32))%N.

(** [float(s)] on a string: [Some v], or [None] where Python raises
    [ValueError]. *)
Definition py_float (s0 : string) : option float :=
  let s := rstrip_with isspace_c (lstrip_with isspace_c s0) in
  match (if mem_char "_" s then strip_underscores None s else Some s) with
  | None => None
  | Some s =>
      let '(neg, body) :=
        match s with
        | String "-" r => (true, r)
        | String "+" r => (false, r)
        | _ => (false, s)
        end in
      let signed (v : float) : float := if neg then - v else v in
      match parse_decimal body with
      | Some v => Some (signed v)
      | None =>
          let l := lower body in
          if String.eqb l "inf" || String.eqb l "infinity" then Some (signed infinity)
          else if String.eqb l "nan" then Some (signed nan)
          else None
      end
  end.

(** ** The regular expressions of the rate normalizer *)

(** [\s*%] at the start of [s]: the blanks matched and the text after [%]. *)
Definition pct_tail (s : string) : option (string * string) :=
  let '(ws, r) := span isspace s in
  match r with
  | String "%" r' => Some (ws, r')
  | _ => None
  end.

(** [PCT_RE] = [(?P<num>\d+(?:[.,]\d+)?)\s*%] matched at the start of [s]:
    group [num], group 0 and the text after the match.  The greedy choice is
    tried first and the match without the optional group second; a digit run
    cut short is followed by a digit, which neither [[.,]] nor [\s*%]
    accepts, so no other backtracking step can succeed. *)
Definition pct_match_at (s : string) : option (string * string * string) :=
  let '(d1, r1) := span isdigit s in
  if is_empty d1 then None
  else
    let plain :=
      match pct_tail r1 with
      | Some (ws, rest) => Some (d1, d1 ++ ws ++ "%", rest)
      | None => None
      end in
    match r1 with
    | String c r2 =>
        if mem_char c ".," then
          let '(d2, r3) := span isdigit r2 in
          if is_empty d2 then plain
          else match pct_tail r3 with
               | Some (ws, rest) =>
                   Some (d1 ++ String c d2, d1 ++ String c d2 ++ ws ++ "%", rest)
               | None => plain
               end
        else plain
    | EmptyString => plain
    end.

(** [PCT_RE.search(s)]: group [num] and group 0 of the leftmost match. *)
Fixpoint PCT_search (s : string) : option (string * string) :=
  match pct_match_at s with
  | Some (num, g0, _) => Some (num, g0)
  | None =>
      match s with
      | EmptyString => None
      | String _ r => PCT_search r
      end
  end.

(** [NUM_RE] = [(?P<num>\d+(?:[.,]\d+)?)] matched at the start of [s]. *)
Definition num_match_at (s : string) : option string :=
  let '(d1, r1) := span isdigit s in
  if is_empty d1 then None
  else match r1 with
       | String c r2 =>
           if mem_char c ".," then
             let '(d2, _) := span isdigit r2 in
             if is_empty d2 then Some d1 else Some (d1 ++ String c d2)
           else Some d1
       | EmptyString => Some d1
       end.

(** [[x.group("num") for x in NUM_RE.finditer(s)]]: the scan resumes where
    the previous match ended ([skip] characters are still inside it). *)
Fixpoint NUM_scan (skip : nat) (s : string) : list string :=
  match s with
  | EmptyString => []
  | String _ r =>
      match skip with
      | S k => NUM_scan k r
      | O =>
          match num_match_at s with
          | Some num => num :: NUM_scan (String.length num - 1) r
          | None => NUM_scan 0 r
          end
      end
  end.

Definition NUM_finditer (s : string) : list string := NUM_scan 0 s.

(** ** utils.parse_percent *)

Definition parse_percent (raw : string) : float :=
  let s := strip raw in
  if is_empty s then 0
  else
    match PCT_search s with
    | Some (num, _) =>
        match py_float (replace_char "," "." num) with
        | Some v => v / 100
        | None => 0
        end
    | None =>
        match py_float (replace_char "," "." s) with
        | Some v => if 1 <? v then v / 100 else v
        | None => 0
        end
    end.

(** ** parsers.py: text helpers and the rate normalizer *)

Definition MAX_USD_RATE : float := 0.35.

Definition _norm (s : string) : string := join " " (split_ws s).

(** [0.0 < rate <= MAX_USD_RATE] *)
Definition rate_ok (rate : float) : bool :=
  (0 <? rate) && (rate <=? MAX_USD_RATE).

(** The loop [for raw in nums: rate = parse_percent(raw); if ...: return rate]. *)
Fixpoint first_rate (nums : list string) : option float :=
  match nums with
  | [] => None
  | raw :: rest =>
      let rate := parse_percent raw in
      if rate_ok rate then Some rate else first_rate rest
  end.

Definition _extract_rate_from_text (text : string) : option float :=
  let t := _norm text in
  if is_empty t then None
  else
    let from_nums := first_rate (firstn 4 (NUM_finditer t)) in
    match PCT_search t with
    | Some (_, g0) =>
        let rate := parse_percent g0 in
        if rate_ok rate then Some rate else from_nums
    | None => from_nums
    end.

(** ** The USD context classifier *)

Definition USD_POS : list string :=
  ["usd"; "us dollar"; "dollar"; "aqsh dollar"; "aqsh doll"; "$"; "доллар"; "долл"].

Definition USD_NEG : list string :=
  ["uzs"; "so'm"; "som"; "сум"; "sum"; "сўм"].

Definition DEPOSIT_LINK_HINTS : list string :=
  ["deposit"; "deposits"; "omonat"; "omonatlar"; "vklad"; "vklady"; "депозит";
   "вклад"; "savings"; "saving"; "term-deposit"; "time-deposit"].

Definition RATE_HINTS : list string :=
  ["rate"; "annual"; "stavka"; "foiz"; "процент"; "yillik"; "годовых"; "%"].

(** [any(x in t for x in USD_NEG) and not any(x in t for x in USD_POS)], the
    test the extraction strategies repeat on a lower-cased text. *)
Definition only_non_usd (t : string) : bool :=
  any_in USD_NEG t && negb (any_in USD_POS t).

Definition _is_usd_context (text : string) : bool :=
  let t := lower text in
  if only_non_usd t then false else any_in USD_POS t.

(** [NOISE_RE.search(t)]: an alternation of literals, case-insensitive. *)
Definition NOISE_RE_search (t : string) : bool :=
  any_in ["{"; "}"; "@font-face"; "/*"; "*/"; "px"; "rem"; "vh"; "vw"; "var(";
          "normalize.css"] (lower t).

Definition _is_noise (s : string) : bool :=
  let t := _norm s in
  if (String.length t <? 2)%nat then true else NOISE_RE_search t.

(** ** Query strings *)

Definition hex_val (c : ascii) : option N :=
  if isdigit c then Some (code c - 48)%N
  else if ((97 <=? code c) && (code c <=? 102))%N then Some (code c - 87)%N
  else if ((65 <=? code c) && (code c <=? 70))%N then Some (code c - 55)%N
  else None.

(** [unquote]: every [%XX] with two hexadecimal digits becomes the byte it
    names; any other [%] stays. *)
Fixpoint unquote (s : string) : string :=
  match s with
  | EmptyString => EmptyString
  | String c r =>
      let keep := String c (unquote r) in
      if Ascii.eqb c "%" then
        match r with
        | String h (String l r') =>
            match hex_val h, hex_val l with
            | Some a, Some b =>
                String (ascii_of_N (16 * a + b))
                  ((fix skip2 (r0 : string) : string :=
                      match r0 with
                      | String _ (String _ r1) => unquote r1
                      | _ => EmptyString
                      end) r)
            | _, _ => keep
            end
        | _ => keep
        end
      else keep
  end.

(** [parse_qsl(qs)] with the default arguments: fields are separated by [&];
    a field with no [=] or with an empty value is dropped. *)
Definition parse_qsl (qs : string) : list (string * string) :=
  if is_empty qs then []
  else
    flat_map
      (fun name_value =>
         match split_once "=" name_value with
         | Some (n, v) =>
             if is_empty v then []
             else [(unquote (replace_char "+" " " n), unquote (replace_char "+" " " v))]
         | None => []
         end)
      (split_char "&" qs).

(** [parsed_result[name].append(value)], or a new entry at the end. *)
Fixpoint qs_add (name value : string) (d : list (string * list string))
  : list (string * list string) :=
  match d with
  | [] => [(name, [value])]
  | (k, vs) :: r =>
      if String.eqb k name then (k, (vs ++ [value])%list) :: r
      else (k, vs) :: qs_add name value r
  end.

Definition parse_qs (qs : string) : list (string * list string) :=
  fold_left (fun d nv => qs_add (fst nv) (snd nv) d) (parse_qsl qs) [].

(** The loop over [q.items()] of [_page_forced_usd]. *)
Definition query_pins_usd (q : list (string * list string)) : bool :=
  existsb
    (fun kv =>
       (String.eqb (lower (fst kv)) "currency" || String.eqb (lower (fst kv)) "valyuta")
       && existsb (fun x => String.eqb (lower x) "usd") (snd kv))
    q.

(** [" usd " in f" {t} " and not any(x in t for x in USD_NEG)] *)
Definition text_pins_usd (soup_text : string) : bool :=
  let t := lower soup_text in
  contains " usd " (" " ++ t ++ " ") && negb (any_in USD_NEG t).

Definition _page_forced_usd (url soup_text : string) : pyresult bool :=
  let u := lower url in
  if contains "currency=usd" u || contains "valyuta=usd" u || contains "usd" u
  then Ok true
  else
    r <- urlparse url ;;
    if query_pins_usd (parse_qs (query r)) then Ok true
    else if text_pins_usd soup_text then Ok true
    else Ok false.

(** ** models.py *)

Module Deposit.
Record t : Type := mk {
  bank : string;
  site : string;
  name : string;
  rate : float;
  currency : string;
  url : string
}.
End Deposit.

Module SiteStatus.
Record t : Type := mk {
  input_url : string;
  domain : string;
  http_status : option Z;
  signals : string;
  result : string;
  note : string;
  rows_found : nat
}.
End SiteStatus.

(** ** http.py *)

(** A [requests.Response]: the fields this program reads.  [headers] is the
    case-insensitive dictionary of the response, one entry per header. *)
Module Response.
Record t : Type := mk {
  status_code : Z;
  headers : list (string * string);
  text : string
}.
End Response.

(** [r.headers.get(key, "")], case-insensitive. *)
Fixpoint headers_get (h : list (string * string)) (key : string) : string :=
  match h with
  | [] => EmptyString
  | (k, v) :: r => if String.eqb (lower k) (lower key) then v else headers_get r key
  end.

(** [key in hdr] for [hdr = {k.lower(): v for k, v in r.headers.items()}]. *)
Definition hdr_has (h : list (string * string)) (key : string) : bool :=
  existsb (fun kv => String.eqb (lower (fst kv)) key) h.

Definition ANTI_COOKIES : list string :=
  ["cf_clearance"; "__cf_bm"; "_abck"; "bm_sz"; "ak_bmsc"].

Definition ANTI_BODY : list string :=
  ["captcha"; "hcaptcha"; "recaptcha"; "checking your browser"; "just a moment";
   "access denied"; "request blocked"; "cf-challenge"; "challenge-platform";
   "enable javascript"; "javascript required"].

(** [ANTI_COOKIES_RE.search] and [ANTI_BODY_RE.search]: alternations of
    literals, case-insensitive. *)
Definition ANTI_COOKIES_RE_search (s : string) : bool := any_in ANTI_COOKIES (lower s).
Definition ANTI_BODY_RE_search (s : string) : bool := any_in ANTI_BODY (lower s).

(** Some suffix of [s] satisfies [p]. *)
Fixpoint exists_suffix (p : string -> bool) (s : string) : bool :=
  p s ||
  match s with
  | EmptyString => false
  | String _ r => exists_suffix p r
  end.

Definition is_quote (c : ascii) : bool := mem_char c "'" || Ascii.eqb c (ascii_of_N 34).

(** [id=['"]app['"]] or [id=['"]root['"]] at the start of a lower-cased [s]. *)
Definition id_attr_at (s : string) : bool :=
  startswith s "id=" &&
  match drop 3 s with
  | String q r =>
      is_quote q &&
      ((startswith r "app" &&
        match drop 3 r with String q' _ => is_quote q' | EmptyString => false end) ||
       (startswith r "root" &&
        match drop 4 r with String q' _ => is_quote q' | EmptyString => false end))
  | EmptyString => false
  end.

(** One alternative of [JS_SHELL_RE] at the start of a lower-cased [s]:
    [<div], at least one character other than [>], the [id] attribute, and
    the first [>] after it; the whole match lies before the first [>] that
    follows [<div]. *)
Definition js_shell_at (s : string) : bool :=
  startswith s "<div" &&
  let '(seg, rest) := span (fun c => negb (Ascii.eqb c ">")) (drop 4 s) in
  negb (is_empty rest) && exists_suffix id_attr_at (drop 1 seg).

(** [JS_SHELL_RE.search(t)], case-insensitive. *)
Definition JS_SHELL_RE_search (t : string) : bool :=
  exists_suffix js_shell_at (lower t).

Definition looks_js_empty (html : string) : bool :=
  let t := strip html in
  if (String.length t <? 1500)%nat then true
  else if JS_SHELL_RE_search t && negb (contains "%" t) && negb (contains "usd" (lower t))
  then true
  else false.

(** [str(n)] for an integer. *)
Definition str_of_Z (z : Z) : string :=
  DecimalString.NilZero.string_of_int (Z.to_int z).

Definition block_status (status : Z) : bool :=
  existsb (Z.eqb status) [401; 403; 429; 503]%Z.

(** The list [signals] of [diagnose_response], before it is joined. *)
Definition diagnose_signals (r : Response.t) : list string :=
  let hdr := Response.headers r in
  let body := take 20000 (Response.text r) in
  let cookie_blob := headers_get hdr "Set-Cookie" in
  ((if block_status (Response.status_code r)
    then [("status=" ++ str_of_Z (Response.status_code r))%string] else [])
   ++ (if hdr_has hdr "cf-ray" || contains "cloudflare" (lower (headers_get hdr "server"))
       then ["cloudflare"] else [])
   ++ (if hdr_has hdr "x-sucuri-id" || hdr_has hdr "x-sucuri-cache"
       then ["sucuri"] else [])
   ++ (if ANTI_COOKIES_RE_search cookie_blob then ["antibot_cookie"] else [])
   ++ (if ANTI_BODY_RE_search body then ["antibot_page"] else [])
   ++ (if (Response.status_code r =? 200)%Z && looks_js_empty (Response.text r)
       then ["thin_html_or_js_shell"] else []))%list.

Definition diagnose_response (url : string) (r : Response.t) : Z * string :=
  (Response.status_code r, join "," (diagnose_signals r)).

(** ** cli.py: the helpers of [main] *)

Definition USD_TOKENS : list string := ["usd"; "$"; "dollar"; "aqsh"].
Definition PCT_TOKEN : string := "%".

Definition _simple_has_usd (html : string) : bool := any_in USD_TOKENS (lower html).

Definition _simple_has_percent (html : string) : bool := contains PCT_TOKEN html.

Definition _unwrap_retry_error (e : exn) : exn :=
  match e with
  | RetryError last => last
  | _ => e
  end.

Definition _is_hard_block (status : option Z) (signals : string) : bool :=
  if match status with Some st => block_status st | None => false end then true
  else
    let s := lower signals in
    let has_waf := contains "cloudflare" s || contains "sucuri" s in
    let has_antibot := contains "antibot_cookie" s || contains "antibot_page" s in
    has_waf && has_antibot.

(** ** The parsed document (BeautifulSoup)

    A document is a tree of tags and text nodes.  [Text] stands for the
    strings [get_text] reads: comments and the content of script and style
    elements are no [Text] nodes. *)
Inductive node : Type :=
| Text (s : string)
| Tag (name : string) (attrs : list (string * string)) (children : list node).

(** [tag.descendants]: the nodes below [n], in document order. *)
Fixpoint descendants (n : node) : list node :=
  match n with
  | Text _ => []
  | Tag _ _ cs => flat_map (fun c => c :: descendants c) cs
  end.

Definition is_tag_in (names : list string) (n : node) : bool :=
  match n with
  | Tag nm _ _ => existsb (String.eqb nm) names
  | Text _ => false
  end.

(** [tag.find_all(names)] and [tag.find(name)] *)
Definition find_all (names : list string) (n : node) : list node :=
  filter (is_tag_in names) (descendants n).

Definition find (name : string) (n : node) : option node :=
  hd_error (find_all [name] n).

(** [tag[key]] for an attribute that is present. *)
Definition attr_get (n : node) (key : string) : option string :=
  match n with
  | Tag _ attrs _ =>
      match List.find (fun kv => String.eqb (fst kv) key) attrs with
      | Some kv => Some (snd kv)
      | None => None
      end
  | Text _ => None
  end.

(** [tag.get_text(" ", strip=True)]: the stripped, non-empty strings below
    the tag, joined by one space. *)
Definition get_text (n : node) : string :=
  join " "
    (filter (fun s => negb (is_empty s))
       (flat_map (fun d => match d with Text s => [strip s] | Tag _ _ _ => [] end)
          (descendants n))).

(** [tag.decompose()] for every tag named in [names]. *)
Fixpoint remove_tags (names : list string) (n : node) : node :=
  match n with
  | Text s => Text s
  | Tag nm attrs cs =>
      Tag nm attrs
        ((fix go (l : list node) : list node :=
            match l with
            | [] => []
            | c :: r =>
                if is_tag_in names c then go r else remove_tags names c :: go r
            end) cs)
  end.

Definition _best_bank_name (soup : node) : string :=
  let from_title :=
    let title :=
      _norm (match find "title" soup with Some t => get_text t | None => EmptyString end) in
    if is_empty title then "Unknown Bank" else take 80 title in
  match find "h1" soup with
  | Some h1 =>
      let v := _norm (get_text h1) in
      if is_empty v then from_title else take 80 v
  | None => from_title
  end.

(** The loop over the heading-like tags of [_pick_name_from_block]. *)
Fixpoint pick_name_tags (tags : list string) (block : node) : option string :=
  match tags with
  | [] => None
  | tag :: rest =>
      match find tag block with
      | Some n =>
          let s := _norm (get_text n) in
          if negb (is_empty s) && negb (_is_noise s) then Some s
          else pick_name_tags rest block
      | None => pick_name_tags rest block
      end
  end.

Definition _pick_name_from_block (block : node) : string :=
  match pick_name_tags ["h1"; "h2"; "h3"; "h4"; "strong"; "b"; "a"] block with
  | Some s => s
  | None => take 120 (_norm (get_text block))
  end.

(** The index of the first header that satisfies [p]. *)
Fixpoint first_index (p : string -> bool) (hs : list string) : option nat :=
  match hs with
  | [] => None
  | h :: r =>
      if p h then Some O
      else match first_index p r with
           | Some i => Some (S i)
           | None => None
           end
  end.

(** The text of the cell at a header index that exists in the row. *)
Definition cell_text (idx : option nat) (cells : list node) : option string :=
  match idx with
  | Some i =>
      match nth_error cells i with
      | Some c => Some (_norm (get_text c))
      | None => None
      end
  | None => None
  end.

(** Running [f] over a list and gathering what it appends, until it raises. *)
Fixpoint gather {A B : Type} (f : A -> pyresult (list B)) (l : list A)
  : pyresult (list B) :=
  match l with
  | [] => Ok []
  | a :: r =>
      xs <- f a ;;
      ys <- gather f r ;;
      Ok (xs ++ ys)%list
  end.

(** The body of the loop over the data rows of a table. *)
Definition table_row (url bank : string) (forced_usd : bool)
    (cur_idx rate_idx name_idx : option nat) (tr : node)
  : pyresult (list Deposit.t) :=
  let cells := find_all ["td"; "th"] tr in
  match cells with
  | [] => Ok []
  | _ :: _ =>
      let row_text := _norm (get_text tr) in
      if _is_noise row_text then Ok []
      else
        let cur_text :=
          match cell_text cur_idx cells with Some s => s | None => EmptyString end in
        let row_usd :=
          forced_usd || _is_usd_context row_text || _is_usd_context cur_text in
        if negb row_usd then Ok []
        else if only_non_usd (lower row_text) then Ok []
        else
          let rate_text :=
            match cell_text rate_idx cells with Some s => s | None => row_text end in
          match _extract_rate_from_text rate_text with
          | None => Ok []
          | Some rate =>
              let name :=
                match cell_text name_idx cells with Some s => s | None => EmptyString end in
              let name := if is_empty name then _pick_name_from_block tr else name in
              if is_empty name || _is_noise name then Ok []
              else
                site <- domain_of url ;;
                Ok [Deposit.mk bank site name rate "USD" url]
          end
  end.

Definition one_table (url bank : string) (forced_usd : bool) (table : node)
  : pyresult (list Deposit.t) :=
  match find_all ["tr"] table with
  | row0 :: (_ :: _) as rows1 =>
      let headers := map (fun x => lower (_norm (get_text x))) (find_all ["th"; "td"] row0) in
      let cur_idx :=
        first_index (fun h => contains "currency" h || contains "валюта" h
                              || contains "valyuta" h || contains "usd" h) headers in
      let rate_idx := first_index (fun h => any_in RATE_HINTS h) headers in
      let name_idx :=
        first_index (fun h => contains "deposit" h || contains "вклад" h
                              || contains "депозит" h || contains "omonat" h) headers in
      gather (table_row url bank forced_usd cur_idx rate_idx name_idx) rows1
  | _ => Ok []
  end.

Definition _extract_from_tables (soup : node) (url bank : string) (forced_usd : bool)
  : pyresult (list Deposit.t) :=
  gather (one_table url bank forced_usd) (find_all ["table"] soup).

(** The body of the loop of [_extract_from_blocks]. *)
Definition one_block (url bank : string) (forced_usd : bool) (block : node)
  : pyresult (list Deposit.t) :=
  let bt := _norm (get_text block) in
  if is_empty bt || _is_noise bt then Ok []
  else if negb (existsb_str isdigit bt) then Ok []
  else
    let block_has_rate_hint := any_in RATE_HINTS (lower bt) in
    let block_has_percent := contains "%" bt in
    if negb (block_has_percent || block_has_rate_hint) then Ok []
    else if negb (forced_usd || _is_usd_context bt) then Ok []
    else if only_non_usd (lower bt) then Ok []
    else
      match _extract_rate_from_text bt with
      | None => Ok []
      | Some rate =>
          let name := _pick_name_from_block block in
          if is_empty name then Ok []
          else if _is_noise name then Ok []
          else if any_in ["cookie"; "privacy"; "policy"; "search"; "subscribe"] (lower name)
          then Ok []
          else
            site <- domain_of url ;;
            Ok [Deposit.mk bank site name rate "USD" url]
      end.

Definition _extract_from_blocks (soup : node) (url bank : string) (forced_usd : bool)
  : pyresult (list Deposit.t) :=
  gather (one_block url bank forced_usd)
    (find_all ["tr"; "article"; "li"; "section"; "div"] soup).

(** ** Deduplication *)

Definition dedup_key : Type := string * string * float.

Definition key_of (d : Deposit.t) : dedup_key :=
  (Deposit.site d, lower (strip (Deposit.name d)), Deposit.rate d).

(** Equality of two keys, as the dictionary decides it: [==] on the two
    strings and on the float.  (A NaN equals nothing; no record holds one,
    since every test on a rate rejects it.) *)
Definition key_eqb (a b : dedup_key) : bool :=
  let '(s1, n1, r1) := a in
  let '(s2, n2, r2) := b in
  String.eqb s1 s2 && String.eqb n1 n2 && (r1 =? r2)%float.

(** [uniq.setdefault(key, d)] on a dictionary kept in insertion order. *)
Definition setdefault {K V : Type} (eqb : K -> K -> bool)
    (uniq : list (K * V)) (key : K) (d : V) : list (K * V) :=
  if existsb (fun kv => eqb (fst kv) key) uniq then uniq
  else (uniq ++ [(key, d)])%list.

Definition _dedup (items : list Deposit.t) : list Deposit.t :=
  map snd (fold_left (fun uniq d => setdefault key_eqb uniq (key_of d) d) items []).

(** ** JSON values *)

Inductive json : Type :=
| JNull
| JBool (b : bool)
| JInt (z : Z)
| JFloat (f : float)
| JStr (s : string)
| JList (items : list json)
| JDict (members : list (string * json)).

(** [obj.get(k)] on a dictionary whose keys are distinct. *)
Fixpoint dict_get (d : list (string * json)) (k : string) : option json :=
  match d with
  | [] => None
  | (k', v) :: r => if String.eqb k' k then Some v else dict_get r k
  end.

Definition type_name (v : json) : string :=
  match v with
  | JNull => "NoneType"
  | JBool _ => "bool"
  | JInt _ => "int"
  | JFloat _ => "float"
  | JStr _ => "str"
  | JList _ => "list"
  | JDict _ => "dict"
  end.

(** [isinstance(v, (str, int, float))]; [bool] is a subclass of [int]. *)
Definition is_scalar (v : json) : bool :=
  match v with
  | JStr _ | JInt _ | JFloat _ | JBool _ => true
  | _ => false
  end.

(** ** Pure helpers of the crawl *)

Definition _same_domain (a b : string) : pyresult bool :=
  da <- domain_of a ;;
  db <- domain_of b ;;
  Ok (String.eqb da db).

Definition mem_str (x : string) (l : list string) : bool := existsb (String.eqb x) l.

Local Close Scope float_scope.


(** ** utils.py: the input file, the currency hints and the report frame *)

(** The characters at which [str.splitlines] ends a line, on ASCII text:
    LF, VT, FF, CR, FS, GS and RS. *)
Definition is_linebreak (c : ascii) : bool :=
  (((10 <=? code c) && (code c <=? 13)) || ((28 <=? code c) && (code c <=? 30)))%N.

(** [s.splitlines()]: every line break ends a line, CR LF is one break, and
    the text after the last break is a line when it is not empty.
    [after_cr]: the previous character was a CR that ended a line. *)
Fixpoint splitlines_from (after_cr : bool) (s : string) : list string :=
  match s with
  | EmptyString => []
  | String c r =>
      if after_cr && Ascii.eqb c "010" then splitlines_from false r
      else if is_linebreak c then EmptyString :: splitlines_from (Ascii.eqb c "013") r
      else match splitlines_from false r with
           | l :: ls => String c l :: ls
           | [] => [String c EmptyString]
           end
  end.

Definition splitlines (s : string) : list string := splitlines_from false s.

(** The file named on the command line: whether [path.exists()], and what
    [path.read_text(encoding="utf-8")] returns or raises. *)
Record input_file : Type := mkFile {
  file_exists : bool;
  read_text : pyresult string
}.

(** The body of the loop of [load_urls] over one line. *)
Definition url_of_line (raw : string) : list string :=
  let s := strip raw in
  if is_empty s || startswith s "#" then [] else [s].

(** [load_urls(path)]; [path] is [str(path)]. *)
Definition load_urls (path : string) (f : input_file) : pyresult (list string) :=
  if negb (file_exists f)
  then Raise (PyExc "FileNotFoundError" ("Input file not found: " ++ path))
  else
    text <- read_text f ;;
    Ok (flat_map url_of_line (splitlines text)).



(** [is NaN], the missing value of a float column. *)
Definition isna (x : float) : bool := negb (x =? x)%float.

(** The order of two values of the column AnnualRate under
    [ascending=False]: the greater value first, a missing value last. *)
Definition rate_compare_desc (a b : float) : comparison :=
  if isna a then (if isna b then Eq else Gt)
  else if isna b then Lt
  else if (b <? a)%float then Lt
  else if (a <? b)%float then Gt
  else Eq.

(** The order of two rows under
    [sort_values(["Bank", "AnnualRate", "Deposit"], ascending=[True, False, True])]. *)
Definition frame_compare (a b : Deposit.t) : comparison :=
  match String.compare (Deposit.bank a) (Deposit.bank b) with
  | Eq =>
      match rate_compare_desc (Deposit.rate a) (Deposit.rate b) with
      | Eq => String.compare (Deposit.name a) (Deposit.name b)
      | c => c
      end
  | c => c
  end.

(** A stable sort: a row new to a sorted list goes before the first row
    that does not sort before it, and the rows are entered last to first. *)
Fixpoint insert_row {A : Type} (cmp : A -> A -> comparison) (x : A) (l : list A)
  : list A :=
  match l with
  | [] => [x]
  | y :: r =>
      match cmp x y with
      | Gt => y :: insert_row cmp x r
      | _ => x :: l
      end
  end.

Definition stable_sort {A : Type} (cmp : A -> A -> comparison) (l : list A) : list A :=
  fold_right (insert_row cmp) [] l.

(** [to_dataframe(rows)]: the rows of the frame it returns, in order (the
    columns are those of [Deposit], renamed). *)
Definition to_dataframe (rows : list Deposit.t) : list Deposit.t :=
  stable_sort frame_compare rows.

(** ** cli.py: the totals of [main] *)

(** [sum(1 for s in sites if s.rows_found > 0)] *)
Definition ok_sites (sites : list SiteStatus.t) : nat :=
  List.length (filter (fun s => (0 <? SiteStatus.rows_found s)%nat) sites).

(** ** export.py: the fonts of the report *)

(** The colour and the weight of the font of a cell of the column Result;
    [None]: the cell keeps the default font. *)
Definition result_font (v : string) : option (string * bool) :=
  if contains "OK" v then Some ("27AE60", true)
  else if contains "ERROR" v || contains "BLOCKED" v then Some ("E74C3C", true)
  else if contains "NO_" v || contains "JS_" v then Some ("F39C12", false)
  else None.
(** ** A concrete network, for the closed examples

    The state of the network is the log of the URLs requested so far. *)

Module Demo.

Definition W : Type := list string.

Definition bank_page : node :=
  Tag "html" []
    [Tag "head" [] [Tag "title" [] [Text "Example Bank"]];
     Tag "body" []
       [Tag "h1" [] [Text "Example Bank"];
        Tag "table" []
          [Tag "tr" [] [Tag "th" [] [Text "Currency"]; Tag "th" [] [Text "Deposit"];
                        Tag "th" [] [Text "Rate"]];
           Tag "tr" [] [Tag "td" [] [Text "USD"]; Tag "td" [] [Text "Gold Saver"];
                        Tag "td" [] [Text "7.2%"]];
           Tag "tr" [] [Tag "td" [] [Text "UZS"]; Tag "td" [] [Text "Standard"];
                        Tag "td" [] [Text "20%"]]];
        Tag "a" [("href", "/deposits/usd")] [Text "USD deposits"];
        Tag "a" [("href", "/deposits/term")] [Text "Term deposits"];
        Tag "a" [("href", "/about")] [Text "About us"];
        Tag "a" [("href", "https://other.example/deposits")] [Text "Partner deposits"]]].

Definition xb_data : json :=
  JList
    [JDict [("Omonat nomi", JStr "Dollar omonati"); ("Yillik foiz", JStr "5 %");
            ("Boshlang'ich badal miqdori", JStr "100 USD"); ("Boshqa shartlar", JStr "")];
     JDict [("Omonat nomi", JStr "USD Kelajak");
            ("Yillik foiz", JStr "shartnoma asosida");
            ("Boshlang'ich badal miqdori", JStr "1000 USD"); ("Boshqa shartlar", JStr "")]].

Definition session_get (url : string) (w : W) : pyresult Response.t * W :=
  (if String.eqb url "https://down.example/"
   then Raise (PyExc "ConnectionError" "connection refused")
   else if String.eqb url "https://blocked.example/"
   then Ok (Response.mk 503 [] "Service Unavailable")
   else if startswith url "https://data.egov.uz/"
   then Ok (Response.mk 200 [("Content-Type", "application/json")] "xb-open-data")
   else Ok (Response.mk 200 [("Content-Type", "text/html")] "<html>Example Bank</html>"),
   (w ++ [url])%list).

Definition BeautifulSoup (html : string) : node := bank_page.

Definition urljoin (base href : string) : pyresult string :=
  Ok (if startswith href "http" then href else "https://bank.example" ++ href).

Definition response_json (r : Response.t) : pyresult json :=
  if String.eqb (Response.text r) "xb-open-data" then Ok xb_data
  else Raise (PyExc "JSONDecodeError" "Expecting value: line 1 column 1 (char 0)").

Definition http_error_msg (r : Response.t) : string :=
  str_of_Z (Response.status_code r) ++ " Error for url".

Definition py_repr (v : json) : string := EmptyString.

Definition found_json_urls (base_url html : string) : pyresult (list string) := Ok [].

(** The page of a two-row table whose USD row is named Premium Savings. *)
Definition premium_page : node :=
  Tag "html" []
    [Tag "body" []
       [Tag "h1" [] [Text "Example Bank"];
        Tag "table" []
          [Tag "tr" [] [Tag "th" [] [Text "Currency"]; Tag "th" [] [Text "Deposit"];
                        Tag "th" [] [Text "Rate"]];
           Tag "tr" [] [Tag "td" [] [Text "USD"]; Tag "td" [] [Text "Premium Savings"];
                        Tag "td" [] [Text "7.2%"]];
           Tag "tr" [] [Tag "td" [] [Text "UZS"]; Tag "td" [] [Text "Standard"];
                        Tag "td" [] [Text "20%"]]]]].

End Demo.


(** ** Facts about the string operations *)

Lemma append_empty_r (s : string) : s ++ "" = s.
Proof. induction s as [|c r IH]; simpl; [reflexivity | now rewrite IH]. Qed.

Lemma append_assoc (a b c : string) : (a ++ b) ++ c = a ++ b ++ c.
Proof. induction a as [|x a IH]; simpl; [reflexivity | now rewrite IH]. Qed.

Lemma startswith_iff (s p : string) :
  startswith s p = true <-> exists r, s = p ++ r.
Proof.
  revert s; induction p as [|a p IH]; intros s; simpl.
  - split; [intros _; now exists s | reflexivity].
  - destruct s as [|b s].
    + split; [discriminate | intros [r H]; discriminate].
    + rewrite andb_true_iff, Ascii.eqb_eq, IH. split.
      * intros [-> [r ->]]. now exists r.
      * intros [r H]. injection H as -> ->. split; [reflexivity | now exists r].
Qed.

Lemma contains_iff (x t : string) :
  contains x t = true <-> exists a b, t = a ++ x ++ b.
Proof.
  induction t as [|c t IH]; simpl.
  - rewrite orb_false_r, startswith_iff. split.
    + intros [r H]. exists "", r. exact H.
    + intros [a [b H]]. destruct a; [|discriminate]. now exists b.
  - rewrite orb_true_iff, startswith_iff, IH. split.
    + intros [[r H] | [a [b H]]].
      * exists "", r. exact H.
      * exists (String c a), b. simpl. now rewrite H.
    + intros [a [b H]]. destruct a as [|d a].
      * left. now exists b.
      * right. simpl in H. injection H as _ H. now exists a, b.
Qed.

(** A text that contains [p ++ x ++ s] contains [x]. *)
Lemma contains_inner (p x s t : string) :
  contains (p ++ x ++ s) t = true -> contains x t = true.
Proof.
  rewrite !contains_iff. intros [a [b ->]].
  exists (a ++ p), (s ++ b). now rewrite !append_assoc.
Qed.

Lemma lower_append (a b : string) : lower (a ++ b) = lower a ++ lower b.
Proof. induction a as [|c a IH]; simpl; [reflexivity | now rewrite IH]. Qed.

Lemma lstrip_with_split (p : ascii -> bool) (s : string) :
  exists pre, s = pre ++ lstrip_with p s /\ forallb_str p pre = true.
Proof.
  induction s as [|c r [pre [H1 H2]]]; simpl.
  - now exists "".
  - destruct (p c) eqn:E.
    + exists (String c pre). simpl. rewrite E, H2. split; [now f_equal | reflexivity].
    + now exists "".
Qed.

Lemma lstrip_with_head (p : ascii -> bool) (s : string) (c : ascii) (r : string) :
  lstrip_with p s = String c r -> p c = false.
Proof.
  induction s as [|d s IH]; simpl; [discriminate|].
  destruct (p d) eqn:E; [exact IH|].
  intros H. injection H as -> _. exact E.
Qed.

Lemma forallb_str_impl (p q : ascii -> bool) (s : string) :
  (forall c, p c = true -> q c = true) ->
  forallb_str p s = true -> forallb_str q s = true.
Proof.
  intros Hpq. induction s as [|c s IH]; simpl; [reflexivity|].
  rewrite !andb_true_iff. intros [H1 H2]. split; auto.
Qed.

(** The character set of [lstrip("www.")]. *)
Definition w_or_dot (c : ascii) : bool := Ascii.eqb c "w" || Ascii.eqb c ".".

Lemma mem_char_www (c : ascii) : mem_char c "www." = w_or_dot c.
Proof.
  unfold w_or_dot; simpl.
  destruct (Ascii.eqb c "w"), (Ascii.eqb c "."); reflexivity.
Qed.

(** ** Domain normalization *)

(** [str.removeprefix("www.")], the operation [domain_of] does not use. *)
Definition removeprefix_www (s : string) : string :=
  if startswith s "www." then drop 4 s else s.

(** C10.  [domain_of] lower-cases the netloc of the URL and removes every
    leading character that is [w] or [.] (the [str.lstrip] reading of
    ["www."]), not the prefix ["www."]: the result [d] is what is left of
    the lower-cased netloc after a run of such characters, and [d] itself
    starts with neither.  So the host [web.bank.example] becomes
    [eb.bank.example], where removing the prefix would have kept it; the
    same normalization decides [_same_domain]. *)
Theorem domain_of_lstrip_char_set :
  (forall url d, domain_of url = Ok d ->
     exists r pre,
       urlparse url = Ok r /\
       lower (netloc r) = pre ++ d /\
       forallb_str w_or_dot pre = true /\
       startswith d "w" = false /\ startswith d "." = false)
  /\ urlparse "https://web.bank.example/deposits"
     = Ok (mkSplit "https" "web.bank.example" "/deposits" "" "")
  /\ domain_of "https://web.bank.example/deposits" = Ok "eb.bank.example"
  /\ removeprefix_www "web.bank.example" = "web.bank.example"
  /\ domain_of "https://WWW.Bank.example/deposits" = Ok "bank.example"
  /\ domain_of "https://www.wwf.example/" = Ok "f.example"
  /\ _same_domain "https://web.bank.example/" "https://eb.bank.example/x" = Ok true.
Proof.
  split; [|repeat split; reflexivity].
  intros url d H. unfold domain_of in H.
  destruct (urlparse url) as [r|e] eqn:Hr; simpl in H; [|discriminate].
  injection H as <-. exists r.
  destruct (lstrip_with_split (fun c => mem_char c "www.") (lower (netloc r)))
    as [pre [H1 H2]].
  exists pre. unfold lstrip. repeat split.
  - exact H1.
  - apply forallb_str_impl with (2 := H2). intros c Hc. now rewrite <- mem_char_www.
  - destruct (lstrip_with _ (lower (netloc r))) as [|c s] eqn:E; [reflexivity|].
    apply lstrip_with_head in E. rewrite mem_char_www in E. unfold w_or_dot in E.
    apply orb_false_iff in E as [E _].
    change (Ascii.eqb "w" c && true = false). now rewrite Ascii.eqb_sym, E.
  - destruct (lstrip_with _ (lower (netloc r))) as [|c s] eqn:E; [reflexivity|].
    apply lstrip_with_head in E. rewrite mem_char_www in E. unfold w_or_dot in E.
    apply orb_false_iff in E as [_ E].
    change (Ascii.eqb "." c && true = false). now rewrite Ascii.eqb_sym, E.
Qed.

(** ** The hard-block decision *)

(** A match of [x] cannot run across a character that [x] does not hold. *)
Lemma startswith_app_sep (c : ascii) (x a b : string) :
  mem_char c x = false ->
  startswith (a ++ String c b) x = startswith a x.
Proof.
  revert a; induction x as [|x0 x IH]; intros a Hx; [reflexivity|].
  simpl in Hx. apply orb_false_iff in Hx as [Hc Hx].
  destruct a as [|d a]; simpl.
  - now rewrite Ascii.eqb_sym, Hc.
  - now rewrite IH.
Qed.

Lemma contains_app_sep (c : ascii) (x a b : string) :
  mem_char c x = false ->
  contains x (a ++ String c b) = contains x a || contains x b.
Proof.
  intros Hx. induction a as [|d a IH].
  - change (contains x ("" ++ String c b))
      with (startswith ("" ++ String c b) x || contains x b).
    rewrite startswith_app_sep by exact Hx. simpl. now rewrite orb_false_r.
  - change (contains x (String d a ++ String c b))
      with (startswith (String d a ++ String c b) x || contains x (a ++ String c b)).
    rewrite startswith_app_sep by exact Hx. rewrite IH. simpl. now rewrite orb_assoc.
Qed.

Lemma contains_join (c : ascii) (x0 : ascii) (x : string) (l : list string) :
  mem_char c (String x0 x) = false ->
  contains (String x0 x) (join (String c "") l) = existsb (contains (String x0 x)) l.
Proof.
  intros Hx. induction l as [|w ws IH]; [reflexivity|].
  destruct ws as [|w2 ws].
  - simpl. now rewrite orb_false_r.
  - change (join (String c "") (w :: w2 :: ws))
      with (w ++ String c (join (String c "") (w2 :: ws))).
    rewrite contains_app_sep by exact Hx. rewrite IH. reflexivity.
Qed.

Lemma lower_join (sep : string) (l : list string) :
  lower (join sep l) = join (lower sep) (map lower l).
Proof.
  induction l as [|w ws IH]; [reflexivity|].
  destruct ws as [|w2 ws]; [reflexivity|].
  change (join sep (w :: w2 :: ws)) with (w ++ sep ++ join sep (w2 :: ws)).
  rewrite !lower_append, IH. reflexivity.
Qed.

(** Membership in a list that is written out. *)
Ltac in_list := simpl; solve [repeat (first [left; reflexivity | right])].

(** The tags [diagnose_response] can emit. *)
Definition SIGNAL_TAGS : list string :=
  ["status=401"; "status=403"; "status=429"; "status=503"; "cloudflare"; "sucuri";
   "antibot_cookie"; "antibot_page"; "thin_html_or_js_shell"].

Definition BLOCK_NEEDLES : list string :=
  ["cloudflare"; "sucuri"; "antibot_cookie"; "antibot_page"].

Lemma block_status_iff (st : Z) :
  block_status st = true <-> In st [401; 403; 429; 503]%Z.
Proof.
  unfold block_status. rewrite existsb_exists. split.
  - intros [x [Hx E]]. apply Z.eqb_eq in E. now subst.
  - intros H. exists st. split; [exact H | apply Z.eqb_refl].
Qed.

Lemma diagnose_signals_tags (r : Response.t) :
  Forall (fun s => In s SIGNAL_TAGS) (diagnose_signals r).
Proof.
  unfold diagnose_signals. apply Forall_app; split.
  - destruct (block_status (Response.status_code r)) eqn:E; [|constructor].
    apply block_status_iff in E. apply Forall_cons; [|apply Forall_nil].
    simpl in E. destruct E as [<- | [<- | [<- | [<- | []]]]]; vm_compute; in_list.
  - repeat (apply Forall_app; split);
      (match goal with |- Forall _ (if ?b then _ else _) => destruct b end;
       [apply Forall_cons; [in_list | apply Forall_nil] | apply Forall_nil]).
Qed.

Lemma tag_needle (x s : string) :
  In x BLOCK_NEEDLES -> In s SIGNAL_TAGS ->
  contains x s = String.eqb x s /\ lower s = s.
Proof.
  unfold BLOCK_NEEDLES, SIGNAL_TAGS. simpl. intros Hx Hs.
  repeat (destruct Hx as [Hx | Hx]; [subst x|]); try contradiction;
    repeat (destruct Hs as [Hs | Hs]; [subst s|]); try contradiction;
    vm_compute; split; reflexivity.
Qed.

Lemma signal_present (x : string) (sigs : list string) :
  In x BLOCK_NEEDLES ->
  Forall (fun s => In s SIGNAL_TAGS) sigs ->
  (existsb (contains x) (map lower sigs) = true <-> In x sigs).
Proof.
  intros Hx Hs. induction Hs as [|s sigs Hs _ IH]; simpl.
  - split; [discriminate | tauto].
  - destruct (tag_needle x s Hx Hs) as [E1 E2]. rewrite E2, E1.
    rewrite orb_true_iff, String.eqb_eq, IH. split; intros [H | H]; auto.
Qed.

(** C3.  For every status and every list of tags [diagnose_response] can
    emit, joined by commas as it joins them, [_is_hard_block] holds exactly
    when the status is 401, 403, 429 or 503, or the tags hold a WAF tag
    ([cloudflare] or [sucuri]) together with an anti-bot tag
    ([antibot_cookie] or [antibot_page]); what [diagnose_response] returns is
    such a list.  Status 403 alone blocks, [cloudflare] alone does not, and
    [cloudflare] with [antibot_cookie] does. *)
Theorem hard_block_decision :
  (forall (status : option Z) (sigs : list string),
     Forall (fun s => In s SIGNAL_TAGS) sigs ->
     (_is_hard_block status (join "," sigs) = true <->
      (exists st, status = Some st /\ In st [401; 403; 429; 503]%Z) \/
      ((In "cloudflare" sigs \/ In "sucuri" sigs) /\
       (In "antibot_cookie" sigs \/ In "antibot_page" sigs))))
  /\ (forall url r,
        diagnose_response url r = (Response.status_code r, join "," (diagnose_signals r))
        /\ Forall (fun s => In s SIGNAL_TAGS) (diagnose_signals r))
  /\ _is_hard_block (Some 403%Z) "" = true
  /\ _is_hard_block (Some 200%Z) "cloudflare" = false
  /\ _is_hard_block (Some 200%Z) "cloudflare,antibot_cookie" = true.
Proof.
  split; [|split; [|repeat split; reflexivity]].
  - intros status sigs Hs. unfold _is_hard_block.
    assert (Hblock :
      (match status with Some st => block_status st | None => false end) = true <->
      exists st, status = Some st /\ In st [401; 403; 429; 503]%Z).
    { destruct status as [st|].
      - rewrite block_status_iff. split.
        + intros H. now exists st.
        + intros [st' [E H]]. now injection E as ->.
      - split; [discriminate | intros [st' [E _]]; discriminate]. }
    destruct (match status with Some st => block_status st | None => false end) eqn:Eb.
    + split; [intros _; left; now apply Hblock | reflexivity].
    + rewrite lower_join.
      change (lower ",") with (String "," "").
      rewrite !contains_join by reflexivity.
      rewrite andb_true_iff, !orb_true_iff.
      rewrite !signal_present by (try exact Hs; unfold BLOCK_NEEDLES; in_list).
      split.
      * intros H. now right.
      * intros [H | H]; [|exact H]. apply Hblock in H. discriminate.
  - intros url r. split; [reflexivity | apply diagnose_signals_tags].
Qed.

(** ** The forced-USD flag *)




(** ** Deduplication *)

(** Float equality is symmetric and transitive (it is not reflexive: a NaN
    differs from itself). *)
Definition sf_same (a b : spec_float) : Prop :=
  match a, b with
  | S754_zero _, S754_zero _ => True
  | S754_infinity s1, S754_infinity s2 => s1 = s2
  | S754_finite s1 m1 e1, S754_finite s2 m2 e2 => s1 = s2 /\ m1 = m2 /\ e1 = e2
  | _, _ => False
  end.

Lemma SFeqb_same (a b : spec_float) : SFeqb a b = true <-> sf_same a b.
Proof.
  destruct a as [s1|s1| |s1 m1 e1], b as [s2|s2| |s2 m2 e2];
    unfold SFeqb; simpl;
    try destruct s1; try destruct s2; simpl;
    try (split; [discriminate
                | intros H; first [destruct H | discriminate H
                                  | destruct H as [H _]; discriminate H]]; fail);
    try (split; [intros _; first [exact I | reflexivity] | reflexivity]; fail);
    try (split; intros H;
         [discriminate H
         | first [discriminate H | destruct H as [H _]; discriminate H]]; fail).
  all: change (PosDef.Pos.compare_cont Eq m1 m2) with (Pos.compare m1 m2);
       destruct (Z.compare_spec e1 e2) as [He|He|He];
       destruct (Pos.compare_spec m1 m2) as [Hm|Hm|Hm]; simpl;
       (split; [first [discriminate | intros _; subst; auto]
               | first [reflexivity | intros [_ [Em Ee]]; subst; lia]]).
Qed.


Lemma float_eqb_trans (x y z : float) :
  (x =? y)%float = true -> (y =? z)%float = true -> (x =? z)%float = true.
Proof.
  rewrite !FloatAxioms.eqb_spec, !SFeqb_same.
  destruct (Prim2SF x), (Prim2SF y), (Prim2SF z); simpl; intuition congruence.
Qed.


Lemma key_eqb_trans (a b c : dedup_key) :
  key_eqb a b = true -> key_eqb b c = true -> key_eqb a c = true.
Proof.
  destruct a as [[s1 n1] r1], b as [[s2 n2] r2], c as [[s3 n3] r3]. simpl.
  rewrite !andb_true_iff, !String.eqb_eq.
  intros [[-> ->] H1] [[-> ->] H2]. repeat split.
  now apply float_eqb_trans with r2.
Qed.

(** *** A dictionary filled by [setdefault] *)

Section SetDefault.

Context {K V : Type}.
Variable eqb : K -> K -> bool.
Variable key : V -> K.

(** [k in uniq] *)
Definition has_key (uniq : list (K * V)) (k : K) : bool :=
  existsb (fun kv => eqb (fst kv) k) uniq.

Definition fill (acc : list (K * V)) (items : list V) : list (K * V) :=
  fold_left (fun uniq d => setdefault eqb uniq (key d) d) items acc.

(** The entries [u] are stored under their own keys, each under a key that
    nothing stored before it equals. *)
Fixpoint fresh_from (seen u : list (K * V)) : Prop :=
  match u with
  | [] => True
  | (k, d) :: r =>
      k = key d /\ has_key seen k = false /\ fresh_from (seen ++ [(k, d)])%list r
  end.

Lemma fill_cons (acc : list (K * V)) (d : V) (r : list V) :
  fill acc (d :: r) = fill (setdefault eqb acc (key d) d) r.
Proof. reflexivity. Qed.

Lemma setdefault_has_key (acc : list (K * V)) (k : K) (d : V) :
  setdefault eqb acc k d = if has_key acc k then acc else (acc ++ [(k, d)])%list.
Proof. reflexivity. Qed.

Lemma fill_fresh (items : list V) :
  forall acc, exists u, fill acc items = (acc ++ u)%list /\ fresh_from acc u.
Proof.
  induction items as [|d r IH]; intros acc.
  - exists []. split; [now rewrite app_nil_r | exact I].
  - rewrite fill_cons, setdefault_has_key.
    destruct (has_key acc (key d)) eqn:E.
    + apply IH.
    + destruct (IH (acc ++ [(key d, d)])%list) as [u [H1 H2]].
      exists ((key d, d) :: u). split.
      * rewrite H1, <- app_assoc. reflexivity.
      * simpl. auto.
Qed.


Lemma fresh_not_seen (v : list (K * V)) :
  forall seen, fresh_from seen v ->
    forall d, In d (map snd v) -> has_key seen (key d) = false.
Proof.
  induction v as [|[k0 d0] v IH]; intros seen Hf d Hin; [destruct Hin|].
  destruct Hf as [-> [Hk Hf]]. destruct Hin as [<- | Hin]; [exact Hk|].
  specialize (IH _ Hf _ Hin). unfold has_key in IH. rewrite existsb_app in IH.
  now apply orb_false_iff in IH as [IH _].
Qed.

Hypothesis eqb_sym : forall a b, eqb a b = eqb b a.
Hypothesis eqb_trans : forall a b c, eqb a b = true -> eqb b c = true -> eqb a c = true.


Lemma has_key_snoc (a : list (K * V)) (k0 : K) (d : V) (k : K) :
  has_key (a ++ [(k0, d)])%list k = has_key a k || eqb k0 k.
Proof. unfold has_key. rewrite existsb_app. simpl. now rewrite orb_false_r. Qed.






(** What is stored under a key is the first item with that key. *)
Lemma fill_first_seen (items : list V) :
  forall acc u,
    fill acc items = (acc ++ u)%list ->
    forall d, In d (map snd u) ->
      exists pre post,
        items = (pre ++ d :: post)%list
        /\ Forall (fun e => eqb (key e) (key d) = false) pre.
Proof.
  induction items as [|e r IH]; intros acc u H d Hd.
  - change (fill acc []) with acc in H. rewrite <- (app_nil_r acc) in H at 1.
    apply app_inv_head in H. subst u. destruct Hd.
  - rewrite fill_cons, setdefault_has_key in H.
    destruct (has_key acc (key e)) eqn:E.
    + destruct (IH acc u H d Hd) as [pre [post [-> Hpre]]].
      exists (e :: pre), post. split; [reflexivity|].
      constructor; [|exact Hpre].
      destruct (fill_fresh (pre ++ d :: post) acc) as [u' [H1 H2]].
      rewrite H1 in H. apply app_inv_head in H. subst u'.
      pose proof (fresh_not_seen _ _ H2 _ Hd) as Hfresh.
      destruct (eqb (key e) (key d)) eqn:Eed; [|reflexivity].
      unfold has_key in E. apply existsb_exists in E as [kv [Hin Hkv]].
      assert (has_key acc (key d) = true).
      { apply existsb_exists. exists kv. split; [exact Hin|].
        now apply eqb_trans with (key e). }
      congruence.
    + destruct (fill_fresh r (acc ++ [(key e, e)])%list) as [u' [H1 H2]].
      assert (Hu : u = (key e, e) :: u').
      { rewrite H1, <- app_assoc in H. now apply app_inv_head in H. }
      subst u. destruct Hd as [<- | Hd].
      * exists [], r. split; [reflexivity | constructor].
      * destruct (IH _ _ H1 d Hd) as [pre [post [-> Hpre]]].
        exists (e :: pre), post. split; [reflexivity|].
        constructor; [|exact Hpre].
        pose proof (fresh_not_seen _ _ H2 _ Hd) as Hfresh.
        rewrite has_key_snoc in Hfresh.
        now apply orb_false_iff in Hfresh as [_ Hfresh].
Qed.

End SetDefault.


Lemma dedup_fill (items : list Deposit.t) :
  _dedup items = map snd (fill key_eqb key_of [] items).
Proof. reflexivity. Qed.






Lemma dedup_first_seen (l : list Deposit.t) (d : Deposit.t) :
  In d (_dedup l) ->
  exists pre post,
    l = (pre ++ d :: post)%list
    /\ Forall (fun e => key_eqb (key_of e) (key_of d) = false) pre.
Proof.
  intros Hd. rewrite dedup_fill in Hd.
  destruct (fill_fresh key_eqb key_of l []) as [u [E F]].
  rewrite E in Hd.
  exact (fill_first_seen key_eqb key_of key_eqb_trans l [] u E d Hd).
Qed.


(** ** The rate normalizer *)

Lemma span_spec (p : ascii -> bool) (s a b : string) :
  span p s = (a, b) ->
  s = a ++ b /\ forallb_str p a = true
  /\ match b with String c _ => p c = false | EmptyString => True end.
Proof.
  revert a b; induction s as [|c s IH]; simpl; intros a b H.
  - injection H as <- <-. auto.
  - destruct (p c) eqn:E.
    + destruct (span p s) as [a' b'] eqn:Es. injection H as <- <-.
      destruct (IH _ _ eq_refl) as [H1 [H2 H3]]. simpl. rewrite E, H2, <- H1. auto.
    + injection H as <- <-. simpl. auto.
Qed.

Lemma span_app (p : ascii -> bool) (a b : string) :
  forallb_str p a = true ->
  match b with String c _ => p c = false | EmptyString => True end ->
  span p (a ++ b) = (a, b).
Proof.
  intros Ha Hb. induction a as [|c a IH]; simpl.
  - destruct b as [|c b]; simpl; [reflexivity | now rewrite Hb].
  - simpl in Ha. apply andb_true_iff in Ha as [Hc Ha]. now rewrite Hc, IH.
Qed.










































(** ** The records of the extraction strategies *)

(** [0 < rate <= 0.35] and the currency USD. *)
Definition record_ok (d : Deposit.t) : Prop :=
  rate_ok (Deposit.rate d) = true /\ Deposit.currency d = "USD".

Lemma first_rate_ok (nums : list string) (r : float) :
  first_rate nums = Some r -> rate_ok r = true.
Proof.
  induction nums as [|raw rest IH]; simpl; [discriminate|].
  destruct (rate_ok (parse_percent raw)) eqn:E; [|exact IH].
  intros H. now injection H as <-.
Qed.

Lemma extract_rate_ok (text : string) (r : float) :
  _extract_rate_from_text text = Some r -> rate_ok r = true.
Proof.
  unfold _extract_rate_from_text.
  destruct (is_empty (_norm text)); [discriminate|].
  destruct (PCT_search (_norm text)) as [[num g0]|]; [|apply first_rate_ok].
  destruct (rate_ok (parse_percent g0)) eqn:E; [|apply first_rate_ok].
  intros H. now injection H as <-.
Qed.

Lemma gather_Forall {A B : Type} (P : B -> Prop) (f : A -> pyresult (list B))
    (l : list A) :
  (forall a xs, f a = Ok xs -> Forall P xs) ->
  forall ys, gather f l = Ok ys -> Forall P ys.
Proof.
  intros Hf. induction l as [|a r IH]; simpl; intros ys H.
  - injection H as <-. constructor.
  - destruct (f a) as [xs|e] eqn:Ea; [|discriminate H]. cbn [rbind] in H.
    destruct (gather f r) as [zs|e] eqn:Er; [|discriminate H]. cbn [rbind] in H.
    injection H as <-. apply Forall_app. split; [now apply Hf with a | now apply IH].
Qed.

(** A loop body returns no record, or one record whose rate the normalizer
    returned. *)
Ltac one_record H :=
  injection H as <-;
  first
    [ apply Forall_nil
    | apply Forall_cons; [|apply Forall_nil]; split; [|reflexivity];
      match goal with
      | E : _extract_rate_from_text _ = Some ?r |- _ => exact (extract_rate_ok _ _ E)
      end ].

Lemma table_row_ok (url bank : string) (forced_usd : bool)
    (cur_idx rate_idx name_idx : option nat) (tr : node) (xs : list Deposit.t) :
  table_row url bank forced_usd cur_idx rate_idx name_idx tr = Ok xs ->
  Forall record_ok xs.
Proof.
  unfold table_row. intros H.
  destruct (find_all ["td"; "th"] tr) as [|c cells]; [one_record H|].
  destruct (_is_noise _); [one_record H|].
  destruct (negb _); [one_record H|].
  destruct (only_non_usd _); [one_record H|].
  destruct (_extract_rate_from_text _) as [rate|] eqn:Er; [|one_record H].
  destruct (is_empty _ || _is_noise _); [one_record H|].
  destruct (domain_of url) as [site|e]; [|discriminate H]. cbn [rbind] in H.
  one_record H.
Qed.

Lemma extract_from_tables_ok (soup : node) (url bank : string) (forced_usd : bool)
    (xs : list Deposit.t) :
  _extract_from_tables soup url bank forced_usd = Ok xs -> Forall record_ok xs.
Proof.
  apply gather_Forall. intros table ys. unfold one_table.
  destruct (find_all ["tr"] table) as [|row0 [|row1 rows]];
    try (intros H; injection H as <-; constructor).
  apply gather_Forall. intros tr zs. apply table_row_ok.
Qed.

Lemma one_block_ok (url bank : string) (forced_usd : bool) (block : node)
    (xs : list Deposit.t) :
  one_block url bank forced_usd block = Ok xs -> Forall record_ok xs.
Proof.
  unfold one_block. intros H.
  destruct (is_empty _ || _is_noise _); [one_record H|].
  destruct (negb (existsb_str _ _)); [one_record H|].
  destruct (negb (contains "%" _ || _)); [one_record H|].
  destruct (negb (forced_usd || _)); [one_record H|].
  destruct (only_non_usd _); [one_record H|].
  destruct (_extract_rate_from_text _) as [rate|] eqn:Er; [|one_record H].
  destruct (is_empty _); [one_record H|].
  destruct (_is_noise _); [one_record H|].
  destruct (any_in _ _); [one_record H|].
  destruct (domain_of url) as [site|e]; [|discriminate H]. cbn [rbind] in H.
  one_record H.
Qed.

Lemma extract_from_blocks_ok (soup : node) (url bank : string) (forced_usd : bool)
    (xs : list Deposit.t) :
  _extract_from_blocks soup url bank forced_usd = Ok xs -> Forall record_ok xs.
Proof. apply gather_Forall. intros block ys. apply one_block_ok. Qed.


(** ** Whitespace normalization *)

(** A word: a non-empty string without a blank. *)
Definition word (w : string) : Prop :=
  is_empty w = false /\ existsb_str isspace w = false.

Definition not_space (c : ascii) : bool := negb (isspace c).

Lemma split_ws_space (c : ascii) (r : string) :
  isspace c = true -> split_ws (String c r) = split_ws r.
Proof. intros H. cbn [split_ws]. now rewrite H. Qed.

(** The first word of a text that starts with one, and the words after it. *)
Lemma split_ws_first (r : string) :
  forall c, isspace c = false ->
    split_ws (String c r)
    = String c (fst (span not_space r)) :: split_ws (snd (span not_space r)).
Proof.
  induction r as [|d r IH]; intros c Hc.
  - cbn [split_ws]. now rewrite Hc.
  - change (split_ws (String c (String d r)))
      with (if isspace c then split_ws (String d r)
            else if isspace d then String c "" :: split_ws (String d r)
                 else match split_ws (String d r) with
                      | w :: ws => String c w :: ws
                      | [] => [String c ""]
                      end).
    rewrite Hc. cbn [span].
    assert (Hn : not_space d = negb (isspace d)) by reflexivity.
    rewrite Hn. destruct (isspace d) eqn:Hd; cbn [negb].
    + reflexivity.
    + rewrite (IH d Hd).
      now destruct (span not_space r) as [w rest].
Qed.

Lemma existsb_forallb_str (p : ascii -> bool) (s : string) :
  existsb_str p s = negb (forallb_str (fun c => negb (p c)) s).
Proof.
  induction s as [|c r IH]; [reflexivity|].
  cbn [existsb_str forallb_str]. rewrite IH. now destruct (p c).
Qed.

Lemma length_append (a b : string) :
  String.length (a ++ b) = (String.length a + String.length b)%nat.
Proof. induction a as [|c a IH]; simpl; [reflexivity | now rewrite IH]. Qed.

(** Induction over the words of a text. *)
Lemma split_ws_ind (P : string -> list string -> Prop) :
  P "" [] ->
  (forall c r, isspace c = true -> P r (split_ws r) -> P (String c r) (split_ws r)) ->
  (forall w, word w -> P w [w]) ->
  (forall w sp r, word w -> isspace sp = true -> P r (split_ws r) ->
     P (w ++ String sp r) (w :: split_ws r)) ->
  forall s, P s (split_ws s).
Proof.
  intros Hnil Hsp Hw Hws s.
  remember (String.length s) as n eqn:Hn.
  revert s Hn. induction n as [n IH] using lt_wf_ind. intros s Hn.
  destruct s as [|c r]; [exact Hnil|].
  destruct (isspace c) eqn:Hc.
  - rewrite (split_ws_space c r Hc). apply Hsp; [exact Hc|].
    apply (IH (String.length r)); [subst; simpl; lia | reflexivity].
  - rewrite (split_ws_first r c Hc).
    destruct (span not_space r) as [w rest] eqn:Es. cbn [fst snd].
    apply span_spec in Es as [Er [Hall Hrest]].
    assert (Hword : word (String c w)).
    { split; [reflexivity|]. cbn [existsb_str]. rewrite Hc. cbn [orb].
      rewrite existsb_forallb_str. unfold not_space in Hall. now rewrite Hall. }
    destruct rest as [|sp rest'].
    + rewrite append_empty_r in Er. subst r. now apply Hw.
    + assert (Hsp' : isspace sp = true).
      { unfold not_space in Hrest. now destruct (isspace sp). }
      subst r. rewrite (split_ws_space sp rest' Hsp').
      change (String c (w ++ String sp rest')) with (String c w ++ String sp rest').
      apply Hws; [exact Hword | exact Hsp' |].
      apply (IH (String.length rest')); [|reflexivity].
      subst n. simpl. rewrite length_append. simpl. lia.
Qed.

Lemma split_ws_words (s : string) : Forall word (split_ws s).
Proof.
  apply (split_ws_ind (fun _ l => Forall word l)); auto.
Qed.

Lemma split_ws_word_sep (w : string) (sp : ascii) (t : string) :
  word w -> isspace sp = true -> split_ws (w ++ String sp t) = w :: split_ws t.
Proof.
  intros [Hne Hns] Hsp. destruct w as [|c w]; [discriminate|]. clear Hne.
  cbn [existsb_str] in Hns. apply orb_false_iff in Hns as [Hc Hw].
  change (String c w ++ String sp t) with (String c (w ++ String sp t)).
  rewrite (split_ws_first _ c Hc).
  rewrite existsb_forallb_str in Hw. apply negb_false_iff in Hw.
  rewrite (span_app not_space w (String sp t)); [|exact Hw | unfold not_space; now rewrite Hsp].
  cbn [fst snd]. now rewrite (split_ws_space sp t Hsp).
Qed.

Lemma split_ws_word (w : string) : word w -> split_ws w = [w].
Proof.
  intros [Hne Hns]. destruct w as [|c w]; [discriminate|]. clear Hne.
  cbn [existsb_str] in Hns. apply orb_false_iff in Hns as [Hc Hw].
  rewrite (split_ws_first _ c Hc).
  rewrite existsb_forallb_str in Hw. apply negb_false_iff in Hw.
  rewrite <- (append_empty_r w) at 1 2.
  rewrite (span_app not_space w ""); [|exact Hw | exact I].
  reflexivity.
Qed.

Lemma split_ws_join (ws : list string) :
  Forall word ws -> split_ws (join " " ws) = ws.
Proof.
  induction ws as [|w [|w2 ws] IH]; intros H.
  - reflexivity.
  - inversion H; subst. now apply split_ws_word.
  - inversion H; subst.
    change (join " " (w :: w2 :: ws)) with (w ++ String " " (join " " (w2 :: ws))).
    rewrite split_ws_word_sep; [|assumption | reflexivity].
    now rewrite IH.
Qed.

Lemma norm_idempotent (s : string) : _norm (_norm s) = _norm s.
Proof. unfold _norm. now rewrite split_ws_join by apply split_ws_words. Qed.



(** A needle without a blank lies inside one word. *)
Lemma contains_empty_text (x : string) : is_empty x = false -> contains x "" = false.
Proof. destruct x; [discriminate | reflexivity]. Qed.

Lemma space_not_in (sp : ascii) (x : string) :
  isspace sp = true -> existsb_str isspace x = false -> mem_char sp x = false.
Proof.
  intros Hsp. induction x as [|c x IH]; [reflexivity|].
  cbn [existsb_str mem_char]. intros H. apply orb_false_iff in H as [Hc Hx].
  rewrite (IH Hx), orb_false_r.
  destruct (Ascii.eqb sp c) eqn:E; [|reflexivity].
  apply Ascii.eqb_eq in E. congruence.
Qed.

Lemma contains_words (x s : string) :
  word x -> contains x s = existsb (contains x) (split_ws s).
Proof.
  intros [Hne Hns].
  apply (split_ws_ind (fun s l => contains x s = existsb (contains x) l)).
  - now apply contains_empty_text.
  - intros c r Hc IH.
    change (String c r) with ("" ++ String c r).
    rewrite contains_app_sep by (now apply space_not_in).
    now rewrite contains_empty_text.
  - intros w _. cbn [existsb]. now rewrite orb_false_r.
  - intros w sp r _ Hsp IH.
    rewrite contains_app_sep by (now apply space_not_in).
    cbn [existsb]. now rewrite IH.
Qed.

Lemma contains_norm (x s : string) : word x -> contains x (_norm s) = contains x s.
Proof.
  intros Hx. rewrite (contains_words x s Hx), (contains_words x (_norm s) Hx).
  unfold _norm. now rewrite split_ws_join by apply split_ws_words.
Qed.

Lemma isspace_lower (c : ascii) : isspace (lower_char c) = isspace c.
Proof. destruct c as [[] [] [] [] [] [] [] []]; reflexivity. Qed.

Lemma lower_word (w : string) : word w -> word (lower w).
Proof.
  intros [Hne Hns]. split; [now destruct w|].
  clear Hne. induction w as [|c w IH]; [reflexivity|].
  cbn [lower existsb_str] in *. apply orb_false_iff in Hns as [Hc Hw].
  now rewrite isspace_lower, Hc, IH.
Qed.

Lemma split_ws_lower (s : string) : split_ws (lower s) = map lower (split_ws s).
Proof.
  apply (split_ws_ind (fun s l => split_ws (lower s) = map lower l)).
  - reflexivity.
  - intros c r Hc IH. cbn [lower]. rewrite split_ws_space; [exact IH|].
    now rewrite isspace_lower.
  - intros w Hw. cbn [map]. now apply split_ws_word, lower_word.
  - intros w sp r Hw Hsp IH. rewrite lower_append. cbn [lower map].
    rewrite split_ws_word_sep; [now rewrite IH | now apply lower_word |].
    now rewrite isspace_lower.
Qed.

Lemma lower_norm (s : string) : lower (_norm s) = _norm (lower s).
Proof. unfold _norm. now rewrite lower_join, split_ws_lower. Qed.

(** The needles of [NOISE_RE]. *)
Definition NOISE_NEEDLES : list string :=
  ["{"; "}"; "@font-face"; "/*"; "*/"; "px"; "rem"; "vh"; "vw"; "var("; "normalize.css"].

Lemma noise_needle_word (x : string) : In x NOISE_NEEDLES -> word x.
Proof.
  intros H. repeat (destruct H as [<- | H]; [split; reflexivity|]). destruct H.
Qed.

Lemma existsb_ext_in {A : Type} (f g : A -> bool) (l : list A) :
  (forall a, In a l -> f a = g a) -> existsb f l = existsb g l.
Proof.
  induction l as [|a l IH]; intros H; [reflexivity|].
  cbn [existsb]. rewrite (H a (or_introl eq_refl)), IH; [reflexivity|].
  intros b Hb. apply H. now right.
Qed.

Lemma noise_search_norm (s : string) :
  NOISE_RE_search (_norm s) = any_in NOISE_NEEDLES (lower s).
Proof.
  unfold NOISE_RE_search, any_in. fold NOISE_NEEDLES. rewrite lower_norm.
  apply existsb_ext_in. intros x Hx. apply contains_norm, noise_needle_word, Hx.
Qed.

(** A name that is no noise is longer than one character once normalized
    and holds none of the needles, in any case of the letters. *)
Lemma not_noise_name (s : string) :
  _is_noise s = false ->
  (2 <= String.length (_norm s))%nat
  /\ forall x, In x NOISE_NEEDLES -> contains x (lower s) = false.
Proof.
  unfold _is_noise. destruct (String.length (_norm s) <? 2)%nat eqn:E; [discriminate|].
  apply Nat.ltb_ge in E. rewrite noise_search_norm. intros H. split; [exact E|].
  intros x Hx. unfold any_in in H.
  destruct (contains x (lower s)) eqn:Ec; [|reflexivity].
  assert (existsb (fun x => contains x (lower s)) NOISE_NEEDLES = true).
  { apply existsb_exists. now exists x. }
  congruence.
Qed.


(** ** Orders given by a comparison function *)

(** A comparison function that orders its type: a total preorder whose
    ties are a congruence. *)
Record comparison_order {A : Type} (cmp : A -> A -> comparison) : Prop := {
  cmp_opp : forall a b, cmp b a = CompOpp (cmp a b);
  cmp_lt_trans : forall a b c, cmp a b = Lt -> cmp b c = Lt -> cmp a c = Lt;
  cmp_eq_l : forall a b c, cmp a b = Eq -> cmp a c = cmp b c
}.

(** [a] does not sort after [b]. *)
Definition not_after {A : Type} (cmp : A -> A -> comparison) (a b : A) : Prop :=
  cmp a b <> Gt.

(** [x] and [y] tie. *)
Definition tied {A : Type} (cmp : A -> A -> comparison) (x y : A) : bool :=
  match cmp x y with Eq => true | _ => false end.

Section StableSort.

Variable A : Type.
Variable cmp : A -> A -> comparison.
Hypothesis cmp_order : comparison_order cmp.

Lemma cmp_eq_r (a b c : A) : cmp a b = Eq -> cmp c a = cmp c b.
Proof.
  intros H. rewrite (cmp_opp cmp cmp_order a c), (cmp_opp cmp cmp_order b c).
  now rewrite (cmp_eq_l cmp cmp_order a b c H).
Qed.

Lemma not_after_trans (a b c : A) :
  not_after cmp a b -> not_after cmp b c -> not_after cmp a c.
Proof.
  unfold not_after. intros Hab Hbc.
  destruct (cmp a b) eqn:Eab; [| |congruence].
  - now rewrite (cmp_eq_l cmp cmp_order a b c Eab).
  - destruct (cmp b c) eqn:Ebc; [| |congruence].
    + rewrite <- (cmp_eq_r b c a Ebc).
      rewrite (cmp_opp cmp cmp_order b a), (cmp_opp cmp cmp_order a b), Eab. simpl. discriminate.
    + rewrite (cmp_lt_trans cmp cmp_order a b c Eab Ebc). discriminate.
Qed.

Lemma insert_row_perm (x : A) (l : list A) : Permutation (insert_row cmp x l) (x :: l).
Proof.
  induction l as [|y r IH]; simpl; [reflexivity|].
  destruct (cmp x y); try reflexivity.
  rewrite IH. apply perm_swap.
Qed.

Lemma stable_sort_perm (l : list A) : Permutation (stable_sort cmp l) l.
Proof.
  induction l as [|x r IH]; simpl; [reflexivity|].
  rewrite insert_row_perm. now constructor.
Qed.

Lemma insert_row_sorted (x : A) (l : list A) :
  StronglySorted (not_after cmp) l -> StronglySorted (not_after cmp) (insert_row cmp x l).
Proof.
  induction l as [|y r IH]; intros Hs; simpl.
  - constructor; constructor.
  - inversion Hs as [|y' r' Hr Hy]; subst.
    assert (Hcons : not_after cmp x y ->
                    StronglySorted (not_after cmp) (x :: y :: r)).
    { intros Hxy. constructor; [exact Hs|]. constructor; [exact Hxy|].
      eapply Forall_impl; [|exact Hy]. intros z Hz.
      now apply (not_after_trans x y z). }
    destruct (cmp x y) eqn:E.
    + apply Hcons. unfold not_after. now rewrite E.
    + apply Hcons. unfold not_after. now rewrite E.
    + constructor; [now apply IH|].
      apply Forall_forall. intros z Hz.
      apply (Permutation_in _ (insert_row_perm x r)) in Hz.
      destruct Hz as [<- | Hz].
      * unfold not_after. rewrite (cmp_opp cmp cmp_order x y), E. simpl. discriminate.
      * rewrite Forall_forall in Hy. now apply Hy.
Qed.

Lemma stable_sort_sorted (l : list A) : StronglySorted (not_after cmp) (stable_sort cmp l).
Proof.
  induction l as [|x r IH]; simpl; [constructor | now apply insert_row_sorted].
Qed.

Lemma insert_row_tied (z x : A) (l : list A) :
  filter (tied cmp z) (insert_row cmp x l) = filter (tied cmp z) (x :: l).
Proof.
  induction l as [|y r IH]; [reflexivity|].
  cbn [insert_row]. destruct (cmp x y) eqn:E; try reflexivity.
  cbn [filter] in *. rewrite IH.
  destruct (tied cmp z x) eqn:Ex, (tied cmp z y) eqn:Ey; try reflexivity.
  unfold tied in Ex, Ey.
  destruct (cmp z x) eqn:Ezx; try discriminate.
  destruct (cmp z y) eqn:Ezy; try discriminate.
  rewrite <- (cmp_eq_l cmp cmp_order z x y Ezx), Ezy in E. discriminate.
Qed.

Lemma stable_sort_stable (z : A) (l : list A) :
  filter (tied cmp z) (stable_sort cmp l) = filter (tied cmp z) l.
Proof.
  induction l as [|x r IH]; [reflexivity|].
  cbn [stable_sort fold_right]. fold (stable_sort cmp r).
  rewrite insert_row_tied. cbn [filter]. now rewrite IH.
Qed.

End StableSort.

(** The lexicographic order of a key and a second comparison. *)
Lemma lex_order {A K : Type} (key : A -> K) (cmpK : K -> K -> comparison)
    (cmpA : A -> A -> comparison) :
  comparison_order cmpK -> comparison_order cmpA ->
  comparison_order
    (fun a b => match cmpK (key a) (key b) with Eq => cmpA a b | c => c end).
Proof.
  intros HK HA. split.
  - intros a b. rewrite (cmp_opp cmpK HK (key a) (key b)).
    destruct (cmpK (key a) (key b)); simpl; try reflexivity.
    apply (cmp_opp cmpA HA).
  - intros a b c.
    destruct (cmpK (key a) (key b)) eqn:Eab; try discriminate.
    + rewrite (cmp_eq_l cmpK HK _ _ (key c) Eab).
      destruct (cmpK (key b) (key c)) eqn:Ebc; try discriminate; [|reflexivity].
      apply (cmp_lt_trans cmpA HA).
    + intros _.
      destruct (cmpK (key b) (key c)) eqn:Ebc; try discriminate.
      * intros _. now rewrite <- (cmp_eq_r K cmpK HK _ _ (key a) Ebc), Eab.
      * intros _. now rewrite (cmp_lt_trans cmpK HK _ _ _ Eab Ebc).
  - intros a b c.
    destruct (cmpK (key a) (key b)) eqn:Eab; try discriminate.
    intros H. rewrite (cmp_eq_l cmpK HK _ _ (key c) Eab).
    destruct (cmpK (key b) (key c)); try reflexivity.
    now apply (cmp_eq_l cmpA HA).
Qed.

(** The order of strings. *)
Lemma ascii_compare_N (a b : ascii) :
  Ascii.compare a b = N.compare (N_of_ascii a) (N_of_ascii b).
Proof. reflexivity. Qed.

Lemma string_compare_lt_trans (a b c : string) :
  String.compare a b = Lt -> String.compare b c = Lt -> String.compare a c = Lt.
Proof.
  revert b c; induction a as [|x a IH]; intros [|y b] [|z c]; simpl; try congruence.
  rewrite !ascii_compare_N.
  destruct (N.compare_spec (N_of_ascii x) (N_of_ascii y)) as [E1|E1|E1]; try discriminate;
    destruct (N.compare_spec (N_of_ascii y) (N_of_ascii z)) as [E2|E2|E2]; try discriminate;
    intros H1 H2.
  - rewrite E1, E2, N.compare_refl. now apply (IH b c).
  - rewrite E1. now apply N.compare_lt_iff in E2 as ->.
  - rewrite <- E2. now apply N.compare_lt_iff in E1 as ->.
  - assert (E : (N_of_ascii x < N_of_ascii z)%N) by lia.
    now apply N.compare_lt_iff in E as ->.
Qed.

Lemma string_order : comparison_order String.compare.
Proof.
  split.
  - intros a b. apply String.compare_antisym.
  - apply string_compare_lt_trans.
  - intros a b c H. now apply String.compare_eq_iff in H as ->.
Qed.

(** The order of three integers, the first deciding first. *)
Definition lex3 (a b : Z * Z * Z) : comparison :=
  let '(a1, a2, a3) := a in
  let '(b1, b2, b3) := b in
  match (a1 ?= b1)%Z with
  | Eq => match (a2 ?= b2)%Z with Eq => (a3 ?= b3)%Z | c => c end
  | c => c
  end.

Lemma Z_order : comparison_order Z.compare.
Proof.
  split.
  - intros a b. apply Z.compare_antisym.
  - intros a b c. rewrite !Z.compare_lt_iff. lia.
  - intros a b c H. now apply Z.compare_eq in H as ->.
Qed.

Lemma lex3_order : comparison_order lex3.
Proof.
  assert (H23 : comparison_order
            (fun a b : Z * Z * Z =>
               match (snd (fst a) ?= snd (fst b))%Z with
               | Eq => (snd a ?= snd b)%Z
               | c => c
               end)).
  { apply (lex_order (fun a : Z * Z * Z => snd (fst a)) Z.compare
             (fun a b => (snd a ?= snd b)%Z)); [exact Z_order|].
    split.
    - intros a b. apply Z.compare_antisym.
    - intros a b c. rewrite !Z.compare_lt_iff. lia.
    - intros a b c H. now apply Z.compare_eq in H as ->. }
  pose proof (lex_order (fun a : Z * Z * Z => fst (fst a)) Z.compare _ Z_order H23) as H.
  split.
  - intros [[a1 a2] a3] [[b1 b2] b3]. apply (cmp_opp _ H (a1, a2, a3) (b1, b2, b3)).
  - intros [[a1 a2] a3] [[b1 b2] b3] [[c1 c2] c3].
    apply (cmp_lt_trans _ H (a1, a2, a3) (b1, b2, b3) (c1, c2, c3)).
  - intros [[a1 a2] a3] [[b1 b2] b3] [[c1 c2] c3].
    apply (cmp_eq_l _ H (a1, a2, a3) (b1, b2, b3) (c1, c2, c3)).
Qed.

(** The place of a float in a column sorted descending, missing values
    last: the sign class, then exponent and significand. *)
Definition desc_key (f : spec_float) : Z * Z * Z :=
  match f with
  | S754_nan => (3, 0, 0)
  | S754_zero _ => (0, 0, 0)
  | S754_infinity s => (if s then 2 else -2, 0, 0)
  | S754_finite s m e => if s then (1, e, Zpos m) else (-1, - e, Zneg m)
  end.

Lemma rate_compare_desc_key (a b : float) :
  rate_compare_desc a b = lex3 (desc_key (Prim2SF a)) (desc_key (Prim2SF b)).
Proof.
  unfold rate_compare_desc, isna.
  rewrite !FloatAxioms.eqb_spec, !FloatAxioms.ltb_spec.
  unfold SFeqb, SFltb.
  destruct (Prim2SF a) as [s1|s1| |s1 m1 e1], (Prim2SF b) as [s2|s2| |s2 m2 e2];
    try destruct s1; try destruct s2; cbn -[Z.compare Z.opp];
    rewrite ?Z.compare_refl, ?Pos.compare_cont_refl; cbn -[Z.compare Z.opp];
    try reflexivity.
  all: rewrite ?Z.compare_opp.
  all: change (PosDef.Pos.compare_cont Eq ?x ?y) with (Pos.compare x y).
  all: try (rewrite (Z.compare_antisym e1 e2), (Pos.compare_antisym m1 m2);
            destruct (e1 ?= e2)%Z; cbn; try reflexivity;
            destruct (m1 ?= m2)%positive; reflexivity).
  all: try (rewrite (Z.compare_antisym e2 e1), (Pos.compare_antisym m2 m1);
            destruct (e2 ?= e1)%Z; cbn; try reflexivity;
            destruct (m2 ?= m1)%positive; reflexivity).
Qed.

Lemma rate_order : comparison_order rate_compare_desc.
Proof.
  split.
  - intros a b. rewrite !rate_compare_desc_key. apply (cmp_opp _ lex3_order).
  - intros a b c. rewrite !rate_compare_desc_key. apply (cmp_lt_trans _ lex3_order).
  - intros a b c. rewrite !rate_compare_desc_key. apply (cmp_eq_l _ lex3_order).
Qed.

Lemma frame_order : comparison_order frame_compare.
Proof.
  unfold frame_compare.
  apply (lex_order Deposit.bank String.compare _ string_order).
  apply (lex_order Deposit.rate rate_compare_desc
           (fun a b => String.compare (Deposit.name a) (Deposit.name b)) rate_order).
  split.
  - intros a b. apply String.compare_antisym.
  - intros a b c. apply string_compare_lt_trans.
  - intros a b c H. now apply String.compare_eq_iff in H as ->.
Qed.


Lemma rate_compare_desc_not_gt (a b : float) :
  isna a = false -> isna b = false ->
  rate_compare_desc a b <> Gt ->
  (a <? b)%float = false
  /\ ((b <? a)%float = false -> rate_compare_desc a b = Eq).
Proof.
  intros Ha Hb H.
  pose proof (cmp_opp _ rate_order a b) as Hopp.
  unfold rate_compare_desc in *. rewrite Ha, Hb in *.
  destruct (b <? a)%float eqn:Eba, (a <? b)%float eqn:Eab;
    try discriminate; try congruence; split; congruence.
Qed.

Lemma frame_sorted_columns (a b : Deposit.t) :
  not_after frame_compare a b ->
  isna (Deposit.rate a) = false -> isna (Deposit.rate b) = false ->
  String.compare (Deposit.bank a) (Deposit.bank b) <> Gt
  /\ (Deposit.bank a = Deposit.bank b ->
      (Deposit.rate a <? Deposit.rate b)%float = false
      /\ ((Deposit.rate b <? Deposit.rate a)%float = false ->
          String.compare (Deposit.name a) (Deposit.name b) <> Gt)).
Proof.
  unfold not_after, frame_compare. intros H Ha Hb.
  destruct (String.compare (Deposit.bank a) (Deposit.bank b)) eqn:Eb;
    [|split; [discriminate|] | congruence].
  - split; [discriminate|]. intros _.
    assert (Hr : rate_compare_desc (Deposit.rate a) (Deposit.rate b) <> Gt).
    { intros E. now rewrite E in H. }
    destruct (rate_compare_desc_not_gt _ _ Ha Hb Hr) as [H1 H2].
    split; [exact H1|]. intros H3. now rewrite (H2 H3) in H.
  - intros E. rewrite E in Eb.
    assert (Hrefl : String.compare (Deposit.bank b) (Deposit.bank b) = Eq).
    { pose proof (String.compare_antisym (Deposit.bank b) (Deposit.bank b)) as Ha'.
      destruct (String.compare (Deposit.bank b) (Deposit.bank b)); simpl in Ha'; congruence. }
    congruence.
Qed.

(** X10.  The frame [to_dataframe] returns holds the rows given, each as
    often as it was given, sorted: no row sorts after a later one, and rows
    that tie keep the order they were given in.  For two rows whose rates
    are numbers, not to sort after means: the bank is not greater; for one
    bank, the rate is not smaller; and where neither rate is smaller, the
    name is not greater. *)
Theorem to_dataframe_sorted (rows : list Deposit.t) :
  Permutation (to_dataframe rows) rows
  /\ StronglySorted (not_after frame_compare) (to_dataframe rows)
  /\ (forall x, filter (tied frame_compare x) (to_dataframe rows)
                = filter (tied frame_compare x) rows)
  /\ (forall a b,
        not_after frame_compare a b ->
        isna (Deposit.rate a) = false -> isna (Deposit.rate b) = false ->
        String.compare (Deposit.bank a) (Deposit.bank b) <> Gt
        /\ (Deposit.bank a = Deposit.bank b ->
            (Deposit.rate a <? Deposit.rate b)%float = false
            /\ ((Deposit.rate b <? Deposit.rate a)%float = false ->
                String.compare (Deposit.name a) (Deposit.name b) <> Gt))).
Proof.
  split; [apply stable_sort_perm|].
  split; [apply stable_sort_sorted, frame_order|].
  split; [intros x; apply stable_sort_stable, frame_order|].
  apply frame_sorted_columns.
Qed.

(** ** The input file *)

Lemma rstrip_with_cons (p : ascii -> bool) (c : ascii) (r : string) :
  p c = false -> rstrip_with p (String c r) = String c (rstrip_with p r).
Proof. intros H. cbn [rstrip_with]. rewrite H. now destruct (rstrip_with p r). Qed.

Lemma rstrip_with_idempotent (p : ascii -> bool) (s : string) :
  rstrip_with p (rstrip_with p s) = rstrip_with p s.
Proof.
  induction s as [|c r IH]; [reflexivity|].
  cbn [rstrip_with]. destruct (rstrip_with p r) as [|d r'] eqn:E.
  - destruct (p c) eqn:Hc; [reflexivity|]. cbn [rstrip_with]. now rewrite Hc.
  - cbn [rstrip_with]. cbn [rstrip_with] in IH. now rewrite IH.
Qed.

Lemma strip_idempotent (s : string) : strip (strip s) = strip s.
Proof.
  unfold strip. destruct (lstrip_with isspace s) as [|c r] eqn:E; [reflexivity|].
  pose proof (lstrip_with_head _ _ _ _ E) as Hc.
  rewrite (rstrip_with_cons _ _ _ Hc). cbn [lstrip_with]. rewrite Hc.
  rewrite <- (rstrip_with_cons _ _ _ Hc). apply rstrip_with_idempotent.
Qed.

Lemma existsb_str_lstrip (p q : ascii -> bool) (s : string) :
  existsb_str p s = false -> existsb_str p (lstrip_with q s) = false.
Proof.
  induction s as [|c r IH]; [reflexivity|].
  cbn [lstrip_with]. destruct (q c); [|tauto].
  cbn [existsb_str]. intros H. apply orb_false_iff in H as [_ H]. now apply IH.
Qed.

Lemma existsb_str_rstrip (p q : ascii -> bool) (s : string) :
  existsb_str p s = false -> existsb_str p (rstrip_with q s) = false.
Proof.
  induction s as [|c r IH]; [reflexivity|].
  cbn [existsb_str]. intros H. apply orb_false_iff in H as [Hc Hr].
  specialize (IH Hr). cbn [rstrip_with].
  destruct (rstrip_with q r) as [|d r'].
  - destruct (q c); [reflexivity|]. cbn [existsb_str]. now rewrite Hc.
  - cbn [existsb_str] in *. now rewrite Hc.
Qed.

Lemma splitlines_from_lines (s : string) :
  forall after_cr,
    Forall (fun l => existsb_str is_linebreak l = false) (splitlines_from after_cr s).
Proof.
  induction s as [|c r IH]; intros after_cr; [constructor|].
  cbn [splitlines_from].
  destruct (after_cr && Ascii.eqb c "010"); [apply IH|].
  destruct (is_linebreak c) eqn:Hc.
  - constructor; [reflexivity | apply IH].
  - specialize (IH false). destruct (splitlines_from false r) as [|l ls].
    + constructor; [|constructor]. cbn [existsb_str]. now rewrite Hc.
    + inversion IH; subst. constructor; [|assumption].
      cbn [existsb_str]. now rewrite Hc.
Qed.

(** X7.  [load_urls] raises [FileNotFoundError] for a file that does not
    exist, and what reading the file raises.  The entries it returns are
    the stripped lines of the file that are neither blank nor comments, in
    the order of the file: each is non-empty, has no blank at either end
    and no line break inside, and does not start with [#]. *)
Theorem load_urls_entries (path : string) (f : input_file) :
  (file_exists f = false ->
   load_urls path f
   = Raise (PyExc "FileNotFoundError" ("Input file not found: " ++ path)))
  /\ (forall e, file_exists f = true -> read_text f = Raise e ->
        load_urls path f = Raise e)
  /\ (forall urls,
        load_urls path f = Ok urls ->
        file_exists f = true
        /\ (exists text, read_text f = Ok text
              /\ urls = flat_map url_of_line (splitlines text))
        /\ Forall (fun u => is_empty u = false
                            /\ strip u = u
                            /\ startswith u "#" = false
                            /\ existsb_str is_linebreak u = false) urls).
Proof.
  unfold load_urls. split; [|split].
  - now intros ->.
  - intros e -> ->. reflexivity.
  - intros urls. destruct (file_exists f); [|discriminate].
    cbn [negb]. destruct (read_text f) as [text|e]; [|discriminate].
    cbn [rbind]. intros H. injection H as <-.
    split; [reflexivity|]. split; [now exists text|].
    unfold splitlines. pose proof (splitlines_from_lines text false) as Hl.
    induction Hl as [|raw ls Hraw _ IH]; [constructor|].
    cbn [flat_map]. apply Forall_app. split; [|exact IH].
    unfold url_of_line.
    destruct (is_empty (strip raw) || startswith (strip raw) "#") eqn:E; [constructor|].
    apply orb_false_iff in E as [E1 E2].
    constructor; [|constructor]. repeat split; try assumption.
    + apply strip_idempotent.
    + unfold strip. now apply existsb_str_rstrip, existsb_str_lstrip.
Qed.

(** ** The currency classifier *)




(** ** Deduplication: one record per key *)






(** ** The bank name *)

Lemma take_length (s : string) : forall n, (String.length (take n s) <= N.to_nat n)%nat.
Proof.
  induction s as [|c r IH]; intros n; cbn [take]; [simpl; lia|].
  destruct (N.eqb_spec n 0) as [->|Hn]; [simpl; lia|].
  cbn [String.length]. specialize (IH (N.pred n)). lia.
Qed.

Lemma take_nonempty (s : string) (n : N) :
  is_empty s = false -> n <> 0%N -> is_empty (take n s) = false.
Proof.
  intros Hs Hn. destruct s as [|c r]; [discriminate|]. cbn [take].
  destruct (N.eqb_spec n 0); [contradiction | reflexivity].
Qed.

Lemma best_bank_name_spec (soup : node) :
  is_empty (_best_bank_name soup) = false
  /\ (String.length (_best_bank_name soup) <= 80)%nat.
Proof.
  unfold _best_bank_name.
  set (title := _norm (match find "title" soup with
                       | Some t => get_text t | None => "" end)).
  assert (Ht : is_empty (if is_empty title then "Unknown Bank" else take 80 title) = false
               /\ (String.length (if is_empty title then "Unknown Bank" else take 80 title)
                   <= 80)%nat).
  { destruct (is_empty title) eqn:E.
    - split; [reflexivity | simpl; lia].
    - split; [now apply take_nonempty | apply (take_length title 80)]. }
  destruct (find "h1" soup) as [h1|]; [|exact Ht].
  destruct (is_empty (_norm (get_text h1))) eqn:E; [exact Ht|].
  split; [now apply take_nonempty | apply (take_length _ 80)].
Qed.


(** ** The cleaned document *)

Lemma node_nested_ind (P : node -> Prop) :
  (forall s, P (Text s)) ->
  (forall nm attrs cs, Forall P cs -> P (Tag nm attrs cs)) ->
  forall n, P n.
Proof.
  intros HT HG. fix IH 1. intros [s|nm attrs cs]; [apply HT|].
  apply HG. induction cs as [|c cs IHcs]; constructor; [apply IH | exact IHcs].
Qed.

(** The children [remove_tags] keeps. *)
Fixpoint kept_children (names : list string) (cs : list node) : list node :=
  match cs with
  | [] => []
  | c :: r =>
      if is_tag_in names c then kept_children names r
      else remove_tags names c :: kept_children names r
  end.

Lemma remove_tags_tag (names : list string) (nm : string)
    (attrs : list (string * string)) (cs : list node) :
  remove_tags names (Tag nm attrs cs) = Tag nm attrs (kept_children names cs).
Proof.
  cbn [remove_tags]. f_equal. induction cs as [|c r IH]; [reflexivity|].
  cbn [kept_children]. now rewrite IH.
Qed.

Lemma is_tag_in_remove_tags (names names' : list string) (n : node) :
  is_tag_in names' (remove_tags names n) = is_tag_in names' n.
Proof. destruct n; [reflexivity|]. now rewrite remove_tags_tag. Qed.

Lemma remove_tags_descendants (names : list string) (n : node) :
  Forall (fun d => is_tag_in names d = false) (descendants (remove_tags names n)).
Proof.
  induction n as [s|nm attrs cs IH] using node_nested_ind; [constructor|].
  rewrite remove_tags_tag. cbn [descendants].
  induction IH as [|c r Hc _ IHr]; [constructor|].
  cbn [kept_children]. destruct (is_tag_in names c) eqn:E; [exact IHr|].
  cbn [flat_map]. constructor; [now rewrite is_tag_in_remove_tags|].
  apply Forall_app. split; [exact Hc | exact IHr].
Qed.

Lemma filter_none {A : Type} (p : A -> bool) (l : list A) :
  Forall (fun a => p a = false) l -> filter p l = [].
Proof.
  induction 1 as [|a l Ha _ IH]; [reflexivity|]. cbn [filter]. now rewrite Ha.
Qed.

Lemma filter_none_inv {A : Type} (p : A -> bool) (l : list A) :
  filter p l = [] -> Forall (fun a => p a = false) l.
Proof.
  induction l as [|a l IH]; [constructor|]. cbn [filter].
  destruct (p a) eqn:E; [discriminate|]. intros H. constructor; auto.
Qed.

Lemma remove_tags_none (names : list string) (n : node) :
  find_all names n = [] -> remove_tags names n = n.
Proof.
  unfold find_all.
  induction n as [s|nm attrs cs IH] using node_nested_ind; [reflexivity|].
  intros H. apply filter_none_inv in H. rewrite remove_tags_tag. f_equal.
  cbn [descendants] in H.
  induction IH as [|c r Hc _ IHr]; [reflexivity|].
  cbn [flat_map] in H. inversion H as [|? ? Hc0 Hrest]; subst.
  apply Forall_app in Hrest as [Hdc Hr].
  cbn [kept_children]. rewrite Hc0. f_equal.
  - apply Hc. now apply filter_none.
  - now apply IHr.
Qed.

(** ** The block decision on a response *)

(** The four tests of [diagnose_response] that [_is_hard_block] reads. *)
Definition waf_cloudflare (r : Response.t) : bool :=
  hdr_has (Response.headers r) "cf-ray"
  || contains "cloudflare" (lower (headers_get (Response.headers r) "server")).

Definition waf_sucuri (r : Response.t) : bool :=
  hdr_has (Response.headers r) "x-sucuri-id" || hdr_has (Response.headers r) "x-sucuri-cache".

Definition antibot_cookie (r : Response.t) : bool :=
  ANTI_COOKIES_RE_search (headers_get (Response.headers r) "Set-Cookie").

Definition antibot_page (r : Response.t) : bool :=
  ANTI_BODY_RE_search (take 20000 (Response.text r)).


Lemma existsb_if_tag (x y : string) (b : bool) (rest : list string) :
  existsb (String.eqb x) ((if b then [y] else []) ++ rest)
  = (b && String.eqb x y) || existsb (String.eqb x) rest.
Proof. destruct b; [|reflexivity]. cbn. now destruct (String.eqb x y). Qed.

Lemma status_tag_no_needle (x : string) (st : Z) :
  In x BLOCK_NEEDLES -> String.eqb x ("status=" ++ str_of_Z st) = false.
Proof.
  unfold BLOCK_NEEDLES. simpl. intros H.
  repeat (destruct H as [<- | H]; [reflexivity|]). destruct H.
Qed.

Lemma signals_needles (r : Response.t) :
  existsb (String.eqb "cloudflare") (diagnose_signals r) = waf_cloudflare r
  /\ existsb (String.eqb "sucuri") (diagnose_signals r) = waf_sucuri r
  /\ existsb (String.eqb "antibot_cookie") (diagnose_signals r) = antibot_cookie r
  /\ existsb (String.eqb "antibot_page") (diagnose_signals r) = antibot_page r
  /\ existsb (String.eqb "thin_html_or_js_shell") (diagnose_signals r)
     = (Response.status_code r =? 200)%Z && looks_js_empty (Response.text r).
Proof.
  unfold diagnose_signals, waf_cloudflare, waf_sucuri, antibot_cookie, antibot_page.
  repeat split; rewrite !existsb_if_tag;
    repeat match goal with
           | |- context [String.eqb ?a ("status=" ++ ?b)] =>
               replace (String.eqb a ("status=" ++ b)) with false
                 by (symmetry; apply (status_tag_no_needle a); in_list)
           end;
    change (String.eqb "thin_html_or_js_shell"
              ("status=" ++ str_of_Z (Response.status_code r))) with false;
    match goal with
    | |- context [existsb _ (if ?b then _ else _)] =>
        destruct b; cbn; rewrite ?andb_false_r, ?andb_true_r, ?orb_false_r;
        reflexivity
    end.
Qed.


(** ** The names of the records read from a page *)

(** A name the table and block strategies accept: not empty and no noise. *)
Definition name_ok (d : Deposit.t) : Prop :=
  is_empty (Deposit.name d) = false /\ _is_noise (Deposit.name d) = false.

Ltac one_name H :=
  injection H as <-;
  first
    [ apply Forall_nil
    | apply Forall_cons; [|apply Forall_nil]; split; assumption ].

Lemma table_row_names (url bank : string) (forced_usd : bool)
    (cur_idx rate_idx name_idx : option nat) (tr : node) (xs : list Deposit.t) :
  table_row url bank forced_usd cur_idx rate_idx name_idx tr = Ok xs ->
  Forall name_ok xs.
Proof.
  unfold table_row. intros H.
  destruct (find_all ["td"; "th"] tr) as [|c cells]; [one_name H|].
  destruct (_is_noise _); [one_name H|].
  destruct (negb _); [one_name H|].
  destruct (only_non_usd _); [one_name H|].
  destruct (_extract_rate_from_text _) as [rate|] eqn:Er; [|one_name H].
  match type of H with
  | context [is_empty ?n || _is_noise ?n] =>
      destruct (is_empty n) eqn:E1; [one_name H|];
      destruct (_is_noise n) eqn:E2; [one_name H|]
  end.
  cbn [orb] in H.
  destruct (domain_of url) as [site|e]; [|discriminate H]. cbn [rbind] in H.
  one_name H.
Qed.

Lemma one_block_names (url bank : string) (forced_usd : bool) (block : node)
    (xs : list Deposit.t) :
  one_block url bank forced_usd block = Ok xs ->
  Forall (fun d => name_ok d
                   /\ any_in ["cookie"; "privacy"; "policy"; "search"; "subscribe"]
                        (lower (Deposit.name d)) = false) xs.
Proof.
  unfold one_block. intros H.
  destruct (is_empty _ || _is_noise _); [injection H as <-; constructor|].
  destruct (negb (existsb_str _ _)); [injection H as <-; constructor|].
  destruct (negb (contains "%" _ || _)); [injection H as <-; constructor|].
  destruct (negb (forced_usd || _)); [injection H as <-; constructor|].
  destruct (only_non_usd _); [injection H as <-; constructor|].
  destruct (_extract_rate_from_text _) as [rate|] eqn:Er; [|injection H as <-; constructor].
  destruct (is_empty _) eqn:E1; [injection H as <-; constructor|].
  destruct (_is_noise _) eqn:E2; [injection H as <-; constructor|].
  destruct (any_in _ _) eqn:E3; [injection H as <-; constructor|].
  destruct (domain_of url) as [site|e]; [|discriminate H]. cbn [rbind] in H.
  injection H as <-. constructor; [|constructor]. repeat split; assumption.
Qed.

Lemma is_noise_norm (s : string) : _is_noise (_norm s) = _is_noise s.
Proof. unfold _is_noise. now rewrite norm_idempotent. Qed.

(** X6.  Noise is never recorded.  A text is noise when, normalized, it is
    shorter than two characters or holds a needle of [NOISE_RE] ([px],
    [rem], [vh], [vw], a brace, ...) in any case of the letters, as [rem]
    in Premium.  A table row or a block whose text is noise yields no
    record, and no record of the table and block strategies has a name that
    is empty or noise; the block strategy also records no name that holds
    cookie, privacy, policy, search or subscribe. *)
Theorem page_record_names (soup : node) (url bank : string) (forced_usd : bool) :
  let clean (d : Deposit.t) :=
    is_empty (Deposit.name d) = false
    /\ _is_noise (Deposit.name d) = false
    /\ (2 <= String.length (_norm (Deposit.name d)))%nat
    /\ forall x, In x NOISE_NEEDLES -> contains x (lower (Deposit.name d)) = false in
  (forall xs, _extract_from_tables soup url bank forced_usd = Ok xs -> Forall clean xs)
  /\ (forall xs, _extract_from_blocks soup url bank forced_usd = Ok xs ->
        Forall (fun d => clean d
                         /\ any_in ["cookie"; "privacy"; "policy"; "search"; "subscribe"]
                              (lower (Deposit.name d)) = false) xs)
  /\ (forall s x, In x NOISE_NEEDLES -> contains x (lower s) = true -> _is_noise s = true)
  /\ (forall cur_idx rate_idx name_idx tr,
        _is_noise (get_text tr) = true ->
        table_row url bank forced_usd cur_idx rate_idx name_idx tr = Ok [])
  /\ (forall block,
        _is_noise (get_text block) = true ->
        one_block url bank forced_usd block = Ok []).
Proof.
  intros clean.
  assert (Hclean : forall d, name_ok d -> clean d).
  { intros d [H1 H2]. destruct (not_noise_name _ H2) as [H3 H4].
    repeat split; assumption. }
  split; [|split; [|split; [|split]]].
  - intros xs H. eapply Forall_impl; [exact Hclean|]. revert xs H.
    apply gather_Forall. intros table ys. unfold one_table.
    destruct (find_all ["tr"] table) as [|row0 [|row1 rows]];
      try (intros H; injection H as <-; constructor).
    apply gather_Forall. intros tr zs. apply table_row_names.
  - intros xs H.
    assert (Hx : Forall (fun d => name_ok d
                   /\ any_in ["cookie"; "privacy"; "policy"; "search"; "subscribe"]
                        (lower (Deposit.name d)) = false) xs).
    { revert xs H. apply gather_Forall. intros block ys. apply one_block_names. }
    eapply Forall_impl; [|exact Hx]. intros d [H1 H2]. split; [now apply Hclean | exact H2].
  - intros s x Hx Hs. destruct (_is_noise s) eqn:E; [reflexivity|].
    destruct (not_noise_name _ E) as [_ H]. rewrite (H x Hx) in Hs. discriminate.
  - intros cur_idx rate_idx name_idx tr H. unfold table_row.
    destruct (find_all ["td"; "th"] tr); [reflexivity|].
    now rewrite is_noise_norm, H.
  - intros block H. unfold one_block. now rewrite is_noise_norm, H, orb_true_r.
Qed.

(** ** Text without a digit *)










(** ** The shape of the records read from a page *)

(** A record the table and block strategies make for the page [url] and the
    bank [bank]. *)
Definition page_record (url bank : string) (d : Deposit.t) : Prop :=
  Deposit.bank d = bank
  /\ Deposit.url d = url
  /\ Deposit.currency d = "USD"
  /\ domain_of url = Ok (Deposit.site d)
  /\ is_empty (Deposit.name d) = false.

Lemma table_row_shape (url bank : string) (forced_usd : bool)
    (cur_idx rate_idx name_idx : option nat) (tr : node) (xs : list Deposit.t) :
  table_row url bank forced_usd cur_idx rate_idx name_idx tr = Ok xs ->
  Forall (page_record url bank) xs.
Proof.
  unfold table_row. intros H.
  destruct (find_all ["td"; "th"] tr) as [|c cells]; [injection H as <-; constructor|].
  destruct (_is_noise _); [injection H as <-; constructor|].
  destruct (negb _); [injection H as <-; constructor|].
  destruct (only_non_usd _); [injection H as <-; constructor|].
  destruct (_extract_rate_from_text _) as [rate|] eqn:Er; [|injection H as <-; constructor].
  match type of H with
  | context [is_empty ?n || _is_noise ?n] =>
      destruct (is_empty n) eqn:E1; [injection H as <-; constructor|];
      destruct (_is_noise n) eqn:E2; [injection H as <-; constructor|]
  end.
  cbn [orb] in H.
  destruct (domain_of url) as [site|e] eqn:Ed; [|discriminate H]. cbn [rbind] in H.
  injection H as <-. constructor; [|constructor]. repeat split; assumption.
Qed.

Lemma extract_from_tables_shape (soup : node) (url bank : string) (forced_usd : bool)
    (xs : list Deposit.t) :
  _extract_from_tables soup url bank forced_usd = Ok xs ->
  Forall (page_record url bank) xs.
Proof.
  apply gather_Forall. intros table ys. unfold one_table.
  destruct (find_all ["tr"] table) as [|row0 [|row1 rows]];
    try (intros H; injection H as <-; constructor).
  apply gather_Forall. intros tr zs. apply table_row_shape.
Qed.

Lemma one_block_shape (url bank : string) (forced_usd : bool) (block : node)
    (xs : list Deposit.t) :
  one_block url bank forced_usd block = Ok xs -> Forall (page_record url bank) xs.
Proof.
  unfold one_block. intros H.
  destruct (is_empty _ || _is_noise _); [injection H as <-; constructor|].
  destruct (negb (existsb_str _ _)); [injection H as <-; constructor|].
  destruct (negb (contains "%" _ || _)); [injection H as <-; constructor|].
  destruct (negb (forced_usd || _)); [injection H as <-; constructor|].
  destruct (only_non_usd _); [injection H as <-; constructor|].
  destruct (_extract_rate_from_text _) as [rate|] eqn:Er; [|injection H as <-; constructor].
  destruct (is_empty _) eqn:E1; [injection H as <-; constructor|].
  destruct (_is_noise _) eqn:E2; [injection H as <-; constructor|].
  destruct (any_in _ _) eqn:E3; [injection H as <-; constructor|].
  destruct (domain_of url) as [site|e] eqn:Ed; [|discriminate H]. cbn [rbind] in H.
  injection H as <-. constructor; [|constructor]. repeat split; assumption.
Qed.

Lemma extract_from_blocks_shape (soup : node) (url bank : string) (forced_usd : bool)
    (xs : list Deposit.t) :
  _extract_from_blocks soup url bank forced_usd = Ok xs ->
  Forall (page_record url bank) xs.
Proof. apply gather_Forall. intros block ys. apply one_block_shape. Qed.

(** ** Text without a digit, in the rate normalizer *)





(** ** Forcing USD only adds records *)

(** Whatever is returned holds the records of an empty list. *)
Ltac no_more := eexists; split; [reflexivity | intros ? []].

Lemma table_row_forced (url bank site : string)
    (cur_idx rate_idx name_idx : option nat) (tr : node) (xs : list Deposit.t) :
  domain_of url = Ok site ->
  table_row url bank false cur_idx rate_idx name_idx tr = Ok xs ->
  exists ys,
    table_row url bank true cur_idx rate_idx name_idx tr = Ok ys /\ incl xs ys.
Proof.
  intros Hd. unfold table_row. rewrite Hd. cbn [rbind orb].
  destruct (find_all ["td"; "th"] tr) as [|c cells];
    [intros H; injection H as <-; now exists []|].
  destruct (_is_noise _); [intros H; injection H as <-; now exists []|].
  cbn [negb].
  match goal with
  | |- (if negb ?b then _ else _) = _ -> _ => destruct b eqn:Eu; cbn [negb]
  end.
  - intros H. exists xs. split; [exact H | apply incl_refl].
  - intros H. injection H as <-.
    destruct (only_non_usd _); [no_more|].
    destruct (_extract_rate_from_text _); [|no_more].
    destruct (is_empty _ || _is_noise _); no_more.
Qed.

Lemma one_block_forced (url bank site : string) (block : node) (xs : list Deposit.t) :
  domain_of url = Ok site ->
  one_block url bank false block = Ok xs ->
  exists ys, one_block url bank true block = Ok ys /\ incl xs ys.
Proof.
  intros Hd. unfold one_block. rewrite Hd. cbn [rbind orb].
  destruct (is_empty _ || _is_noise _); [intros H; injection H as <-; now exists []|].
  destruct (negb (existsb_str _ _)); [intros H; injection H as <-; now exists []|].
  destruct (negb (contains "%" _ || _)); [intros H; injection H as <-; now exists []|].
  cbn [negb].
  match goal with
  | |- (if negb ?b then _ else _) = _ -> _ => destruct b eqn:Eu; cbn [negb]
  end.
  - intros H. exists xs. split; [exact H | apply incl_refl].
  - intros H. injection H as <-.
    destruct (only_non_usd _); [no_more|].
    destruct (_extract_rate_from_text _); [|no_more].
    destruct (is_empty _); [no_more|].
    destruct (_is_noise _); [no_more|].
    destruct (any_in _ _); no_more.
Qed.

Lemma gather_incl {A B : Type} (f g : A -> pyresult (list B)) (l : list A) :
  (forall a xs, f a = Ok xs -> exists ys, g a = Ok ys /\ incl xs ys) ->
  forall xs, gather f l = Ok xs -> exists ys, gather g l = Ok ys /\ incl xs ys.
Proof.
  intros Hfg. induction l as [|a r IH]; intros xs H.
  - injection H as <-. exists []. split; [reflexivity | apply incl_refl].
  - cbn [gather] in *.
    destruct (f a) as [x1|e] eqn:Ea; [|discriminate H]. cbn [rbind] in H.
    destruct (gather f r) as [x2|e] eqn:Er; [|discriminate H]. cbn [rbind] in H.
    injection H as <-.
    destruct (Hfg a x1 Ea) as [y1 [-> I1]]. destruct (IH x2 eq_refl) as [y2 [-> I2]].
    exists (y1 ++ y2)%list. split; [reflexivity|]. now apply incl_app_app.
Qed.

(** X22.  Forcing USD never loses a record: on a page whose URL has a
    domain, every record the table strategy and the block strategy return
    without the forcing is among those they return with it. *)
Theorem forced_usd_only_adds (soup : node) (url bank site : string) :
  domain_of url = Ok site ->
  (forall xs,
     _extract_from_tables soup url bank false = Ok xs ->
     exists ys, _extract_from_tables soup url bank true = Ok ys /\ incl xs ys)
  /\ (forall xs,
        _extract_from_blocks soup url bank false = Ok xs ->
        exists ys, _extract_from_blocks soup url bank true = Ok ys /\ incl xs ys).
Proof.
  intros Hd. split.
  - apply gather_incl. intros table xs. unfold one_table.
    destruct (find_all ["tr"] table) as [|row0 [|row1 rows]];
      try (intros H; injection H as <-; exists []; split;
           [reflexivity | apply incl_refl]).
    apply gather_incl. intros tr zs. now apply table_row_forced with site.
  - apply gather_incl. intros block xs. now apply one_block_forced with site.
Qed.

(** ** export.py: where a report is saved *)

Section ReportFiles.

(** The file system: whether [Path(p).exists()], what writing a report to
    the path [p] does ([wb.save(p)], [df.to_csv(p, ...)]), and
    [int(time())]. *)
Variable FS : Type.
Variable path_exists : string -> FS -> bool.
Variable save : string -> FS -> pyresult unit * FS.
Variable time_now : FS -> Z.

(** [str(Path(filename))], and
    [str(p.parent / f"{p.stem}_{tag}{p.suffix}")] for [p = Path(filename)]. *)
Variable path_str : string -> string.
Variable numbered : string -> string -> string.

(** The loop [for i in range(1, 101)] of [_next_free_path], from [i] on,
    with [n] candidates left. *)
Fixpoint first_free (filename : string) (fs : FS) (i : Z) (n : nat) : option string :=
  match n with
  | O => None
  | S n' =>
      let cand := numbered filename (str_of_Z i) in
      if negb (path_exists cand fs) then Some cand
      else first_free filename fs (i + 1) n'
  end.

Definition _next_free_path (filename : string) (fs : FS) : string :=
  if negb (path_exists (path_str filename) fs) then path_str filename
  else
    match first_free filename fs 1 100 with
    | Some cand => cand
    | None => numbered filename (str_of_Z (time_now fs))
    end.

Definition is_permission_error (e : exn) : bool :=
  match e with
  | PyExc cls _ => String.eqb cls "PermissionError"
  | RetryError _ => false
  end.

(** The [try] statement of [_safe_save_workbook] and of [write_csv]: the
    write to [filename], and after a [PermissionError] the write to the
    next free path. *)
Definition save_or_rename (filename : string) (fs : FS) : pyresult string * FS :=
  match save filename fs with
  | (Ok _, fs1) => (Ok filename, fs1)
  | (Raise e, fs1) =>
      if is_permission_error e then
        let alt := _next_free_path filename fs1 in
        match save alt fs1 with
        | (Ok _, fs2) => (Ok alt, fs2)
        | (Raise e2, fs2) => (Raise e2, fs2)
        end
      else (Raise e, fs1)
  end.

Definition _safe_save_workbook := save_or_rename.
Definition write_csv := save_or_rename.

Lemma first_free_spec (filename : string) (fs : FS) (n : nat) :
  forall i,
    match first_free filename fs i n with
    | Some cand =>
        exists k, (i <= k < i + Z.of_nat n)%Z
                  /\ cand = numbered filename (str_of_Z k)
                  /\ path_exists cand fs = false
                  /\ forall j, (i <= j < k)%Z ->
                       path_exists (numbered filename (str_of_Z j)) fs = true
    | None =>
        forall j, (i <= j < i + Z.of_nat n)%Z ->
          path_exists (numbered filename (str_of_Z j)) fs = true
    end.
Proof.
  induction n as [|n IH]; intros i; cbn [first_free].
  - intros j Hj. lia.
  - destruct (path_exists (numbered filename (str_of_Z i)) fs) eqn:E; cbn [negb].
    + specialize (IH (i + 1)%Z).
      destruct (first_free filename fs (i + 1) n) as [cand|].
      * destruct IH as [k [Hk [Hc [Hf Hj]]]]. exists k.
        split; [lia|]. split; [exact Hc|]. split; [exact Hf|].
        intros j Hjk. destruct (Z.eq_dec j i) as [->|Hne]; [exact E | apply Hj; lia].
      * intros j Hj. destruct (Z.eq_dec j i) as [->|Hne]; [exact E | apply IH; lia].
    + exists i. split; [lia|]. split; [reflexivity|]. split; [exact E|].
      intros j Hj. lia.
Qed.

(** X28.  [_next_free_path] returns the path itself when nothing exists at
    it, else the candidate of the lowest number from 1 to 100 at which
    nothing exists; only when the path and all hundred candidates exist
    does it return the candidate named after the clock, which may exist.  A
    report is written to the file name given, and after a
    [PermissionError], and after no other exception, to the next free path;
    the path returned is the one written to. *)
Theorem next_free_path_first_free (filename : string) (fs : FS) :
  (path_exists (path_str filename) fs = false ->
   _next_free_path filename fs = path_str filename)
  /\ (path_exists (path_str filename) fs = true ->
      (exists k, (1 <= k <= 100)%Z
                 /\ _next_free_path filename fs = numbered filename (str_of_Z k)
                 /\ path_exists (_next_free_path filename fs) fs = false
                 /\ forall j, (1 <= j < k)%Z ->
                      path_exists (numbered filename (str_of_Z j)) fs = true)
      \/ ((forall j, (1 <= j <= 100)%Z ->
             path_exists (numbered filename (str_of_Z j)) fs = true)
          /\ _next_free_path filename fs
             = numbered filename (str_of_Z (time_now fs))))
  /\ (forall p fs',
        write_csv filename fs = (Ok p, fs') ->
        (p = filename /\ save filename fs = (Ok tt, fs'))
        \/ exists e fs1,
             save filename fs = (Raise e, fs1)
             /\ is_permission_error e = true
             /\ p = _next_free_path filename fs1
             /\ save p fs1 = (Ok tt, fs'))
  /\ (forall e fs1,
        save filename fs = (Raise e, fs1) -> is_permission_error e = false ->
        write_csv filename fs = (Raise e, fs1)).
Proof.
  split; [|split; [|split]].
  - intros H. unfold _next_free_path. now rewrite H.
  - intros H. unfold _next_free_path. rewrite H. cbn [negb].
    pose proof (first_free_spec filename fs 100 1) as Hs.
    destruct (first_free filename fs 1 100) as [cand|].
    + left. destruct Hs as [k [Hk [Hc [Hf Hj]]]]. exists k.
      split; [lia|]. split; [exact Hc|]. split; [exact Hf | exact Hj].
    + right. split; [|reflexivity]. intros j Hj. apply Hs. lia.
  - intros p fs' H. unfold write_csv, save_or_rename in H.
    destruct (save filename fs) as [[[]|e] fs1] eqn:E1.
    + left. injection H as <- <-. now split.
    + right. destruct (is_permission_error e) eqn:Ep; [|discriminate H].
      destruct (save (_next_free_path filename fs1) fs1) as [[[]|e2] fs2] eqn:E2;
        [|discriminate H].
      injection H as <- <-. exists e, fs1. repeat split; assumption.
  - intros e fs1 H Hp. unfold write_csv, save_or_rename. now rewrite H, Hp.
Qed.

End ReportFiles.
(** ** The pipeline over its collaborators *)

Section Pipeline.

(** The state of the network, and [session.get(url, timeout=25,
    allow_redirects=True)]: a response or a raised exception, and the next
    state. *)
Variable W : Type.
Variable session_get : string -> W -> pyresult Response.t * W.

(** [BeautifulSoup(html, "lxml")], [urljoin(base, href)], [r.json()], the
    message of the [HTTPError] that [raise_for_status] builds, and [str(v)]
    for a float, a list or a dictionary. *)
Variable BeautifulSoup : string -> node.
Variable urljoin : string -> string -> pyresult string.
Variable response_json : Response.t -> pyresult json.
Variable http_error_msg : Response.t -> string.
Variable py_repr : json -> string.

(** The iteration of the set [found] of [_discover_json_urls] (the matches
    of [JSON_URL_RE] in the page source and the joined [href]s that name an
    API); the order in which a set is iterated is not specified. *)
Variable found_json_urls : string -> string -> pyresult (list string).

(** Computations that read the network. *)
Definition M (A : Type) : Type := W -> pyresult A * W.

Definition ret {A : Type} (a : A) : M A := fun w => (Ok a, w).

Definition raise {A : Type} (e : exn) : M A := fun w => (Raise e, w).

Definition lift {A : Type} (r : pyresult A) : M A := fun w => (r, w).

Definition mbind {A B : Type} (m : M A) (k : A -> M B) : M B :=
  fun w =>
    match m w with
    | (Ok a, w') => k a w'
    | (Raise e, w') => (Raise e, w')
    end.

Notation "x <~ m ;; k" := (mbind m (fun x => k))
  (at level 61, m at next level, right associativity).

(** [try: m except Exception: handler] *)
Definition try_except {A : Type} (m : M A) (handler : exn -> M A) : M A :=
  fun w =>
    match m w with
    | (Ok a, w') => (Ok a, w')
    | (Raise e, w') => handler e w'
    end.

(** *** http.fetch *)

(** One attempt: [session.get] and [r.raise_for_status()]. *)
Definition fetch_attempt (url : string) : M Response.t :=
  r <~ session_get url ;;
  if ((400 <=? Response.status_code r) && (Response.status_code r <? 600))%Z
  then raise (PyExc "HTTPError" (http_error_msg r))
  else ret r.

(** [@retry(stop=stop_after_attempt(n), ...)]: an attempt that raises is
    repeated; when the last one raises, [RetryError] wraps its exception.
    The waits between attempts are not modelled. *)
Fixpoint retrying {A : Type} (attempts : nat) (m : M A) : M A :=
  match attempts with
  | O => m
  | S O => try_except m (fun e => raise (RetryError e))
  | S n => try_except m (fun _ => retrying n m)
  end.

Definition fetch (url : string) : M Response.t := retrying 3 (fetch_attempt url).

(** *** parsers.py over the collaborators *)

Definition _clean_soup (html : string) : node :=
  remove_tags ["script"; "style"; "noscript"] (BeautifulSoup html).

(** The loop of [_collect_links] over the anchors that carry an [href]. *)
Fixpoint collect_links_loop (base_url : string) (limit : nat) (anchors : list node)
    (seen out : list string) : pyresult (list string) :=
  match anchors with
  | [] => Ok out
  | a :: rest =>
      let continue := collect_links_loop base_url limit rest in
      let href :=
        strip (match attr_get a "href" with Some h => h | None => EmptyString end) in
      if is_empty href then continue seen out
      else
        u <- urljoin base_url href ;;
        if negb (startswith u "http://" || startswith u "https://") then continue seen out
        else
          same <- _same_domain base_url u ;;
          if negb same then continue seen out
          else if mem_str u seen then continue seen out
          else
            let seen := u :: seen in
            let txt := lower (_norm (get_text a)) in
            let lu := lower u in
            let out :=
              if any_in DEPOSIT_LINK_HINTS lu || any_in DEPOSIT_LINK_HINTS txt
              then (out ++ [u])%list
              else if contains "usd" lu || contains "currency=usd" lu
                      || contains "valyuta=usd" lu || contains "$" lu
              then (out ++ [u])%list
              else out in
            if (limit <=? List.length out)%nat then Ok out
            else continue seen out
  end.

Definition has_href (n : node) : bool :=
  match attr_get n "href" with
  | Some _ => true
  | None => false
  end.

Definition _collect_links (base_url : string) (soup : node) (limit : nat)
  : pyresult (list string) :=
  collect_links_loop base_url limit (filter has_href (find_all ["a"] soup)) [] [].

Definition py_str (v : json) : string :=
  match v with
  | JStr s => s
  | JInt z => str_of_Z z
  | JBool true => "True"
  | JBool false => "False"
  | JNull => "None"
  | _ => py_repr v
  end.

(** The first key of [keys] that the dictionary holds with a value that
    satisfies [p], and [f] of that value. *)
Fixpoint first_field {A : Type} (d : list (string * json)) (p : json -> bool)
    (f : json -> A) (keys : list string) : option A :=
  match keys with
  | [] => None
  | k :: rest =>
      match dict_get d k with
      | Some v => if p v then Some (f v) else first_field d p f rest
      | None => first_field d p f rest
      end
  end.

Definition is_str (v : json) : bool :=
  match v with
  | JStr _ => true
  | _ => false
  end.

(** What [_walk_json] does with one dictionary before it descends: the
    records appended to [out], and the exception raised, if any. *)
Definition walk_dict (d : list (string * json)) (url bank : string)
    (out : list Deposit.t) : list Deposit.t * option exn :=
  let t := join " " (map (fun kv => _norm (py_str (snd kv)))
                       (filter (fun kv => is_scalar (snd kv)) d)) in
  let lt := lower t in
  let currency :=
    match first_field d is_str (fun v => upper (strip (py_str v)))
            ["currency"; "valyuta"; "валюта"] with
    | Some c => c
    | None => EmptyString
    end in
  if String.eqb currency "USD" || (_is_usd_context t && contains "usd" lt) then
    let rate_raw :=
      match first_field d is_scalar py_str ["percent"; "rate"; "stavka"; "foiz"] with
      | Some s => s
      | None => EmptyString
      end in
    match _extract_rate_from_text (if is_empty rate_raw then t else rate_raw) with
    | Some rate =>
        let name :=
          match first_field d is_str (fun v => _norm (py_str v))
                  ["name"; "title"; "deposit"; "product"; "caption"] with
          | Some s => s
          | None => EmptyString
          end in
        let name := if is_empty name then bank else name in
        match domain_of url with
        | Ok site =>
            ((out ++ [Deposit.mk bank site (take 120 name) rate "USD" url])%list, None)
        | Raise e => (out, Some e)
        end
    | None => (out, None)
    end
  else (out, None).

(** [_walk_json] appends to [out] in place: the result is [out] as the call
    leaves it, with the exception that ended the walk, if one did. *)
Fixpoint _walk_json (obj : json) (url bank : string) (out : list Deposit.t)
  : list Deposit.t * option exn :=
  match obj with
  | JDict d =>
      match walk_dict d url bank out with
      | (out1, Some e) => (out1, Some e)
      | (out1, None) =>
          (fix values (l : list (string * json)) (out : list Deposit.t)
             : list Deposit.t * option exn :=
             match l with
             | [] => (out, None)
             | (_, v) :: r =>
                 match _walk_json v url bank out with
                 | (out', None) => values r out'
                 | (out', Some e) => (out', Some e)
                 end
             end) d out1
      end
  | JList l =>
      (fix items (l : list json) (out : list Deposit.t)
         : list Deposit.t * option exn :=
         match l with
         | [] => (out, None)
         | it :: r =>
             match _walk_json it url bank out with
             | (out', None) => items r out'
             | (out', Some e) => (out', Some e)
             end
         end) l out
  | _ => (out, None)
  end.

Definition _discover_json_urls (base_url html : string) : pyresult (list string) :=
  found <- found_json_urls base_url html ;;
  out <- gather
           (fun u =>
              if startswith u "http://" || startswith u "https://" then
                same <- _same_domain base_url u ;;
                Ok (if same then [u] else [])
              else Ok [])
           found ;;
  Ok (firstn 40 out).

(** The body of the [try] of [_extract_from_json_endpoints]: the records
    appended to [out] survive an exception. *)
Definition json_endpoint (jurl bank : string) (out : list Deposit.t)
  : M (list Deposit.t) :=
  fun w =>
    match fetch jurl w with
    | (Raise _, w') => (Ok out, w')
    | (Ok r, w') =>
        let ct := lower (headers_get (Response.headers r) "Content-Type") in
        let txt := Response.text r in
        if negb (contains "json" ct)
           && negb (startswith (strip txt) "{" || startswith (strip txt) "[")
        then (Ok out, w')
        else
          match response_json r with
          | Raise _ => (Ok out, w')
          | Ok data => (Ok (fst (_walk_json data jurl bank out)), w')
          end
    end.

Fixpoint json_endpoints_loop (jurls : list string) (bank : string)
    (out : list Deposit.t) : M (list Deposit.t) :=
  match jurls with
  | [] => ret out
  | jurl :: rest =>
      out' <~ json_endpoint jurl bank out ;;
      json_endpoints_loop rest bank out'
  end.

Definition _extract_from_json_endpoints (page_url bank html : string)
  : M (list Deposit.t) :=
  jurls <~ lift (_discover_json_urls page_url html) ;;
  json_endpoints_loop jurls bank [].

(** *** The crawl of [_parse_universal] *)

Record crawl_state : Type := mkCrawl {
  visited : list string;
  q : list (string * Z);
  all_deps : list Deposit.t
}.

(** The body of the [while] loop after [q.popleft()] and the [visited]
    test: the fetch and the extraction of page [u], found at [depth]. *)
Definition crawl_page (u : string) (depth : Z) (st : crawl_state) : M crawl_state :=
  let visited1 := (visited st ++ [u])%list in
  r <~ fetch u ;;
  let html := Response.text r in
  let soup := _clean_soup html in
  let bank := _best_bank_name soup in
  let page_text := _norm (get_text soup) in
  forced_usd <~ lift (_page_forced_usd u page_text) ;;
  d1 <~ lift (_extract_from_tables soup u bank forced_usd) ;;
  d2 <~ lift (_extract_from_blocks soup u bank forced_usd) ;;
  deps <~ (match (d1 ++ d2)%list with
           | [] => _extract_from_json_endpoints u bank html
           | ds => ret ds
           end) ;;
  let all1 := (all_deps st ++ deps)%list in
  if (depth <? 1)%Z then
    links <~ lift (_collect_links u soup 200) ;;
    ret (mkCrawl visited1
           (q st ++ map (fun link => (link, depth + 1)%Z)
                      (filter (fun link => negb (mem_str link visited1)) links))%list
           all1)
  else ret (mkCrawl visited1 (q st) all1).

(** One iteration of the [while] loop. *)
Definition crawl_step (st : crawl_state) : M crawl_state :=
  match q st with
  | [] => ret st
  | (u, depth) :: q' =>
      let st' := mkCrawl (visited st) q' (all_deps st) in
      if mem_str u (visited st) then ret st'
      else crawl_page u depth st'
  end.

(** [q and len(visited) < 20] *)
Definition crawl_continues (st : crawl_state) : bool :=
  negb (match q st with [] => true | _ => false end)
  && (List.length (visited st) <? 20)%nat.

(** The [while] loop; [None]: the fuel ran out before the loop ended. *)
Fixpoint crawl_loop (fuel : nat) (st : crawl_state) : M (option crawl_state) :=
  if crawl_continues st then
    match fuel with
    | O => ret None
    | S fuel' =>
        st' <~ crawl_step st ;;
        crawl_loop fuel' st'
    end
  else ret (Some st).

Definition crawl_init (url : string) : crawl_state := mkCrawl [] [(url, 0%Z)] [].

(** The root page and at most 200 linked pages are dequeued. *)
Definition crawl_fuel : nat := 201.

Definition _parse_universal (url : string) : M (list Deposit.t) :=
  st <~ crawl_loop crawl_fuel (crawl_init url) ;;
  match st with
  | Some st => ret (_dedup (all_deps st))
  | None => raise (PyExc "OutOfFuel" "crawl_loop")
  end.

(** *** The structured-data strategy *)

Definition XB_API_URL : string :=
  "https://data.egov.uz/apiData/MainData/GetByFile" ++
  "?fileType=1&id=61121d80db32b99538e0833c&lang=1&tableType=2".

(** [str(item.get(key, "")).strip()] *)
Definition xb_field (d : list (string * json)) (key : string) : string :=
  strip (py_str (match dict_get d key with Some v => v | None => JStr EmptyString end)).

(** The body of the loop of [_parse_xb_open_data] over one item. *)
Definition xb_item (source_url : string) (item : json)
    (out : list (string * Deposit.t)) : pyresult (list (string * Deposit.t)) :=
  match item with
  | JDict d =>
      let name := xb_field d "Omonat nomi" in
      let rate_raw := xb_field d "Yillik foiz" in
      let initial := xb_field d "Boshlang'ich badal miqdori" in
      let other := xb_field d "Boshqa shartlar" in
      let blob := join " " [name; rate_raw; initial; other] in
      if is_empty name || negb (_is_usd_context blob) then Ok out
      else
        let rate := parse_percent rate_raw in
        if negb ((0 <=? rate) && (rate <=? MAX_USD_RATE))%float then Ok out
        else
          Ok (setdefault String.eqb out (lower name)
                (Deposit.mk "Xalq banki" "xb.uz" name rate "USD" source_url))
  | _ =>
      Raise (PyExc "AttributeError"
               ("'" ++ type_name item ++ "' object has no attribute 'get'"))
  end.

Fixpoint xb_loop (source_url : string) (items : list json)
    (out : list (string * Deposit.t)) : pyresult (list (string * Deposit.t)) :=
  match items with
  | [] => Ok out
  | item :: rest =>
      out' <- xb_item source_url item out ;;
      xb_loop source_url rest out'
  end.

(** [for item in data]: the items of a list, the keys of a dictionary, the
    characters of a string; nothing else is iterable. *)
Definition iter_json (data : json) : pyresult (list json) :=
  match data with
  | JList items => Ok items
  | JDict d => Ok (map (fun kv => JStr (fst kv)) d)
  | JStr s => Ok (map (fun c => JStr (String c EmptyString)) (list_ascii_of_string s))
  | _ => Raise (PyExc "TypeError" ("'" ++ type_name data ++ "' object is not iterable"))
  end.

Definition xb_records (source_url : string) (data : json) : pyresult (list Deposit.t) :=
  items <- iter_json data ;;
  out <- xb_loop source_url items [] ;;
  Ok (map snd out).

Definition _parse_xb_open_data (source_url : string) : M (list Deposit.t) :=
  r <~ fetch XB_API_URL ;;
  data <~ lift (response_json r) ;;
  lift (xb_records source_url data).

(** *** The site dispatcher *)

Definition parse_url (url : string) : M (list Deposit.t) :=
  d <~ lift (domain_of url) ;;
  if endswith d "xb.uz" then _parse_xb_open_data url
  else _parse_universal url.

(** *** cli.main: the loop over the input URLs *)

Definition exn_class (e : exn) : string :=
  match e with
  | PyExc cls _ => cls
  | RetryError _ => "RetryError"
  end.

(** [str(e)]; [main] reads it after [_unwrap_retry_error], never on a
    [RetryError] itself. *)
Definition exn_str (e : exn) : string :=
  match e with
  | PyExc _ msg => msg
  | RetryError _ => "RetryError"
  end.

(** The row both [except] clauses append: the class and the message of
    the exception (of the last attempt, under a [RetryError]), with the
    values [http_status] and [signals] hold when it is raised. *)
Definition error_row (url dom : string) (http_status : option Z) (signals : string)
    (e : exn) : SiteStatus.t :=
  let ex := _unwrap_retry_error e in
  SiteStatus.mk url dom http_status signals "ERROR"
    (exn_class ex ++ ": " ++ take 180 (exn_str ex)) 0.

(** The [try] statement of one iteration: the row appended to [sites] and
    the records added to [deposits_all]. *)
Definition process_site (url dom : string) (w : W)
  : (SiteStatus.t * list Deposit.t) * W :=
  match session_get url w with
  | (Raise e, w1) => ((error_row url dom None EmptyString e, []), w1)
  | (Ok r, w1) =>
      let http_status := Some (Response.status_code r) in
      let html_probe := Response.text r in
      let signals := snd (diagnose_response url r) in
      if _is_hard_block http_status signals then
        let note :=
          if is_empty signals
          then "status=" ++ str_of_Z (Response.status_code r) else signals in
        ((SiteStatus.mk url dom http_status signals "BLOCKED" note 0, []), w1)
      else
        match parse_url url w1 with
        | (Raise e, w2) => ((error_row url dom http_status signals e, []), w2)
        | (Ok deps, w2) =>
            let rows_found := List.length deps in
            let '(result, note) :=
              if (0 <? rows_found)%nat then ("OK", EmptyString)
              else if looks_js_empty html_probe
              then ("JS_RENDER_REQUIRED", "HTML looks like a JS shell or too thin")
              else if negb (_simple_has_usd html_probe)
              then ("NO_USD_MATCH", "No USD markers found")
              else if negb (_simple_has_percent html_probe)
              then ("NO_RATES_FOUND", "No percent values found")
              else ("NO_MATCHING_DEPOSITS",
                    "USD markers exist but no valid deposit/rate pairs detected") in
            ((SiteStatus.mk url dom http_status signals result note rows_found, deps),
             w2)
        end
  end.

(** The [for url in urls] loop of [main]; [domain_of(url)] is evaluated
    before the [try] statement. *)
Fixpoint main_loop (urls : list string) (sites : list SiteStatus.t)
    (deposits_all : list Deposit.t) : M (list SiteStatus.t * list Deposit.t) :=
  match urls with
  | [] => ret (sites, deposits_all)
  | url :: rest =>
      dom <~ lift (domain_of url) ;;
      fun w =>
        let '((row, deps), w') := process_site url dom w in
        main_loop rest (sites ++ [row])%list (deposits_all ++ deps)%list w'
  end.

(** [main] up to the reports: the rows of [sites] and [deposits_all]. *)
Definition main (urls : list string) : M (list SiteStatus.t * list Deposit.t) :=
  main_loop urls [] [].


(** *** The attempts of a retried call *)

(** [tries m n w out]: the [n]-th attempt of [m], made after [n - 1]
    attempts that raised, ends as [out]; the first attempt starts in the
    state [w]. *)
Inductive tries {A : Type} (m : M A) : nat -> W -> pyresult A * W -> Prop :=
| tries_first (w : W) : tries m 1 w (m w)
| tries_again (n : nat) (w : W) (e : exn) (w1 : W) :
    tries m n w (Raise e, w1) -> tries m (S n) w (m w1).

(** *** cli.main: from the input file to the frames and the totals *)

(** What [main] hands to the report writers and prints: the frame of the
    deposits, the frame of the sites, [len(deposits_all)], [ok_sites] and
    [len(sites)]. *)
Record report : Type := mkReport {
  deposits_df : list Deposit.t;
  sites_df : list SiteStatus.t;
  total_deposits : nat;
  total_ok_sites : nat;
  total_sites : nat
}.

Definition main_report (path : string) (f : input_file) : M report :=
  urls <~ lift (load_urls path f) ;;
  res <~ main urls ;;
  let '(sites, deposits_all) := res in
  ret (mkReport (to_dataframe deposits_all) sites
         (List.length deposits_all) (ok_sites sites) (List.length sites)).

(** ** The site dispatcher and the structured-data strategy *)

Lemma endswith_iff (s p : string) :
  endswith s p = true <-> exists a, s = a ++ p.
Proof.
  induction s as [|c r IH]; cbn [endswith].
  - rewrite orb_false_r, String.eqb_eq. split.
    + intros <-. now exists "".
    + intros [a H]. destruct a; [exact H | discriminate].
  - rewrite orb_true_iff, String.eqb_eq, IH. split.
    + intros [<- | [a ->]]; [now exists "" | now exists (String c a)].
    + intros [a H]. destruct a as [|d a]; [now left | right].
      simpl in H. injection H as _ ->. now exists a.
Qed.

Lemma setdefault_extends {K V : Type} (eqb : K -> K -> bool)
    (uniq : list (K * V)) (key : K) (d : V) :
  exists tl, setdefault eqb uniq key d = (uniq ++ tl)%list.
Proof.
  unfold setdefault. destruct (existsb _ uniq).
  - exists []. now rewrite app_nil_r.
  - now exists [(key, d)].
Qed.

(** The dictionary of [_parse_xb_open_data]: its keys are distinct, and each
    is the lower-cased name of its record. *)
Definition xb_dict_ok (out : list (string * Deposit.t)) : Prop :=
  NoDup (map fst out)
  /\ Forall (fun kv => fst kv = lower (Deposit.name (snd kv))) out.

Lemma setdefault_xb_ok (out : list (string * Deposit.t)) (d : Deposit.t) :
  xb_dict_ok out ->
  xb_dict_ok (setdefault String.eqb out (lower (Deposit.name d)) d).
Proof.
  intros [Hnd Hk]. unfold setdefault.
  destruct (existsb _ out) eqn:E; [now split|].
  split.
  - rewrite map_app. simpl. apply NoDup_app; [exact Hnd | repeat constructor; auto |].
    intros k Hin [<- | []].
    apply in_map_iff in Hin as [kv [Hkv Hin]].
    assert (existsb (fun kv0 => String.eqb (fst kv0) (lower (Deposit.name d))) out = true).
    { apply existsb_exists. exists kv. split; [exact Hin | now apply String.eqb_eq]. }
    congruence.
  - apply Forall_app. split; [exact Hk | now repeat constructor].
Qed.

Lemma xb_item_ok (source_url : string) (item : json)
    (out out' : list (string * Deposit.t)) :
  xb_item source_url item out = Ok out' ->
  xb_dict_ok out -> xb_dict_ok out' /\ exists tl, out' = (out ++ tl)%list.
Proof.
  unfold xb_item. intros H Hok.
  destruct item; try discriminate.
  repeat match type of H with
         | (if ?b then _ else _) = _ => destruct b
         end; injection H as <-.
  1, 2: split; [exact Hok | exists []; now rewrite app_nil_r].
  split.
  - apply (setdefault_xb_ok out
             (Deposit.mk "Xalq banki" "xb.uz" (xb_field members "Omonat nomi")
                (parse_percent (xb_field members "Yillik foiz")) "USD" source_url)).
    exact Hok.
  - apply setdefault_extends.
Qed.

Lemma xb_loop_ok (source_url : string) (items : list json) :
  forall out out',
    xb_loop source_url items out = Ok out' ->
    xb_dict_ok out -> xb_dict_ok out' /\ exists tl, out' = (out ++ tl)%list.
Proof.
  induction items as [|item rest IH]; simpl; intros out out' H Hok.
  - injection H as <-. split; [exact Hok | exists []; now rewrite app_nil_r].
  - destruct (xb_item source_url item out) as [out1|e] eqn:E; simpl in H; [|discriminate].
    destruct (xb_item_ok _ _ _ _ E Hok) as [Hok1 [t1 ->]].
    destruct (IH _ _ H Hok1) as [Hok2 [t2 ->]].
    split; [exact Hok2 | exists (t1 ++ t2)%list; now rewrite app_assoc].
Qed.

(** C9, amended.  The dispatcher reads only the normalized domain: a URL
    whose [domain_of] ends with the text [xb.uz] (the domain [xb.uz], its
    subdomains, and any other domain with that ending) goes to the
    structured-data strategy, every other URL to the generic crawl, and a URL
    that [domain_of] rejects raises before either runs.  The structured-data
    strategy returns records whose lower-cased names are distinct, and never
    replaces a record it has already stored (first seen wins). *)
Theorem dispatcher_routes_by_suffix :
  (forall url d w, domain_of url = Ok d ->
     parse_url url w =
       if endswith d "xb.uz" then _parse_xb_open_data url w else _parse_universal url w)
  /\ (forall url e w, domain_of url = Raise e -> parse_url url w = (Raise e, w))
  /\ (forall d, endswith d "xb.uz" = true <-> exists a, d = a ++ "xb.uz")
  /\ (forall source_url data recs,
        xb_records source_url data = Ok recs ->
        NoDup (map (fun d => lower (Deposit.name d)) recs))
  /\ (forall source_url items out out',
        xb_loop source_url items out = Ok out' ->
        xb_dict_ok out -> exists tl, out' = (out ++ tl)%list).
Proof.
  split; [|split; [|split; [|split]]].
  - intros url d w H. unfold parse_url, mbind, lift. rewrite H.
    destruct (endswith d "xb.uz"); reflexivity.
  - intros url e w H. unfold parse_url, mbind, lift. now rewrite H.
  - intros d. apply endswith_iff.
  - intros source_url data recs H. unfold xb_records in H.
    destruct (iter_json data) as [items|e]; simpl in H; [|discriminate].
    destruct (xb_loop source_url items []) as [out|e] eqn:E; simpl in H; [|discriminate].
    injection H as <-.
    destruct (xb_loop_ok _ _ _ _ E) as [[Hnd Hk] _]; [split; constructor|].
    rewrite map_map.
    replace (map (fun x => lower (Deposit.name (snd x))) out) with (map fst out);
      [exact Hnd|].
    clear -Hk. induction Hk as [|kv out Hkv _ IH]; simpl; [reflexivity | now rewrite Hkv, IH].
  - intros source_url items out out' H Hok.
    now destruct (xb_loop_ok _ _ _ _ H Hok) as [_ Htl].
Qed.

(** ** The outcome of a site *)



(** ** Failures of a site *)




(** The run stops at the first input URL that [domain_of] rejects: the
    exception leaves [main], with the network as the sites before it left
    it. *)
Lemma main_loop_rejected_url (u : string) (e : exn) (rest : list string)
    (sites : list SiteStatus.t) (deposits_all : list Deposit.t) (w : W) :
  domain_of u = Raise e ->
  main_loop (u :: rest) sites deposits_all w = (Raise e, w).
Proof. intros H. cbn [main_loop]. unfold mbind, lift. now rewrite H. Qed.

(** ** The crawl *)

(** Taking apart a computation that reads the network: the scrutinee of the
    outermost [match] of hypothesis [H] is split into its result and its
    state, and the case of an exception is closed. *)
Ltac bind_ok H r w E :=
  match type of H with
  | match ?m with pair _ _ => _ end = _ =>
      destruct m as [[r|?] w] eqn:E; [|discriminate H]
  end.

(** The same for a computation that does not read the network. *)
Ltac pure_ok H r E :=
  match type of H with
  | match ?m with Ok _ => _ | Raise _ => _ end = _ =>
      destruct m as [r|?] eqn:E; [|discriminate H]
  end.

Lemma collect_links_loop_bound (base_url : string) (limit : nat) (anchors : list node) :
  forall seen out links,
    (List.length out < limit)%nat ->
    collect_links_loop base_url limit anchors seen out = Ok links ->
    (List.length links <= limit)%nat.
Proof.
  induction anchors as [|a rest IH]; intros seen out links Hlt H.
  - injection H as <-. lia.
  - cbn [collect_links_loop] in H.
    destruct (is_empty (strip _)); [now apply IH with (2 := H)|].
    destruct (urljoin base_url _) as [u|e]; [|discriminate H]. cbn [rbind] in H.
    destruct (negb (startswith u "http://" || startswith u "https://"));
      [now apply IH with (2 := H)|].
    destruct (_same_domain base_url u) as [same|e]; [|discriminate H]. cbn [rbind] in H.
    destruct (negb same); [now apply IH with (2 := H)|].
    destruct (mem_str u seen); [now apply IH with (2 := H)|].
    match type of H with
    | (if (limit <=? List.length ?o)%nat then _ else _) = _ =>
        remember o as out' eqn:Eo
    end.
    assert (Ho : (List.length out' <= S (List.length out))%nat).
    { subst out'.
      destruct (any_in DEPOSIT_LINK_HINTS (lower u) || _);
        [rewrite length_app; simpl; lia|].
      destruct (contains "usd" (lower u) || _ || _ || _);
        [rewrite length_app; simpl; lia | lia]. }
    clear Eo. destruct (limit <=? List.length out')%nat eqn:El.
    + injection H as <-. lia.
    + apply Nat.leb_gt in El. now apply IH with (2 := H).
Qed.

Lemma collect_links_bound (base_url : string) (soup : node) (links : list string) :
  _collect_links base_url soup 200 = Ok links -> (List.length links <= 200)%nat.
Proof. apply collect_links_loop_bound. simpl. lia. Qed.

Lemma filter_length_le {A : Type} (p : A -> bool) (l : list A) :
  (List.length (filter p l) <= List.length l)%nat.
Proof.
  induction l as [|a l IH]; simpl; [lia|]. destruct (p a); simpl; lia.
Qed.

(** What the processing of a page leaves: the page is recorded as visited,
    the records found are added, and links are queued only from a page at
    depth 0, one level deeper and at most 200 of them. *)
Lemma crawl_page_ok (u : string) (depth : Z) (st st' : crawl_state) (w w' : W) :
  crawl_page u depth st w = (Ok st', w') ->
  visited st' = (visited st ++ [u])%list
  /\ (exists deps, all_deps st' = (all_deps st ++ deps)%list)
  /\ (if (depth <? 1)%Z
      then exists links,
          (List.length links <= 200)%nat
          /\ q st' = (q st ++ map (fun link => (link, depth + 1)%Z) links)%list
      else q st' = q st).
Proof.
  unfold crawl_page, mbind, lift, ret. intros H.
  bind_ok H r w1 E1. pure_ok H forced E2. pure_ok H d1 E3. pure_ok H d2 E4.
  bind_ok H deps w2 E5.
  destruct (depth <? 1)%Z.
  - pure_ok H links E6. injection H as <- <-. cbn [visited q all_deps].
    split; [reflexivity|]. split; [now exists deps|].
    eexists. split; [|reflexivity].
    etransitivity; [apply filter_length_le | now apply collect_links_bound with (1 := E6)].
  - injection H as <- <-. cbn [visited q all_deps].
    split; [reflexivity|]. split; [now exists deps | reflexivity].
Qed.

Lemma mem_str_iff (x : string) (l : list string) : mem_str x l = true <-> In x l.
Proof.
  unfold mem_str. rewrite existsb_exists. split.
  - intros [y [Hy E]]. apply String.eqb_eq in E. now subst.
  - intros H. exists x. split; [exact H | apply String.eqb_refl].
Qed.

(** One iteration: an entry whose URL was visited is dropped without a
    fetch; any other is processed once and recorded as visited. *)
Lemma crawl_step_ok (st st' : crawl_state) (w w' : W)
    (u : string) (depth : Z) (q' : list (string * Z)) :
  q st = (u, depth) :: q' ->
  crawl_step st w = (Ok st', w') ->
  if mem_str u (visited st)
  then st' = mkCrawl (visited st) q' (all_deps st) /\ w' = w
  else visited st' = (visited st ++ [u])%list
       /\ (exists deps, all_deps st' = (all_deps st ++ deps)%list)
       /\ (if (depth <? 1)%Z
           then exists links,
               (List.length links <= 200)%nat
               /\ q st' = (q' ++ map (fun link => (link, depth + 1)%Z) links)%list
           else q st' = q').
Proof.
  intros Hq H. unfold crawl_step in H. rewrite Hq in H.
  destruct (mem_str u (visited st)).
  - unfold ret in H. injection H as <- <-. now split.
  - exact (crawl_page_ok _ _ _ _ _ _ H).
Qed.

(** The states the loop passes through, from the start of the crawl. *)
Inductive crawl_reach (url : string) (w0 : W) : crawl_state -> W -> Prop :=
| reach_init : crawl_reach url w0 (crawl_init url) w0
| reach_step (st st' : crawl_state) (w w' : W) :
    crawl_reach url w0 st w ->
    crawl_continues st = true ->
    crawl_step st w = (Ok st', w') ->
    crawl_reach url w0 st' w'.

Definition depth_one (e : string * Z) : Prop := snd e = 1%Z.

Definition crawl_inv (url : string) (st : crawl_state) : Prop :=
  NoDup (visited st)
  /\ (List.length (visited st) <= 20)%nat
  /\ (st = crawl_init url
      \/ (Forall depth_one (q st) /\ (List.length (q st) <= 200)%nat)).

Lemma crawl_continues_true (st : crawl_state) :
  crawl_continues st = true ->
  (exists u depth q', q st = (u, depth) :: q')
  /\ (List.length (visited st) < 20)%nat.
Proof.
  unfold crawl_continues. rewrite andb_true_iff, Nat.ltb_lt. intros [H1 H2].
  split; [|exact H2]. destruct (q st) as [|[u depth] q']; [discriminate|].
  now exists u, depth, q'.
Qed.

Lemma crawl_inv_step (url : string) (st st' : crawl_state) (w w' : W) :
  crawl_inv url st ->
  crawl_continues st = true ->
  crawl_step st w = (Ok st', w') ->
  crawl_inv url st'.
Proof.
  intros [Hnd [Hlen Hq]] Hc Hs.
  destruct (crawl_continues_true st Hc) as [[u [depth [q' Eq]]] Hlt].
  pose proof (crawl_step_ok _ _ _ _ _ _ _ Eq Hs) as Hstep.
  destruct (mem_str u (visited st)) eqn:Em.
  - destruct Hstep as [-> _]. unfold crawl_inv. cbn [visited q].
    split; [exact Hnd|]. split; [exact Hlen|].
    destruct Hq as [-> | [Hq1 Hq2]].
    + injection Eq as <- <- <-. right. split; [constructor | simpl; lia].
    + right. rewrite Eq in Hq1, Hq2. inversion Hq1; subst. split; [assumption|].
      simpl in Hq2. lia.
  - destruct Hstep as [Hv [_ Hq']]. unfold crawl_inv. rewrite Hv. split; [|split].
    + apply NoDup_app; [exact Hnd | repeat constructor; auto|].
      intros x Hx [<- | []]. apply mem_str_iff in Hx. congruence.
    + rewrite length_app. simpl. lia.
    + right. destruct Hq as [-> | [Hq1 Hq2]].
      * injection Eq as <- <- <-. cbn [Z.ltb Z.compare] in Hq'.
        destruct Hq' as [links [Hl ->]]. split.
        -- apply Forall_forall. intros e He. simpl in He.
           apply in_map_iff in He as [l [<- _]]. reflexivity.
        -- simpl. now rewrite length_map.
      * rewrite Eq in Hq1, Hq2. inversion Hq1 as [|e l Hd Hq3]; subst.
        unfold depth_one in Hd. simpl in Hd. subst depth. cbn [Z.ltb Z.compare] in Hq'.
        rewrite Hq'. split; [assumption | simpl in Hq2; lia].
Qed.

Lemma crawl_reach_inv (url : string) (w0 : W) (st : crawl_state) (w : W) :
  crawl_reach url w0 st w -> crawl_inv url st.
Proof.
  induction 1 as [|st st' w w' _ IH Hc Hs].
  - split; [constructor|]. split; [simpl; lia | now left].
  - exact (crawl_inv_step url st st' w w' IH Hc Hs).
Qed.

Lemma crawl_loop_done (fuel : nat) (st : crawl_state) (w : W) :
  crawl_continues st = false -> crawl_loop fuel st w = (Ok (Some st), w).
Proof. intros H. destruct fuel; cbn [crawl_loop]; now rewrite H. Qed.

Lemma crawl_loop_S (fuel : nat) (st : crawl_state) (w : W) :
  crawl_continues st = true ->
  crawl_loop (S fuel) st w
  = match crawl_step st w with
    | (Ok st', w') => crawl_loop fuel st' w'
    | (Raise e, w') => (Raise e, w')
    end.
Proof. intros H. cbn [crawl_loop]. now rewrite H. Qed.

(** Once every queued entry is at depth 1 the queue only shrinks, and fuel
    for its length is enough. *)
Lemma crawl_loop_depth_one (fuel : nat) :
  forall st w,
    Forall depth_one (q st) ->
    (List.length (q st) <= fuel)%nat ->
    exists res w',
      res <> Ok None
      /\ forall fuel', (fuel <= fuel')%nat -> crawl_loop fuel' st w = (res, w').
Proof.
  induction fuel as [|fuel IH]; intros st w Hq Hlen.
  - exists (Ok (Some st)), w. split; [discriminate|]. intros fuel' _.
    apply crawl_loop_done. unfold crawl_continues.
    destruct (q st); [reflexivity | simpl in Hlen; lia].
  - destruct (crawl_continues st) eqn:Hc.
    + destruct (crawl_continues_true st Hc) as [[u [depth [q' Eq]]] _].
      destruct (crawl_step st w) as [[st'|e] w1] eqn:Hs.
      * pose proof (crawl_step_ok _ _ _ _ _ _ _ Eq Hs) as Hstep.
        rewrite Eq in Hq, Hlen. inversion Hq as [|e l Hd Hq']; subst.
        unfold depth_one in Hd. simpl in Hd. subst depth.
        assert (Eq' : q st' = q').
        { destruct (mem_str u (visited st)).
          - now destruct Hstep as [-> _].
          - now destruct Hstep as [_ [_ Hstep]]. }
        destruct (IH st' w1) as [res [w' [Hres Hall]]].
        { now rewrite Eq'. }
        { rewrite Eq'. simpl in Hlen. lia. }
        exists res, w'. split; [exact Hres|].
        intros [|fuel'] Hf; [lia|].
        rewrite (crawl_loop_S _ _ _ Hc), Hs. apply Hall. lia.
      * exists (Raise e), w1. split; [discriminate|].
        intros [|fuel'] Hf; [lia|].
        now rewrite (crawl_loop_S _ _ _ Hc), Hs.
    + exists (Ok (Some st)), w. split; [discriminate|]. intros fuel' _.
      now apply crawl_loop_done.
Qed.

Lemma crawl_loop_terminates (url : string) (w : W) :
  exists res w',
    res <> Ok None
    /\ forall fuel, (crawl_fuel <= fuel)%nat ->
         crawl_loop fuel (crawl_init url) w = (res, w').
Proof.
  assert (Hc : crawl_continues (crawl_init url) = true) by reflexivity.
  destruct (crawl_step (crawl_init url) w) as [[st'|e] w1] eqn:Hs.
  - assert (Hinv : crawl_inv url st').
    { apply (crawl_inv_step url (crawl_init url) st' w w1); [|exact Hc | exact Hs].
      split; [constructor|]. split; [simpl; lia | now left]. }
    destruct Hinv as [_ [_ Hq]].
    assert (Hq' : Forall depth_one (q st') /\ (List.length (q st') <= 200)%nat).
    { destruct Hq as [-> | Hq]; [|exact Hq].
      exfalso.
      pose proof (crawl_step_ok (crawl_init url) (crawl_init url) w w1 url 0%Z []
                    eq_refl Hs) as Hstep.
      cbn in Hstep. destruct Hstep as [Hv _]. discriminate Hv. }
    destruct Hq' as [Hq1 Hq2].
    destruct (crawl_loop_depth_one 200 st' w1 Hq1 Hq2) as [res [w' [Hres Hall]]].
    exists res, w'. split; [exact Hres|].
    intros [|fuel] Hf; [unfold crawl_fuel in Hf; lia|].
    rewrite (crawl_loop_S _ _ _ Hc), Hs. apply Hall. unfold crawl_fuel in Hf. lia.
  - exists (Raise e), w1. split; [discriminate|].
    intros [|fuel] Hf; [unfold crawl_fuel in Hf; lia|].
    now rewrite (crawl_loop_S _ _ _ Hc), Hs.
Qed.

(** C6.  The crawl of one site ends: there is one result that every fuel
    from [crawl_fuel] on yields, and it is not the exhaustion of the fuel.
    In every state the loop reaches the visited URLs are distinct and at
    most 20, every queued entry is at depth 0 or 1, and at most 200 entries
    are queued.  An iteration drops an entry whose URL was already visited
    without fetching it; otherwise it records the URL as visited and queues
    links only when the page is at depth 0, one level deeper, so a page at
    depth 1 adds nothing to the queue.  [_collect_links] returns at most
    200 links. *)
Theorem crawl_bounded (url : string) (w : W) :
  (exists res w',
     res <> Ok None
     /\ forall fuel, (crawl_fuel <= fuel)%nat ->
          crawl_loop fuel (crawl_init url) w = (res, w'))
  /\ (forall st w',
        crawl_reach url w st w' ->
        NoDup (visited st)
        /\ (List.length (visited st) <= 20)%nat
        /\ Forall (fun e => snd e = 0%Z \/ snd e = 1%Z) (q st)
        /\ (List.length (q st) <= 200)%nat)
  /\ (forall st st' w1 w2 u depth q',
        q st = (u, depth) :: q' ->
        crawl_step st w1 = (Ok st', w2) ->
        if mem_str u (visited st)
        then st' = mkCrawl (visited st) q' (all_deps st) /\ w2 = w1
        else visited st' = (visited st ++ [u])%list
             /\ (if (depth <? 1)%Z
                 then exists links,
                     (List.length links <= 200)%nat
                     /\ q st' = (q' ++ map (fun link => (link, depth + 1)%Z) links)%list
                 else q st' = q'))
  /\ (forall base_url soup links,
        _collect_links base_url soup 200 = Ok links ->
        (List.length links <= 200)%nat).
Proof.
  split; [apply crawl_loop_terminates|]. split; [|split].
  - intros st w' Hr. destruct (crawl_reach_inv _ _ _ _ Hr) as [Hnd [Hlen Hq]].
    split; [exact Hnd|]. split; [exact Hlen|].
    destruct Hq as [-> | [Hq1 Hq2]].
    + split; [repeat constructor; now left | simpl; lia].
    + split; [|exact Hq2]. apply Forall_impl with (2 := Hq1). intros e He. now right.
  - intros st st' w1 w2 u depth q' Eq Hs.
    pose proof (crawl_step_ok _ _ _ _ _ _ _ Eq Hs) as Hstep.
    destruct (mem_str u (visited st)); [exact Hstep|].
    destruct Hstep as [Hv [_ Hq]]. now split.
  - intros base_url soup links. apply collect_links_bound.
Qed.

(** ** The records of the pipeline *)

Lemma walk_dict_ok (d : list (string * json)) (url bank : string)
    (out : list Deposit.t) :
  Forall record_ok out -> Forall record_ok (fst (walk_dict d url bank out)).
Proof.
  intros Hout. unfold walk_dict.
  destruct (String.eqb _ "USD" || _); [|exact Hout].
  destruct (_extract_rate_from_text _) as [rate|] eqn:Er; [|exact Hout].
  destruct (domain_of url) as [site|e]; [|exact Hout].
  cbn [fst]. apply Forall_app. split; [exact Hout|].
  constructor; [|constructor]. split; [exact (extract_rate_ok _ _ Er) | reflexivity].
Qed.

Lemma walk_json_ok :
  forall (obj : json) (url bank : string) (out : list Deposit.t),
    Forall record_ok out -> Forall record_ok (fst (_walk_json obj url bank out)).
Proof.
  fix IH 1. intros obj url bank out Hout.
  destruct obj as [| | | | |items|members]; try exact Hout.
  - cbn [_walk_json]. revert out Hout.
    induction items as [|it r IHr]; intros out Hout; [exact Hout|].
    pose proof (IH it url bank out Hout) as Hit.
    destruct (_walk_json it url bank out) as [out' [e|]]; [exact Hit|].
    apply IHr. exact Hit.
  - cbn [_walk_json].
    pose proof (walk_dict_ok members url bank out Hout) as Hd.
    destruct (walk_dict members url bank out) as [out1 [e|]]; [exact Hd|].
    cbn [fst] in Hd. clear Hout. revert out1 Hd.
    induction members as [|[k v] r IHr]; intros out1 Hd; [exact Hd|].
    pose proof (IH v url bank out1 Hd) as Hv.
    destruct (_walk_json v url bank out1) as [out' [e|]]; [exact Hv|].
    apply IHr. exact Hv.
Qed.

Lemma json_endpoints_loop_ok (jurls : list string) (bank : string) :
  forall out w xs w',
    Forall record_ok out ->
    json_endpoints_loop jurls bank out w = (Ok xs, w') ->
    Forall record_ok xs.
Proof.
  induction jurls as [|jurl rest IH]; intros out w xs w' Hout H.
  - injection H as <- _. exact Hout.
  - cbn [json_endpoints_loop] in H. unfold mbind in H.
    destruct (json_endpoint jurl bank out w) as [[out1|e] w1] eqn:E; [|discriminate H].
    apply (IH out1 w1 xs w'); [|exact H].
    unfold json_endpoint in E.
    destruct (fetch jurl w) as [[r|e] w2]; [|injection E as <- _; exact Hout].
    destruct (negb _ && negb _); [injection E as <- _; exact Hout|].
    destruct (response_json r) as [data|e]; injection E as <- _; [|exact Hout].
    now apply walk_json_ok.
Qed.

Lemma crawl_page_records (u : string) (depth : Z) (st st' : crawl_state) (w w' : W) :
  Forall record_ok (all_deps st) ->
  crawl_page u depth st w = (Ok st', w') ->
  Forall record_ok (all_deps st').
Proof.
  intros Hall H. unfold crawl_page, mbind, lift, ret in H.
  bind_ok H r w1 E1. pure_ok H forced E2. pure_ok H d1 E3. pure_ok H d2 E4.
  bind_ok H deps w2 E5.
  assert (Hdeps : Forall record_ok deps).
  { pose proof (extract_from_tables_ok _ _ _ _ _ E3) as H1.
    pose proof (extract_from_blocks_ok _ _ _ _ _ E4) as H2.
    destruct (d1 ++ d2)%list as [|x xs] eqn:Ed.
    - unfold _extract_from_json_endpoints, mbind, lift in E5.
      destruct (_discover_json_urls u (Response.text r)) as [jurls|e];
        [|discriminate E5].
      eapply json_endpoints_loop_ok; [apply Forall_nil | exact E5].
    - injection E5 as <- _. rewrite <- Ed. apply Forall_app. now split. }
  destruct (depth <? 1)%Z.
  - pure_ok H links E6. injection H as <- _. cbn [all_deps].
    apply Forall_app. now split.
  - injection H as <- _. cbn [all_deps]. apply Forall_app. now split.
Qed.

Lemma crawl_loop_records (fuel : nat) :
  forall st w st' w',
    Forall record_ok (all_deps st) ->
    crawl_loop fuel st w = (Ok (Some st'), w') ->
    Forall record_ok (all_deps st').
Proof.
  induction fuel as [|fuel IH]; intros st w st' w' Hall H;
    cbn [crawl_loop] in H; destruct (crawl_continues st) eqn:Hc;
    try (injection H as <- _; exact Hall); try discriminate H.
  unfold mbind in H.
  destruct (crawl_step st w) as [[st1|e] w1] eqn:Hs; [|discriminate H].
  apply (IH st1 w1 st' w'); [|exact H].
  unfold crawl_step in Hs. destruct (q st) as [|[u depth] q'].
  - injection Hs as <- _. exact Hall.
  - destruct (mem_str u (visited st)).
    + injection Hs as <- _. exact Hall.
    + eapply crawl_page_records; [|exact Hs]. exact Hall.
Qed.

(** X1.  The records of the generic pipeline: every record the table, block
    and JSON-endpoint strategies produce, as [_parse_universal] returns
    them, has a rate above 0 and at most 0.35, and the currency USD. *)
Lemma parse_universal_records (url : string) (w w' : W) (deps : list Deposit.t) :
  _parse_universal url w = (Ok deps, w') -> Forall record_ok deps.
Proof.
  unfold _parse_universal, mbind. intros H.
  destruct (crawl_loop crawl_fuel (crawl_init url) w) as [[[st|]|e] w1] eqn:E;
    try discriminate H.
  injection H as <- _.
  assert (Hall : Forall record_ok (all_deps st)).
  { eapply crawl_loop_records; [|exact E]. apply Forall_nil. }
  apply Forall_forall. intros d Hd.
  destruct (dedup_first_seen _ _ Hd) as [pre [post [Hl _]]].
  rewrite Forall_forall in Hall. apply Hall. rewrite Hl.
  apply in_or_app. right. now left.
Qed.

(** X2.  The records of the structured-data strategy have the currency USD
    and a rate from 0 to 0.35, 0 included. *)
Lemma xb_records_rates (source_url : string) (data : json) (recs : list Deposit.t) :
  xb_records source_url data = Ok recs ->
  Forall (fun d => ((0 <=? Deposit.rate d) && (Deposit.rate d <=? MAX_USD_RATE))%float = true
                   /\ Deposit.currency d = "USD") recs.
Proof.
  unfold xb_records. intros H.
  destruct (iter_json data) as [items|e]; [|discriminate H]. cbn [rbind] in H.
  destruct (xb_loop source_url items []) as [out|e] eqn:E; [|discriminate H].
  injection H as <-.
  assert (Hgen : forall items out0 out1,
             Forall (fun kv => ((0 <=? Deposit.rate (snd kv))
                                && (Deposit.rate (snd kv) <=? MAX_USD_RATE))%float = true
                               /\ Deposit.currency (snd kv) = "USD") out0 ->
             xb_loop source_url items out0 = Ok out1 ->
             Forall (fun kv => ((0 <=? Deposit.rate (snd kv))
                                && (Deposit.rate (snd kv) <=? MAX_USD_RATE))%float = true
                               /\ Deposit.currency (snd kv) = "USD") out1).
  { clear. induction items as [|item rest IH]; intros out0 out1 H0 H.
    - now injection H as <-.
    - cbn [xb_loop] in H.
      destruct (xb_item source_url item out0) as [out2|e] eqn:Ei; [|discriminate H].
      apply (IH out2 out1); [|exact H].
      unfold xb_item in Ei. destruct item; try discriminate Ei.
      destruct (is_empty _ || negb _); [now injection Ei as <-|].
      destruct ((0 <=? _) && _)%float eqn:Er; cbn [negb] in Ei;
        [|now injection Ei as <-].
      injection Ei as <-. unfold setdefault.
      destruct (existsb _ out0); [exact H0|].
      apply Forall_app. split; [exact H0|]. constructor; [|constructor].
      split; [exact Er | reflexivity]. }
  specialize (Hgen items [] out (Forall_nil _) E).
  apply Forall_forall. intros d Hd. apply in_map_iff in Hd as [kv [<- Hkv]].
  rewrite Forall_forall in Hgen. now apply Hgen.
Qed.

(** ** The retried fetch *)

Definition error_status (r : Response.t) : bool :=
  ((400 <=? Response.status_code r) && (Response.status_code r <? 600))%Z.

(** One attempt returns the response of [session.get] when its status is
    outside 400..599, raises [HTTPError] when it is inside, and raises
    what [session.get] raises. *)
Lemma fetch_attempt_cases (url : string) (w : W) :
  match fetch_attempt url w with
  | (Ok r, w') => session_get url w = (Ok r, w') /\ error_status r = false
  | (Raise e, w') =>
      session_get url w = (Raise e, w')
      \/ exists r, session_get url w = (Ok r, w')
                   /\ error_status r = true
                   /\ e = PyExc "HTTPError" (http_error_msg r)
  end.
Proof.
  unfold fetch_attempt, mbind, raise, ret, error_status.
  destruct (session_get url w) as [[r|e] w1]; [|now left].
  destruct ((400 <=? Response.status_code r) && (Response.status_code r <? 600))%Z eqn:E.
  - right. now exists r.
  - now split.
Qed.

Lemma retrying_three {A : Type} (m : M A) (w : W) :
  retrying 3 m w
  = match m w with
    | (Ok a, w1) => (Ok a, w1)
    | (Raise _, w1) =>
        match m w1 with
        | (Ok a, w2) => (Ok a, w2)
        | (Raise _, w2) =>
            match m w2 with
            | (Ok a, w3) => (Ok a, w3)
            | (Raise e, w3) => (Raise (RetryError e), w3)
            end
        end
    end.
Proof. reflexivity. Qed.

Lemma fetch_ok_status (url : string) (w w' : W) (r : Response.t) :
  fetch url w = (Ok r, w') -> error_status r = false.
Proof.
  unfold fetch. rewrite retrying_three. intros H.
  pose proof (fetch_attempt_cases url w) as H1.
  destruct (fetch_attempt url w) as [[r1|e1] w1].
  { injection H as <- _. apply H1. }
  pose proof (fetch_attempt_cases url w1) as H2.
  destruct (fetch_attempt url w1) as [[r2|e2] w2].
  { injection H as <- _. apply H2. }
  pose proof (fetch_attempt_cases url w2) as H3.
  destruct (fetch_attempt url w2) as [[r3|e3] w3]; [|discriminate H].
  injection H as <- _. apply H3.
Qed.

Lemma fetch_raises_retry (url : string) (w w' : W) (e : exn) :
  fetch url w = (Raise e, w') -> exists last, e = RetryError last.
Proof.
  unfold fetch. rewrite retrying_three. intros H.
  destruct (fetch_attempt url w) as [[r1|e1] w1]; [discriminate H|].
  destruct (fetch_attempt url w1) as [[r2|e2] w2]; [discriminate H|].
  destruct (fetch_attempt url w2) as [[r3|e3] w3]; [discriminate H|].
  injection H as <- _. now exists e3.
Qed.

(** X11.  [fetch] makes one, two or three attempts, each started where the
    one before it left the network, and stops at the first that returns.
    It returns the response of that attempt, whose status is outside
    400..599.  When the third attempt raises too, it raises [RetryError]
    around the exception of the third attempt, and nothing else is ever
    raised.  An attempt raises what [session.get] raises, or [HTTPError]
    for a response with a status in 400..599. *)
Theorem fetch_attempts (url : string) (w : W) :
  (exists n out w',
     (1 <= n <= 3)%nat
     /\ tries (fetch_attempt url) n w (out, w')
     /\ match out with
        | Ok r => fetch url w = (Ok r, w') /\ error_status r = false
        | Raise e => n = 3%nat /\ fetch url w = (Raise (RetryError e), w')
        end)
  /\ (forall w0,
        match fetch_attempt url w0 with
        | (Ok r, w') => session_get url w0 = (Ok r, w') /\ error_status r = false
        | (Raise e, w') =>
            session_get url w0 = (Raise e, w')
            \/ exists r, session_get url w0 = (Ok r, w')
                         /\ error_status r = true
                         /\ e = PyExc "HTTPError" (http_error_msg r)
        end).
Proof.
  split; [|apply fetch_attempt_cases].
  unfold fetch. rewrite retrying_three.
  pose proof (tries_first (fetch_attempt url) w) as T1.
  pose proof (fetch_attempt_cases url w) as C1.
  destruct (fetch_attempt url w) as [[r1|e1] w1] eqn:E1.
  { exists 1%nat, (Ok r1), w1. split; [lia|]. split; [exact T1|]. now split. }
  pose proof (tries_again _ _ _ _ _ T1) as T2.
  pose proof (fetch_attempt_cases url w1) as C2.
  destruct (fetch_attempt url w1) as [[r2|e2] w2] eqn:E2.
  { exists 2%nat, (Ok r2), w2. split; [lia|]. split; [exact T2|]. now split. }
  pose proof (tries_again _ _ _ _ _ T2) as T3.
  pose proof (fetch_attempt_cases url w2) as C3.
  destruct (fetch_attempt url w2) as [[r3|e3] w3] eqn:E3.
  - exists 3%nat, (Ok r3), w3. split; [lia|]. split; [exact T3|]. now split.
  - exists 3%nat, (Raise e3), w3. split; [lia|]. split; [exact T3|]. now split.
Qed.

(** ** The links the crawl follows *)

Lemma same_domain_true (a b da : string) :
  _same_domain a b = Ok true -> domain_of a = Ok da -> domain_of b = Ok da.
Proof.
  unfold _same_domain. intros H Ha. rewrite Ha in H. cbn [rbind] in H.
  destruct (domain_of b) as [db|e]; [|discriminate H]. cbn [rbind] in H.
  injection H as H. apply String.eqb_eq in H. now subst.
Qed.

Definition is_http (u : string) : bool :=
  startswith u "http://" || startswith u "https://".

(** Why [_collect_links] keeps the link [u] of the page [base_url]: it is
    what [urljoin] makes of the [href] of an anchor of the page, an http(s)
    URL of the domain of the page, and a deposit hint stands in it or in
    the text of the anchor, or it holds [usd] or [$]. *)
Definition link_kept (base_url : string) (anchors : list node) (u : string) : Prop :=
  is_http u = true
  /\ _same_domain base_url u = Ok true
  /\ exists a,
       In a anchors
       /\ urljoin base_url
            (strip (match attr_get a "href" with Some h => h | None => "" end)) = Ok u
       /\ (any_in DEPOSIT_LINK_HINTS (lower u)
           || any_in DEPOSIT_LINK_HINTS (lower (_norm (get_text a)))
           || contains "usd" (lower u) || contains "$" (lower u)) = true.

Lemma usd_link_test (lu : string) :
  contains "usd" lu || contains "currency=usd" lu || contains "valyuta=usd" lu
  || contains "$" lu
  = contains "usd" lu || contains "$" lu.
Proof.
  destruct (contains "usd" lu) eqn:E; [reflexivity|]. cbn [orb].
  destruct (contains "currency=usd" lu) eqn:E1.
  { apply (contains_inner "currency=" "usd" "") in E1. congruence. }
  destruct (contains "valyuta=usd" lu) eqn:E2.
  { apply (contains_inner "valyuta=" "usd" "") in E2. congruence. }
  reflexivity.
Qed.

Lemma collect_links_loop_spec (base_url : string) (limit : nat) (all : list node)
    (anchors : list node) :
  incl anchors all ->
  forall seen out links,
    collect_links_loop base_url limit anchors seen out = Ok links ->
    incl out seen -> NoDup out -> Forall (link_kept base_url all) out ->
    NoDup links /\ Forall (link_kept base_url all) links.
Proof.
  induction anchors as [|a rest IH]; intros Hall seen out links H Hseen Hnd Hout.
  - injection H as <-. now split.
  - assert (Hrest : incl rest all) by (intros x Hx; apply Hall; now right).
    assert (Ha : In a all) by (apply Hall; now left).
    cbn [collect_links_loop] in H.
    destruct (is_empty (strip _)); [now apply (IH Hrest seen out)|].
    destruct (urljoin base_url _) as [u|e] eqn:Eu; [|discriminate H]. cbn [rbind] in H.
    destruct (startswith u "http://" || startswith u "https://") eqn:Eh;
      cbn [negb] in H; [|now apply (IH Hrest seen out)].
    destruct (_same_domain base_url u) as [same|e] eqn:Es; [|discriminate H].
    cbn [rbind] in H.
    destruct same; cbn [negb] in H; [|now apply (IH Hrest seen out)].
    destruct (mem_str u seen) eqn:Em; [now apply (IH Hrest seen out)|].
    assert (Hnew : ~ In u out).
    { intros Hin. apply Hseen in Hin. apply mem_str_iff in Hin. congruence. }
    assert (Hsnoc : incl (out ++ [u]) (u :: seen)
                    /\ NoDup (out ++ [u])
                    /\ (forall reason,
                          reason = true ->
                          (any_in DEPOSIT_LINK_HINTS (lower u)
                           || any_in DEPOSIT_LINK_HINTS (lower (_norm (get_text a)))
                           || contains "usd" (lower u) || contains "$" (lower u)) = reason ->
                          Forall (link_kept base_url all) (out ++ [u]))).
    { split; [|split].
      - intros x Hx. apply in_app_or in Hx as [Hx | [<- | []]];
          [right; now apply Hseen | now left].
      - apply NoDup_app; [exact Hnd | repeat constructor; auto |].
        intros x Hx [<- | []]. now apply Hnew.
      - intros reason -> Hr. apply Forall_app. split; [exact Hout|].
        constructor; [|constructor]. split; [exact Eh|]. split; [exact Es|].
        exists a. split; [exact Ha|]. split; [exact Eu | exact Hr]. }
    destruct Hsnoc as [Hs1 [Hs2 Hs3]].
    assert (Hold : incl out (u :: seen)) by (intros x Hx; right; now apply Hseen).
    rewrite usd_link_test in H.
    destruct (any_in DEPOSIT_LINK_HINTS (lower u)
              || any_in DEPOSIT_LINK_HINTS (lower (_norm (get_text a)))) eqn:E1.
    + assert (Hk : Forall (link_kept base_url all) (out ++ [u])).
      { apply (Hs3 true eq_refl). rewrite ?E1. reflexivity. }
      destruct (limit <=? List.length (out ++ [u]))%nat.
      * injection H as <-. now split.
      * now apply (IH Hrest (u :: seen) (out ++ [u])%list).
    + destruct (contains "usd" (lower u) || contains "$" (lower u)) eqn:E2.
      * assert (Hk : Forall (link_kept base_url all) (out ++ [u])).
        { apply (Hs3 true eq_refl). rewrite ?E1. cbn [orb].
          rewrite <- ?orb_assoc. rewrite ?E2. cbn [orb]. rewrite ?orb_true_r.
          reflexivity. }
        destruct (limit <=? List.length (out ++ [u]))%nat.
        -- injection H as <-. now split.
        -- now apply (IH Hrest (u :: seen) (out ++ [u])%list).
      * destruct (limit <=? List.length out)%nat.
        -- injection H as <-. now split.
        -- now apply (IH Hrest (u :: seen) out).
Qed.

Lemma collect_links_spec (base_url : string) (soup : node) (limit : nat)
    (links : list string) :
  _collect_links base_url soup limit = Ok links ->
  NoDup links
  /\ Forall (link_kept base_url (filter has_href (find_all ["a"] soup))) links.
Proof.
  intros H. unfold _collect_links in H.
  apply (collect_links_loop_spec base_url limit _ _ (incl_refl _) [] [] links H).
  - intros x [].
  - constructor.
  - constructor.
Qed.


Lemma gather_flat {A B : Type} (f : A -> pyresult (list B)) (l : list A) (ys : list B) :
  gather f l = Ok ys ->
  forall y, In y ys -> exists a xs, In a l /\ f a = Ok xs /\ In y xs.
Proof.
  revert ys. induction l as [|a r IH]; intros ys H y Hy.
  - injection H as <-. destruct Hy.
  - cbn [gather] in H.
    destruct (f a) as [xs|e] eqn:Ea; [|discriminate H]. cbn [rbind] in H.
    destruct (gather f r) as [zs|e] eqn:Er; [|discriminate H]. cbn [rbind] in H.
    injection H as <-. apply in_app_or in Hy as [Hy | Hy].
    + exists a, xs. split; [now left | now split].
    + destruct (IH zs eq_refl y Hy) as [a' [xs' [H1 [H2 H3]]]].
      exists a', xs'. split; [now right | now split].
Qed.

Lemma firstn_In {A : Type} (n : nat) (l : list A) (x : A) :
  In x (firstn n l) -> In x l.
Proof.
  revert l. induction n as [|n IH]; intros [|a l] H; try (now destruct H).
  destruct H as [H | H]; [now left | right; now apply IH].
Qed.

Lemma discover_json_urls_spec (base_url html : string) (urls : list string) :
  _discover_json_urls base_url html = Ok urls ->
  (List.length urls <= 40)%nat
  /\ Forall (fun u => is_http u = true /\ _same_domain base_url u = Ok true) urls.
Proof.
  unfold _discover_json_urls. intros H.
  destruct (found_json_urls base_url html) as [found|e]; [|discriminate H].
  cbv beta iota delta [rbind] in H.
  match type of H with
  | context [gather ?f found] =>
      destruct (gather f found) as [out|e] eqn:Eg; [|discriminate H];
      pose proof (gather_flat f found out Eg) as Hflat
  end.
  assert (Hu : urls = firstn 40 out) by congruence. subst urls. clear H. split.
  - rewrite length_firstn. lia.
  - apply Forall_forall. intros u Hu. apply firstn_In in Hu.
    destruct (Hflat u Hu) as [a [xs [_ [Hf Hin]]]]. cbn beta in Hf.
    destruct (startswith a "http://" || startswith a "https://") eqn:Eh;
      [|injection Hf as <-; destruct Hin].
    destruct (_same_domain base_url a) as [same|e] eqn:Es; [|discriminate Hf].
    cbn [rbind] in Hf. injection Hf as <-.
    destruct same; [|destruct Hin]. destruct Hin as [<- | []]. now split.
Qed.

(** ** The records read from JSON *)

Lemma json_nested_ind (P : json -> Prop) :
  P JNull -> (forall b, P (JBool b)) -> (forall z, P (JInt z)) ->
  (forall f, P (JFloat f)) -> (forall s, P (JStr s)) ->
  (forall items, Forall P items -> P (JList items)) ->
  (forall members, Forall (fun kv => P (snd kv)) members -> P (JDict members)) ->
  forall v, P v.
Proof.
  intros H0 H1 H2 H3 H4 HL HD. fix IH 1.
  intros [|b|z|f|s|items|members];
    [exact H0 | apply H1 | apply H2 | apply H3 | apply H4 | |].
  - apply HL. induction items as [|it r IHr]; constructor; [apply IH | exact IHr].
  - apply HD. induction members as [|[k v] r IHr]; constructor; [apply IH | exact IHr].
Qed.

(** The number of objects in a JSON document. *)
Fixpoint dict_count (v : json) : nat :=
  match v with
  | JDict d =>
      S ((fix sum (l : list (string * json)) : nat :=
            match l with
            | [] => O
            | (_, x) :: r => (dict_count x + sum r)%nat
            end) d)
  | JList l =>
      (fix sum (l : list json) : nat :=
         match l with
         | [] => O
         | x :: r => (dict_count x + sum r)%nat
         end) l
  | _ => O
  end.

(** A record [_walk_json] appends for the endpoint [url] and the bank
    [bank]. *)
Definition json_record (url bank : string) (d : Deposit.t) : Prop :=
  Deposit.bank d = bank
  /\ Deposit.url d = url
  /\ Deposit.currency d = "USD"
  /\ domain_of url = Ok (Deposit.site d)
  /\ rate_ok (Deposit.rate d) = true
  /\ (String.length (Deposit.name d) <= 120)%nat
  /\ (is_empty bank = false -> is_empty (Deposit.name d) = false).

(** What a step of the walk leaves: [out] with the records [tl] after it. *)
Definition walk_adds (url bank : string) (bound : nat)
    (out : list Deposit.t) (res : list Deposit.t * option exn) : Prop :=
  exists tl,
    fst res = (out ++ tl)%list
    /\ (List.length tl <= bound)%nat
    /\ Forall (json_record url bank) tl
    /\ (forall e, snd res = Some e -> domain_of url = Raise e).

Lemma walk_adds_nothing (url bank : string) (bound : nat) (out : list Deposit.t) :
  walk_adds url bank bound out (out, None).
Proof.
  exists []. cbn [fst snd]. rewrite app_nil_r.
  split; [reflexivity|]. split; [simpl; lia|]. split; [constructor | discriminate].
Qed.

Lemma walk_adds_then (url bank : string) (b1 b2 : nat)
    (out out1 : list Deposit.t) (res : list Deposit.t * option exn) :
  walk_adds url bank b1 out (out1, None) ->
  walk_adds url bank b2 out1 res ->
  walk_adds url bank (b1 + b2) out res.
Proof.
  intros [t1 [E1 [L1 [F1 _]]]] [t2 [E2 [L2 [F2 X2]]]]. cbn [fst] in E1. subst out1.
  exists (t1 ++ t2)%list. rewrite E2, app_assoc.
  split; [reflexivity|]. split; [rewrite length_app; lia|].
  split; [apply Forall_app; now split | exact X2].
Qed.

Lemma walk_adds_stop (url bank : string) (b1 b2 : nat)
    (out out1 : list Deposit.t) (e : exn) :
  walk_adds url bank b1 out (out1, Some e) ->
  walk_adds url bank (b1 + b2) out (out1, Some e).
Proof.
  intros [t1 [E1 [L1 [F1 X1]]]]. exists t1.
  split; [exact E1|]. split; [lia|]. split; [exact F1 | exact X1].
Qed.

Lemma walk_dict_adds (d : list (string * json)) (url bank : string)
    (out : list Deposit.t) :
  walk_adds url bank 1 out (walk_dict d url bank out).
Proof.
  unfold walk_dict.
  destruct (String.eqb _ "USD" || _); [|apply walk_adds_nothing].
  destruct (_extract_rate_from_text _) as [rate|] eqn:Er; [|apply walk_adds_nothing].
  destruct (domain_of url) as [site|e] eqn:Ed.
  - match goal with
    | |- walk_adds _ _ _ _ ((_ ++ [Deposit.mk _ _ (take 120 ?n) _ _ _])%list, _) =>
        set (name := n)
    end.
    exists [Deposit.mk bank site (take 120 name) rate "USD" url]. cbn [fst snd].
    split; [reflexivity|]. split; [simpl; lia|]. split; [|discriminate].
    constructor; [|constructor]. unfold json_record. cbn.
    repeat split; try assumption.
    + exact (extract_rate_ok _ _ Er).
    + apply (take_length name 120).
    + intros Hb. apply take_nonempty; [|discriminate].
      subst name.
      match goal with
      | |- is_empty (if is_empty ?x then _ else _) = false =>
          destruct (is_empty x) eqn:En; [exact Hb | exact En]
      end.
  - exists []. cbn [fst snd]. rewrite app_nil_r.
    split; [reflexivity|]. split; [simpl; lia|]. split; [constructor|].
    intros e' H. now injection H as <-.
Qed.

Lemma walk_json_adds (url bank : string) (obj : json) :
  forall out, walk_adds url bank (dict_count obj) out (_walk_json obj url bank out).
Proof.
  induction obj as [|b|z|f|s|items IH|members IH] using json_nested_ind; intros out;
    try apply walk_adds_nothing.
  - cbn [_walk_json dict_count]. revert out.
    induction IH as [|it r Hit _ IHr]; intros out; [apply walk_adds_nothing|].
    specialize (Hit out).
    destruct (_walk_json it url bank out) as [out' [e|]].
    + now apply walk_adds_stop.
    + eapply walk_adds_then; [exact Hit | apply IHr].
  - cbn [_walk_json dict_count].
    pose proof (walk_dict_adds members url bank out) as Hd.
    destruct (walk_dict members url bank out) as [out1 [e|]].
    + now apply (walk_adds_stop url bank 1).
    + apply (walk_adds_then url bank 1 _ out out1); [exact Hd|].
      clear Hd. revert out1.
      induction IH as [|[k v] r Hv _ IHr]; intros out1; [apply walk_adds_nothing|].
      cbn [snd] in Hv. specialize (Hv out1).
      destruct (_walk_json v url bank out1) as [out' [e|]].
      * now apply walk_adds_stop.
      * eapply walk_adds_then; [exact Hv | apply IHr].
Qed.


Lemma json_endpoint_spec (jurl bank : string) (out : list Deposit.t) (w : W) :
  exists tl w',
    json_endpoint jurl bank out w = (Ok (out ++ tl)%list, w')
    /\ Forall (json_record jurl bank) tl.
Proof.
  unfold json_endpoint.
  assert (Hnone : forall w' : W, exists tl (w'' : W),
             (@Ok (list Deposit.t) out, w') = (Ok (out ++ tl)%list, w'')
             /\ Forall (json_record jurl bank) tl).
  { intros w'. exists [], w'. rewrite app_nil_r. split; [reflexivity | constructor]. }
  destruct (fetch jurl w) as [[r|e] w1]; [|apply Hnone].
  destruct (negb _ && negb _); [apply Hnone|].
  destruct (response_json r) as [data|e]; [|apply Hnone].
  destruct (walk_json_adds jurl bank data out) as [tl [E [_ [F _]]]].
  exists tl, w1. now rewrite E.
Qed.

Lemma json_endpoints_loop_spec (jurls : list string) (bank : string) :
  forall out w,
  exists tl w',
    json_endpoints_loop jurls bank out w = (Ok (out ++ tl)%list, w')
    /\ Forall (fun d => exists jurl, In jurl jurls /\ json_record jurl bank d) tl.
Proof.
  induction jurls as [|jurl rest IH]; intros out w.
  - exists [], w. rewrite app_nil_r. split; [reflexivity | constructor].
  - cbn [json_endpoints_loop]. unfold mbind.
    destruct (json_endpoint_spec jurl bank out w) as [t1 [w1 [E1 F1]]]. rewrite E1.
    destruct (IH (out ++ t1)%list w1) as [t2 [w2 [E2 F2]]]. rewrite E2.
    exists (t1 ++ t2)%list, w2. rewrite app_assoc. split; [reflexivity|].
    apply Forall_app. split.
    + eapply Forall_impl; [|exact F1]. intros d Hd. exists jurl.
      split; [now left | exact Hd].
    + eapply Forall_impl; [|exact F2]. intros d [j [Hj Hd]]. exists j.
      split; [now right | exact Hd].
Qed.

(** X19.  The loop over the JSON endpoints never raises: an endpoint that
    cannot be fetched, is no JSON or cannot be read adds nothing and the
    loop goes on; what the others added stays.
    [_extract_from_json_endpoints] raises only when the discovery of the
    endpoints raises, before any request. *)
Theorem json_endpoints_never_raise :
  (forall jurls bank out w,
   exists tl w',
     json_endpoints_loop jurls bank out w = (Ok (out ++ tl)%list, w')
     /\ Forall (fun d => exists jurl, In jurl jurls /\ json_record jurl bank d) tl)
  /\ (forall page_url bank html w e w',
        _extract_from_json_endpoints page_url bank html w = (Raise e, w') ->
        _discover_json_urls page_url html = Raise e /\ w' = w).
Proof.
  split; [intros; apply json_endpoints_loop_spec|].
  intros page_url bank html w e w' H.
  unfold _extract_from_json_endpoints, mbind, lift in H.
  destruct (_discover_json_urls page_url html) as [jurls|e0].
  - destruct (json_endpoints_loop_spec jurls bank [] w) as [tl [w1 [E _]]].
    rewrite E in H. discriminate H.
  - injection H as <- <-. now split.
Qed.

(** X17.  The endpoints [_discover_json_urls] returns: at most 40, each an
    http(s) URL of the domain of the page. *)
Theorem discover_json_urls_on_site (base_url html : string) (urls : list string) :
  _discover_json_urls base_url html = Ok urls ->
  (List.length urls <= 40)%nat
  /\ Forall (fun u => is_http u = true /\ _same_domain base_url u = Ok true) urls.
Proof. apply discover_json_urls_spec. Qed.

(** ** The crawl stays on the site *)

(** A record of the site [d0]: it carries the domain [d0], which is the
    domain of the URL it was read from, the currency USD and a name. *)
Definition on_site (d0 : string) (d : Deposit.t) : Prop :=
  Deposit.site d = d0
  /\ domain_of (Deposit.url d) = Ok d0
  /\ Deposit.currency d = "USD"
  /\ is_empty (Deposit.name d) = false.

Lemma page_record_on_site (url bank d0 : string) (d : Deposit.t) :
  domain_of url = Ok d0 -> page_record url bank d -> on_site d0 d.
Proof.
  intros Hd [_ [Hu [Hc [Hs Hn]]]]. unfold on_site. rewrite Hu.
  repeat split; try assumption. congruence.
Qed.

Lemma json_record_on_site (jurl bank d0 : string) (d : Deposit.t) :
  domain_of jurl = Ok d0 -> is_empty bank = false -> json_record jurl bank d ->
  on_site d0 d.
Proof.
  intros Hd Hb [_ [Hu [Hc [Hs [_ [_ Hn]]]]]]. unfold on_site. rewrite Hu.
  repeat split; try assumption; [congruence | now apply Hn].
Qed.

(** What the crawl of the site [d0] keeps: the pages visited, the pages
    queued and the records gathered are of the site. *)
Definition site_inv (d0 : string) (st : crawl_state) : Prop :=
  Forall (fun u => domain_of u = Ok d0) (visited st)
  /\ Forall (fun e => domain_of (fst e) = Ok d0) (q st)
  /\ Forall (on_site d0) (all_deps st).

Lemma crawl_page_site (d0 u : string) (depth : Z) (st st' : crawl_state) (w w' : W) :
  domain_of u = Ok d0 -> site_inv d0 st ->
  crawl_page u depth st w = (Ok st', w') -> site_inv d0 st'.
Proof.
  intros Hu [Hv [Hq Hd]] H. unfold crawl_page, mbind, lift, ret in H.
  bind_ok H r w1 E1. pure_ok H forced E2. pure_ok H d1 E3. pure_ok H d2 E4.
  bind_ok H deps w2 E5.
  assert (Hdeps : Forall (on_site d0) deps).
  { pose proof (extract_from_tables_shape _ _ _ _ _ E3) as H1.
    pose proof (extract_from_blocks_shape _ _ _ _ _ E4) as H2.
    destruct (d1 ++ d2)%list as [|x xs] eqn:Ed.
    - unfold _extract_from_json_endpoints, mbind, lift in E5.
      destruct (_discover_json_urls u (Response.text r)) as [jurls|e] eqn:Ej;
        [|discriminate E5].
      destruct (discover_json_urls_spec _ _ _ Ej) as [_ Hj].
      destruct (json_endpoints_loop_spec jurls
                  (_best_bank_name (_clean_soup (Response.text r))) [] w1)
        as [tl [w3 [El Ft]]].
      rewrite El in E5. injection E5 as <- _. cbn [app].
      eapply Forall_impl; [|exact Ft]. intros d [jurl [Hin Hrec]].
      rewrite Forall_forall in Hj. destruct (Hj jurl Hin) as [_ Hsame].
      refine (json_record_on_site jurl _ d0 d _ _ Hrec); [|apply best_bank_name_spec].
      now apply (same_domain_true u jurl d0).
    - injection E5 as <- _. rewrite <- Ed. apply Forall_app. split.
      + eapply Forall_impl; [|exact H1]. intros d. now apply page_record_on_site.
      + eapply Forall_impl; [|exact H2]. intros d. now apply page_record_on_site. }
  assert (Hv1 : Forall (fun u0 => domain_of u0 = Ok d0) (visited st ++ [u])).
  { apply Forall_app. split; [exact Hv | now repeat constructor]. }
  destruct (depth <? 1)%Z.
  - pure_ok H links E6. injection H as <- _. unfold site_inv. cbn [visited q all_deps].
    split; [exact Hv1|]. split; [|apply Forall_app; now split].
    apply Forall_app. split; [exact Hq|].
    destruct (collect_links_spec _ _ _ _ E6) as [_ Hl].
    apply Forall_forall. intros [link dpt] Hin. cbn [fst].
    apply in_map_iff in Hin as [l [El Hin]]. injection El as -> _.
    apply filter_In in Hin as [Hin _].
    rewrite Forall_forall in Hl. destruct (Hl link Hin) as [_ [Hsame _]].
    now apply (same_domain_true u link d0).
  - injection H as <- _. unfold site_inv. cbn [visited q all_deps].
    split; [exact Hv1|]. split; [exact Hq | apply Forall_app; now split].
Qed.

Lemma crawl_step_site (d0 : string) (st st' : crawl_state) (w w' : W) :
  site_inv d0 st -> crawl_step st w = (Ok st', w') -> site_inv d0 st'.
Proof.
  intros [Hv [Hq Hd]] H. unfold crawl_step in H.
  destruct (q st) as [|[u depth] q'] eqn:Eq.
  - injection H as <- _. unfold site_inv. rewrite Eq. now repeat split.
  - inversion Hq as [|? ? Hu Hq']; subst. cbn [fst] in Hu.
    assert (Hinv : site_inv d0 (mkCrawl (visited st) q' (all_deps st))).
    { now repeat split. }
    destruct (mem_str u (visited st)).
    + injection H as <- _. exact Hinv.
    + exact (crawl_page_site d0 u depth _ _ _ _ Hu Hinv H).
Qed.

Lemma crawl_loop_site (d0 : string) (fuel : nat) :
  forall st w st' w',
    site_inv d0 st -> crawl_loop fuel st w = (Ok (Some st'), w') -> site_inv d0 st'.
Proof.
  induction fuel as [|fuel IH]; intros st w st' w' Hinv H;
    cbn [crawl_loop] in H; destruct (crawl_continues st) eqn:Hc;
    try (injection H as <- _; exact Hinv); try discriminate H.
  unfold mbind in H.
  destruct (crawl_step st w) as [[st1|e] w1] eqn:Hs; [|discriminate H].
  apply (IH st1 w1 st' w'); [|exact H].
  exact (crawl_step_site d0 _ _ _ _ Hinv Hs).
Qed.

Lemma site_inv_init (url d0 : string) :
  domain_of url = Ok d0 -> site_inv d0 (crawl_init url).
Proof.
  intros H. unfold site_inv, crawl_init. cbn [visited q all_deps].
  split; [constructor|]. split; [|constructor]. now repeat constructor.
Qed.

(** X20.  The crawl of a site never leaves it.  From a root URL of the
    domain [d0], every page the crawl visits or queues is of the domain
    [d0], and every record it gathers, from a page or from a JSON endpoint,
    carries the site [d0], a URL of that domain, the currency USD and a
    name that is not empty; so do the records [_parse_universal] returns. *)
Theorem crawl_stays_on_site (url d0 : string) (w : W) :
  domain_of url = Ok d0 ->
  (forall st w',
     crawl_reach url w st w' ->
     Forall (fun u => domain_of u = Ok d0) (visited st)
     /\ Forall (fun e => domain_of (fst e) = Ok d0) (q st)
     /\ Forall (on_site d0) (all_deps st))
  /\ (forall recs w',
        _parse_universal url w = (Ok recs, w') -> Forall (on_site d0) recs).
Proof.
  intros Hd. split.
  - intros st w' Hr. induction Hr as [|st st' w1 w2 _ IH _ Hs].
    + now apply site_inv_init.
    + exact (crawl_step_site d0 _ _ _ _ IH Hs).
  - intros recs w' H. unfold _parse_universal, mbind in H.
    destruct (crawl_loop crawl_fuel (crawl_init url) w) as [[[st|]|e] w1] eqn:E;
      try discriminate H.
    injection H as <- _.
    destruct (crawl_loop_site d0 _ _ _ _ _ (site_inv_init url d0 Hd) E) as [_ [_ Hall]].
    apply Forall_forall. intros d Hin.
    destruct (dedup_first_seen _ _ Hin) as [pre [post [Hl _]]].
    rewrite Forall_forall in Hall. apply Hall. rewrite Hl.
    apply in_or_app. right. now left.
Qed.

(** ** The rows of a run *)

(** The results [main] writes. *)
Definition RESULT_KINDS : list string :=
  ["OK"; "BLOCKED"; "ERROR"; "JS_RENDER_REQUIRED"; "NO_USD_MATCH"; "NO_RATES_FOUND";
   "NO_MATCHING_DEPOSITS"].

(** A row of the frame of the sites as [main] leaves it: its result is one
    of the seven, OK exactly when records were found, and ERROR when no
    status was received; its domain is the domain of its URL. *)
Definition row_ok (row : SiteStatus.t) : Prop :=
  In (SiteStatus.result row) RESULT_KINDS
  /\ (SiteStatus.result row = "OK" <-> (0 < SiteStatus.rows_found row)%nat)
  /\ (SiteStatus.http_status row = None -> SiteStatus.result row = "ERROR")
  /\ domain_of (SiteStatus.input_url row) = Ok (SiteStatus.domain row).

(** The parts of [row_ok] for a row that is written out. *)
Ltac row_parts :=
  cbn; repeat split;
  first [ assumption
        | solve [unfold RESULT_KINDS; in_list]
        | intros; discriminate
        | intros; lia ].

Lemma process_site_row (url dom : string) (w : W) :
  domain_of url = Ok dom ->
  row_ok (fst (fst (process_site url dom w)))
  /\ SiteStatus.input_url (fst (fst (process_site url dom w))) = url
  /\ SiteStatus.rows_found (fst (fst (process_site url dom w)))
     = List.length (snd (fst (process_site url dom w))).
Proof.
  intros Hdom. unfold process_site, row_ok.
  destruct (session_get url w) as [[r|e] w1]; [|row_parts].
  destruct (_is_hard_block _ _); [row_parts|].
  destruct (parse_url url w1) as [[deps|e] w2]; [|row_parts].
  destruct (0 <? List.length deps)%nat eqn:El.
  { apply Nat.ltb_lt in El. row_parts. }
  apply Nat.ltb_ge in El.
  destruct (looks_js_empty _); [|destruct (negb (_simple_has_usd _));
                                  [|destruct (negb (_simple_has_percent _))]];
    row_parts.
Qed.

Lemma main_loop_account (urls : list string) :
  forall sites deposits_all w sites' deposits' w',
    main_loop urls sites deposits_all w = (Ok (sites', deposits'), w') ->
    exists rows deps,
      sites' = (sites ++ rows)%list
      /\ deposits' = (deposits_all ++ deps)%list
      /\ map SiteStatus.input_url rows = urls
      /\ Forall row_ok rows
      /\ List.length deps = list_sum (map SiteStatus.rows_found rows).
Proof.
  induction urls as [|url rest IH]; intros sites deposits_all w sites' deposits' w' H.
  - injection H as <- <- _. exists [], []. rewrite !app_nil_r.
    repeat split; constructor.
  - cbn [main_loop] in H. unfold mbind, lift in H.
    destruct (domain_of url) as [dom|e] eqn:Ed; [|discriminate H].
    destruct (process_site_row url dom w Ed) as [Hrow [Hurl Hlen]].
    destruct (process_site url dom w) as [[row deps] w1]. cbn [fst snd] in *.
    destruct (IH _ _ _ _ _ _ H) as [rows [ds [E1 [E2 [E3 [E4 E5]]]]]].
    exists (row :: rows), (deps ++ ds)%list.
    rewrite E1, E2, <- !app_assoc. cbn [app map list_sum].
    split; [reflexivity|]. split; [reflexivity|].
    split; [now rewrite Hurl, E3|]. split; [now constructor|].
    rewrite length_app. cbn [list_sum fold_right].
    fold (list_sum (map SiteStatus.rows_found rows)). lia.
Qed.

Lemma ok_sites_results (rows : list SiteStatus.t) :
  Forall row_ok rows ->
  ok_sites rows
  = List.length (filter (fun row => String.eqb (SiteStatus.result row) "OK") rows).
Proof.
  unfold ok_sites. induction 1 as [|row rows [_ [Hok _]] _ IH]; [reflexivity|].
  cbn [filter].
  destruct (0 <? SiteStatus.rows_found row)%nat eqn:E1,
           (String.eqb (SiteStatus.result row) "OK") eqn:E2;
    cbn [List.length]; try (now rewrite IH).
  - apply Nat.ltb_lt, Hok in E1. apply String.eqb_neq in E2. contradiction.
  - apply String.eqb_eq, Hok, Nat.ltb_lt in E2. congruence.
Qed.

(** X23.  When the loop of [main] ends, the frame of the sites has one row
    for each URL, in the order of the URLs; the domain of a row is the
    domain of its URL; the result of a row is one of the seven results, OK
    exactly when the row counts at least one record, and ERROR when no
    status was received.  The rows count, together, the records gathered,
    and [ok_sites] counts the rows whose result is OK. *)
Theorem main_rows_account (urls : list string) (w w' : W)
    (rows : list SiteStatus.t) (deps : list Deposit.t) :
  main urls w = (Ok (rows, deps), w') ->
  map SiteStatus.input_url rows = urls
  /\ Forall row_ok rows
  /\ List.length deps = list_sum (map SiteStatus.rows_found rows)
  /\ ok_sites rows
     = List.length (filter (fun row => String.eqb (SiteStatus.result row) "OK") rows)
  /\ (ok_sites rows <= List.length urls)%nat.
Proof.
  intros H. unfold main in H.
  destruct (main_loop_account urls [] [] w rows deps w' H)
    as [rows' [deps' [E1 [E2 [E3 [E4 E5]]]]]].
  cbn [app] in E1, E2. subst rows' deps'.
  split; [exact E3|]. split; [exact E4|]. split; [exact E5|].
  split; [now apply ok_sites_results|].
  unfold ok_sites. rewrite <- E3, length_map. apply filter_length_le.
Qed.

(** The font of a result, by the result itself. *)
Definition kind_font (kind : string) : option (string * bool) :=
  if String.eqb kind "OK" then Some ("27AE60", true)
  else if String.eqb kind "ERROR" || String.eqb kind "BLOCKED" then Some ("E74C3C", true)
  else Some ("F39C12", false).

(** X24.  The report finds a font for every row [main] writes: the tests of
    [write_excel_report] for a part of the text (OK, ERROR, BLOCKED, NO_,
    JS_) single out, on the seven results, the result itself, so that an OK
    row is green and bold, an ERROR or BLOCKED row red and bold, and every
    other row orange. *)
Theorem site_rows_fonts (urls : list string) (w w' : W)
    (rows : list SiteStatus.t) (deps : list Deposit.t) :
  main urls w = (Ok (rows, deps), w') ->
  Forall (fun row => result_font (SiteStatus.result row)
                     = kind_font (SiteStatus.result row)) rows.
Proof.
  intros H. unfold main in H.
  destruct (main_loop_account urls [] [] w rows deps w' H)
    as [rows' [deps' [E1 [_ [_ [E4 _]]]]]].
  cbn [app] in E1. subst rows'.
  eapply Forall_impl; [|exact E4]. intros row [Hk _].
  unfold RESULT_KINDS in Hk. cbn [In] in Hk.
  repeat (destruct Hk as [<- | Hk]; [reflexivity|]). destruct Hk.
Qed.

(** ** A site that answers with an error status *)

Lemma crawl_root_fetch_raises (url : string) (w w' : W) (e : exn) :
  fetch url w = (Raise e, w') -> _parse_universal url w = (Raise e, w').
Proof.
  intros H. unfold _parse_universal, mbind.
  change crawl_fuel with (S 200).
  rewrite crawl_loop_S by reflexivity.
  assert (Hs : crawl_step (crawl_init url) w = (Raise e, w')).
  { unfold crawl_step, crawl_init. cbn [q visited all_deps mem_str existsb].
    unfold crawl_page, mbind. now rewrite H. }
  now rewrite Hs.
Qed.

(** X25.  A site whose server answers every request for [url] with a status
    in 400..599 that is no hard block (404, 500, ...) ends as an ERROR row:
    the probe of [main] accepts the response and records its status, and
    the crawl then fetches the page three times and fails with the
    [HTTPError] of the third response. *)
Theorem http_error_site (url dom d : string) (w : W) :
  (forall w0, exists r w1,
     session_get url w0 = (Ok r, w1)
     /\ error_status r = true
     /\ _is_hard_block (Some (Response.status_code r)) (snd (diagnose_response url r))
        = false) ->
  domain_of url = Ok d ->
  endswith d "xb.uz" = false ->
  exists row w' r0 w1 r3,
    process_site url dom w = ((row, []), w')
    /\ session_get url w = (Ok r0, w1)
    /\ SiteStatus.result row = "ERROR"
    /\ SiteStatus.rows_found row = O
    /\ SiteStatus.http_status row = Some (Response.status_code r0)
    /\ error_status r3 = true
    /\ SiteStatus.note row = "HTTPError: " ++ take 180 (http_error_msg r3).
Proof.
  intros Hall Hd Hxb.
  destruct (Hall w) as [r0 [w1 [G0 [_ B0]]]].
  assert (Hattempt : forall w0, exists r w2,
             fetch_attempt url w0 = (Raise (PyExc "HTTPError" (http_error_msg r)), w2)
             /\ error_status r = true).
  { intros w0. destruct (Hall w0) as [r [w2 [G [S _]]]]. exists r, w2.
    unfold fetch_attempt, mbind, raise. rewrite G. unfold error_status in S.
    now rewrite S. }
  destruct (Hattempt w1) as [r1 [w2 [A1 _]]].
  destruct (Hattempt w2) as [r2 [w3 [A2 _]]].
  destruct (Hattempt w3) as [r3 [w4 [A3 S3]]].
  assert (Hfetch : fetch url w1
                   = (Raise (RetryError (PyExc "HTTPError" (http_error_msg r3))), w4)).
  { unfold fetch. rewrite retrying_three. now rewrite A1, A2, A3. }
  assert (Hparse : parse_url url w1
                   = (Raise (RetryError (PyExc "HTTPError" (http_error_msg r3))), w4)).
  { unfold parse_url, mbind, lift. rewrite Hd, Hxb.
    now apply crawl_root_fetch_raises. }
  eexists _, w4, r0, w1, r3.
  unfold process_site. rewrite G0, B0, Hparse.
  split; [reflexivity|]. split; [reflexivity|].
  repeat split. exact S3.
Qed.

(** ** The tag of a thin page and the result of the site *)

(** X26.  For a site whose probe has the status 200, is no hard block and
    yields no record, the column of the signals and the column of the
    result agree: the result is JS_RENDER_REQUIRED exactly when the signals
    hold the tag [thin_html_or_js_shell]. *)
Theorem js_shell_signal_agrees (url dom : string) (w w1 w2 : W) (r : Response.t) :
  session_get url w = (Ok r, w1) ->
  Response.status_code r = 200%Z ->
  _is_hard_block (Some 200%Z) (snd (diagnose_response url r)) = false ->
  parse_url url w1 = (Ok [], w2) ->
  exists row,
    process_site url dom w = ((row, []), w2)
    /\ SiteStatus.signals row = join "," (diagnose_signals r)
    /\ (SiteStatus.result row = "JS_RENDER_REQUIRED"
        <-> In "thin_html_or_js_shell" (diagnose_signals r)).
Proof.
  intros Hget Hst Hb Hparse. unfold process_site. rewrite Hget, Hst, Hb, Hparse.
  cbn [List.length Nat.ltb Nat.leb].
  assert (Htag : In "thin_html_or_js_shell" (diagnose_signals r)
                 <-> looks_js_empty (Response.text r) = true).
  { destruct (signals_needles r) as [_ [_ [_ [_ Ht]]]].
    rewrite Hst in Ht. cbn [Z.eqb Pos.eqb andb] in Ht. rewrite <- Ht.
    rewrite existsb_exists. split.
    - intros Hin. exists "thin_html_or_js_shell". now split.
    - intros [x [Hin Hx]]. apply String.eqb_eq in Hx. now subst. }
  destruct (looks_js_empty (Response.text r)).
  - eexists. split; [reflexivity|]. split; [reflexivity|]. cbn. tauto.
  - destruct (negb (_simple_has_usd _)); [|destruct (negb (_simple_has_percent _))];
      (eexists; split; [reflexivity|]; split; [reflexivity|]; cbn;
       split; [discriminate | intros Hin; apply Htag in Hin; discriminate]).
Qed.

(** ** From the input file to the report *)

(** X27.  When [main] ends, the frame of the sites has one row for each
    entry of the input file, in the order of the file, and the frame of the
    deposits holds the records of all sites, each as often as it was
    gathered, sorted by bank, then by falling rate, then by name; the
    totals are the number of the records, the number of the OK rows and the
    number of the entries.  When the file cannot be read, [main] raises
    before any request. *)
Theorem main_report_frames (path : string) (f : input_file) (w : W) :
  (forall rep w',
     main_report path f w = (Ok rep, w') ->
     exists urls deposits_all,
       load_urls path f = Ok urls
       /\ main urls w = (Ok (sites_df rep, deposits_all), w')
       /\ map SiteStatus.input_url (sites_df rep) = urls
       /\ Permutation (deposits_df rep) deposits_all
       /\ StronglySorted (not_after frame_compare) (deposits_df rep)
       /\ total_deposits rep = List.length (deposits_df rep)
       /\ total_deposits rep = list_sum (map SiteStatus.rows_found (sites_df rep))
       /\ total_sites rep = List.length urls
       /\ total_ok_sites rep
          = List.length (filter (fun row => String.eqb (SiteStatus.result row) "OK")
                           (sites_df rep)))
  /\ (forall e, load_urls path f = Raise e -> main_report path f w = (Raise e, w)).
Proof.
  split.
  - intros rep w' H. unfold main_report, mbind, lift, ret in H.
    destruct (load_urls path f) as [urls|e]; [|discriminate H].
    destruct (main urls w) as [[[sites deposits_all]|e] w1] eqn:Em; [|discriminate H].
    injection H as <- <-. cbn [sites_df deposits_df total_deposits total_sites total_ok_sites].
    exists urls, deposits_all.
    destruct (main_loop_account urls [] [] w sites deposits_all w1 Em)
      as [rows' [deps' [E1 [E2 [E3 [E4 E5]]]]]].
    cbn [app] in E1, E2. subst rows' deps'.
    split; [reflexivity|]. split; [exact Em|]. split; [exact E3|].
    split; [apply stable_sort_perm|].
    split; [apply stable_sort_sorted, frame_order|].
    split; [symmetry; apply Permutation_length, stable_sort_perm|].
    split; [exact E5|].
    split; [now rewrite <- E3, length_map | now apply ok_sites_results].
  - intros e H. unfold main_report, mbind, lift. now rewrite H.
Qed.

(** ** The cleaned document *)

(** X15.  After [_clean_soup] no [script], [style] or [noscript] element is
    left anywhere in the document, and a document without such elements is
    left as it was parsed. *)
Theorem clean_soup_no_script (html : string) :
  find_all ["script"; "style"; "noscript"] (_clean_soup html) = []
  /\ Forall (fun d => is_tag_in ["script"; "style"; "noscript"] d = false)
       (descendants (_clean_soup html))
  /\ (find_all ["script"; "style"; "noscript"] (BeautifulSoup html) = [] ->
      _clean_soup html = BeautifulSoup html).
Proof.
  unfold _clean_soup. split; [|split].
  - unfold find_all. apply filter_none, remove_tags_descendants.
  - apply remove_tags_descendants.
  - apply remove_tags_none.
Qed.
End Pipeline.

(** ** The pipeline on the concrete network *)

Module DemoRun.

Definition parse_url :=
  parse_url Demo.W Demo.session_get Demo.BeautifulSoup Demo.urljoin
    Demo.response_json Demo.http_error_msg Demo.py_repr Demo.found_json_urls.

Definition _parse_xb_open_data :=
  _parse_xb_open_data Demo.W Demo.session_get Demo.response_json
    Demo.http_error_msg Demo.py_repr.

Definition _parse_universal :=
  _parse_universal Demo.W Demo.session_get Demo.BeautifulSoup Demo.urljoin
    Demo.response_json Demo.http_error_msg Demo.py_repr Demo.found_json_urls.

Definition crawl_loop :=
  crawl_loop Demo.W Demo.session_get Demo.BeautifulSoup Demo.urljoin
    Demo.response_json Demo.http_error_msg Demo.py_repr Demo.found_json_urls.

Definition process_site :=
  process_site Demo.W Demo.session_get Demo.BeautifulSoup Demo.urljoin
    Demo.response_json Demo.http_error_msg Demo.py_repr Demo.found_json_urls.

Definition main :=
  main Demo.W Demo.session_get Demo.BeautifulSoup Demo.urljoin
    Demo.response_json Demo.http_error_msg Demo.py_repr Demo.found_json_urls.

End DemoRun.

(** The theorems of the pipeline at the concrete network. *)
Abbreviation at_demo thm :=
  (thm Demo.W Demo.session_get Demo.BeautifulSoup Demo.urljoin
     Demo.response_json Demo.http_error_msg Demo.py_repr Demo.found_json_urls)
  (only parsing).

(** C1, at a failing input: an item of the open data whose rate text holds
    no number is stored with the rate 0, which is not above 0. *)
Lemma xb_strategy_stores_zero_rate :
  DemoRun.parse_url "https://xb.uz/uz/deposits" []
  = (Ok [Deposit.mk "Xalq banki" "xb.uz" "Dollar omonati" 0.05 "USD"
           "https://xb.uz/uz/deposits";
         Deposit.mk "Xalq banki" "xb.uz" "USD Kelajak" 0 "USD"
           "https://xb.uz/uz/deposits"],
     [XB_API_URL])
  /\ parse_percent "shartnoma asosida" = 0%float
  /\ rate_ok 0 = false.
Proof. repeat split; vm_compute; reflexivity. Qed.

(** C5, at a failing input: an input line that [urlparse] rejects ends the
    run with the exception, and no row is returned, not even for the site
    processed before it. *)
Lemma main_stops_at_rejected_url :
  DemoRun.main ["https://bank.example/"; "http://[bank.example/";
                "https://blocked.example/"] []
  = (Raise (PyExc "ValueError" "Invalid IPv6 URL"),
     ["https://bank.example/"; "https://bank.example/";
      "https://bank.example/deposits/usd"; "https://bank.example/deposits/term"]).
Proof. vm_compute. reflexivity. Qed.


(** C3, at the tags of a challenge page behind a WAF. *)
Lemma hard_block_decision_witness :
  _is_hard_block (Some 200%Z) "cloudflare,antibot_page,thin_html_or_js_shell" = true.
Proof.
  apply (proj1 hard_block_decision (Some 200%Z)
           ["cloudflare"; "antibot_page"; "thin_html_or_js_shell"]).
  - repeat (apply Forall_cons; [in_list|]). apply Forall_nil.
  - right. split; [left | right]; in_list.
Defined.


(** C6, at the crawl of the example bank. *)
Lemma crawl_bounded_witness :
  exists res w',
    res <> Ok None
    /\ forall fuel, (crawl_fuel <= fuel)%nat ->
         DemoRun.crawl_loop fuel (crawl_init "https://bank.example/") [] = (res, w').
Proof. exact (proj1 (at_demo crawl_bounded "https://bank.example/" [])). Defined.



(** C9, as stated, fails: the domain [fxb.uz] is not [xb.uz], and its URL
    goes to the structured-data strategy (the open-data endpoint is the only
    URL fetched), not to the crawl. *)
Lemma dispatcher_suffix_counterexample :
  domain_of "https://fxb.uz/deposits" = Ok "fxb.uz"
  /\ "fxb.uz" <> "xb.uz"
  /\ DemoRun.parse_url "https://fxb.uz/deposits" []
     = DemoRun._parse_xb_open_data "https://fxb.uz/deposits" []
  /\ snd (DemoRun.parse_url "https://fxb.uz/deposits" []) = [XB_API_URL]
  /\ DemoRun.parse_url "https://fxb.uz/deposits" []
     <> DemoRun._parse_universal "https://fxb.uz/deposits" [].
Proof.
  split; [reflexivity|]. split; [discriminate|]. split; [reflexivity|].
  split; [vm_compute; reflexivity|].
  vm_compute. intros H. discriminate H.
Qed.

(** C9, amended, at a URL of [xb.uz]. *)
Lemma dispatcher_routes_by_suffix_witness :
  DemoRun.parse_url "https://www.xb.uz/uz" []
  = DemoRun._parse_xb_open_data "https://www.xb.uz/uz" [].
Proof.
  exact (proj1 (at_demo dispatcher_routes_by_suffix)
           "https://www.xb.uz/uz" "xb.uz" [] eq_refl).
Defined.

(** C10, at a host that starts with [w]. *)
Lemma domain_of_lstrip_char_set_witness :
  exists r pre,
    urlparse "https://web.bank.example/deposits" = Ok r
    /\ lower (netloc r) = pre ++ "eb.bank.example"
    /\ forallb_str w_or_dot pre = true
    /\ startswith "eb.bank.example" "w" = false
    /\ startswith "eb.bank.example" "." = false.
Proof.
  exact (proj1 domain_of_lstrip_char_set
           "https://web.bank.example/deposits" "eb.bank.example" eq_refl).
Defined.

(** ** Further properties of the pipeline, at the concrete network *)

Lemma parse_universal_records_witness :
  Forall record_ok
    [Deposit.mk "Example Bank" "bank.example" "Gold Saver" (7.2 / 100) "USD"
       "https://bank.example/";
     Deposit.mk "Example Bank" "bank.example" "USD Gold Saver 7.2%" (7.2 / 100) "USD"
       "https://bank.example/"].
Proof.
  apply (at_demo parse_universal_records "https://bank.example/" []
           ["https://bank.example/"; "https://bank.example/deposits/usd";
            "https://bank.example/deposits/term"]).
  vm_compute. reflexivity.
Defined.

Lemma xb_records_rates_witness :
  Forall (fun d => ((0 <=? Deposit.rate d) && (Deposit.rate d <=? MAX_USD_RATE))%float = true
                   /\ Deposit.currency d = "USD")
    [Deposit.mk "Xalq banki" "xb.uz" "Dollar omonati" 0.05 "USD" "https://xb.uz/";
     Deposit.mk "Xalq banki" "xb.uz" "USD Kelajak" 0 "USD" "https://xb.uz/"].
Proof.
  apply (xb_records_rates Demo.py_repr "https://xb.uz/" Demo.xb_data).
  vm_compute. reflexivity.
Defined.


(** The rate of the text ["50% 7"]: the rejected 50% is followed by the
    bare 7, read as 7%. *)
Lemma rejected_percent_example : _extract_rate_from_text "50% 7" = Some (7 / 100)%float.
Proof. reflexivity. Qed.

(** A row whose text holds [rem], as in Premium, matches [NOISE_RE] and is
    skipped: the page of the two-row table yields no record. *)
Lemma premium_row_is_noise :
  _is_noise "USD Premium Savings 7.2%" = true
  /\ _extract_from_tables Demo.premium_page "https://bank.example/deposits"
       "Example Bank" false = Ok []
  /\ _extract_from_blocks Demo.premium_page "https://bank.example/deposits"
       "Example Bank" false = Ok [].
Proof. repeat split; vm_compute; reflexivity. Qed.

(** ** A second network: a site fed by a JSON endpoint, a site that
    answers 404, a thin page and a site that is down *)

Module Demo2.

Definition W : Type := list string.

Definition api_page : node :=
  Tag "html" []
    [Tag "head" []
       [Tag "title" [] [Text "  Api   Bank "];
        Tag "script" [] [Text "var promo = 'USD 99%';"]];
     Tag "body" []
       [Tag "div" [("id", "app")] [Tag "noscript" [] [Text "Enable scripts"]];
        Tag "a" [("href", "/about")] [Text "About us"];
        Tag "a" [("href", "/usd")] [Text "Rates"];
        Tag "a" [("href", "/usd")] [Text "Rates again"]]].

Definition empty_page : node := Tag "html" [] [].

Definition deposits_json : json :=
  JList
    [JDict [("name", JStr "Dollar  Plus"); ("currency", JStr " usd ");
            ("rate", JStr "4,5 %")];
     JDict [("name", JStr "Milliy"); ("currency", JStr "UZS"); ("rate", JInt 20)];
     JDict [("title", JStr ""); ("info", JStr "USD 3%");
            ("more", JList [JDict [("currency", JStr "USD"); ("percent", JInt 6)];
                            JNull])]].

Definition api_html : string := "<html>api bank</html>".

Definition session_get (url : string) (w : W) : pyresult Response.t * W :=
  (if startswith url "https://gone.example/"
   then Ok (Response.mk 404 [("Content-Type", "text/html")] "Not Found")
   else if startswith url "https://down.example/"
   then Raise (PyExc "ConnectionError" "connection refused")
   else if String.eqb url "https://api.example/api/broken.json"
   then Raise (PyExc "Timeout" "read timed out")
   else if String.eqb url "https://api.example/api/deposits.json"
   then Ok (Response.mk 200 [("Content-Type", "application/json")] "deposits-json")
   else if startswith url "https://thin.example/"
   then Ok (Response.mk 200 [("Content-Type", "text/html")] "<html></html>")
   else Ok (Response.mk 200 [("Content-Type", "text/html")] api_html),
   (w ++ [url])%list).

Definition BeautifulSoup (html : string) : node :=
  if String.eqb html api_html then api_page else empty_page.

Definition urljoin (base href : string) : pyresult string :=
  Ok (if startswith href "http" then href else "https://api.example" ++ href).

Definition response_json (r : Response.t) : pyresult json :=
  if String.eqb (Response.text r) "deposits-json" then Ok deposits_json
  else Raise (PyExc "JSONDecodeError" "Expecting value: line 1 column 1 (char 0)").

Definition http_error_msg (r : Response.t) : string :=
  str_of_Z (Response.status_code r) ++ " Client Error: Not Found for url".

Definition py_repr (v : json) : string := EmptyString.

Definition found_json_urls (base_url html : string) : pyresult (list string) :=
  if String.eqb html api_html
  then Ok ["https://api.example/api/broken.json";
           "https://api.example/api/deposits.json";
           "https://cdn.other.example/api/x.json";
           "ftp://api.example/a.json"]
  else Ok [].

Definition urls : list string :=
  ["https://api.example/"; "https://gone.example/"; "https://thin.example/";
   "https://down.example/"].

Definition main :=
  main W session_get BeautifulSoup urljoin response_json http_error_msg py_repr
    found_json_urls.

Definition process_site :=
  process_site W session_get BeautifulSoup urljoin response_json http_error_msg
    py_repr found_json_urls.

Definition parse_url :=
  parse_url W session_get BeautifulSoup urljoin response_json http_error_msg py_repr
    found_json_urls.

(** The run over the four sites. *)
Definition rows : list SiteStatus.t :=
  Eval vm_compute in
    match main urls [] with
    | (Ok (rows, _), _) => rows
    | _ => []
    end.

Definition deposits_all : list Deposit.t :=
  Eval vm_compute in
    match main urls [] with
    | (Ok (_, deps), _) => deps
    | _ => []
    end.

Definition requests : list string := Eval vm_compute in snd (main urls []).

End Demo2.

Abbreviation at_demo2 thm :=
  (thm Demo2.W Demo2.session_get Demo2.BeautifulSoup Demo2.urljoin
     Demo2.response_json Demo2.http_error_msg Demo2.py_repr Demo2.found_json_urls)
  (only parsing).

Lemma demo2_run : Demo2.main Demo2.urls [] = (Ok (Demo2.rows, Demo2.deposits_all), Demo2.requests).
Proof. vm_compute. reflexivity. Qed.

(** The run: the API site yields three records from its endpoint (one of
    them from a nested object), read once more from the linked page and
    deduplicated; the three other sites yield none. *)
Example demo2_results :
  map SiteStatus.result Demo2.rows = ["OK"; "ERROR"; "JS_RENDER_REQUIRED"; "ERROR"]
  /\ map SiteStatus.rows_found Demo2.rows = [3; 0; 0; 0]%nat
  /\ map Deposit.name Demo2.deposits_all = ["Dollar Plus"; "Api Bank"; "Api Bank"]
  /\ map SiteStatus.note Demo2.rows
     = [""; "HTTPError: 404 Client Error: Not Found for url";
        "HTML looks like a JS shell or too thin"; "ConnectionError: connection refused"]
  /\ List.length Demo2.requests = 18%nat.
Proof. vm_compute. repeat split. Qed.

(** *** The theorems at concrete inputs *)

(** An input file of six lines: a comment, a URL, a URL with blanks around
    it, an empty line, an indented comment and a last URL without a line
    break after it. *)
Definition banks_file : string :=
  join (String "010" "")
    ["# banks"; "https://bank.example/"; "   https://api.example/  "; "";
     "  # off: https://old.example/"; "https://gone.example/"].

Lemma load_urls_entries_witness :
  file_exists (mkFile true (Ok banks_file)) = true
  /\ (exists text,
        read_text (mkFile true (Ok banks_file)) = Ok text
        /\ ["https://bank.example/"; "https://api.example/"; "https://gone.example/"]
           = flat_map url_of_line (splitlines text))
  /\ Forall (fun u => is_empty u = false
                      /\ strip u = u
                      /\ startswith u "#" = false
                      /\ existsb_str is_linebreak u = false)
       ["https://bank.example/"; "https://api.example/"; "https://gone.example/"].
Proof.
  apply (proj2 (proj2 (load_urls_entries "banks_urls.txt" (mkFile true (Ok banks_file))))).
  reflexivity.
Defined.


Lemma forced_usd_only_adds_witness :
  (forall xs,
     _extract_from_tables Demo.bank_page "https://bank.example/" "Example Bank" false
     = Ok xs ->
     exists ys,
       _extract_from_tables Demo.bank_page "https://bank.example/" "Example Bank" true
       = Ok ys /\ incl xs ys)
  /\ (forall xs,
        _extract_from_blocks Demo.bank_page "https://bank.example/" "Example Bank" false
        = Ok xs ->
        exists ys,
          _extract_from_blocks Demo.bank_page "https://bank.example/" "Example Bank" true
          = Ok ys /\ incl xs ys).
Proof.
  apply (forced_usd_only_adds Demo.bank_page "https://bank.example/" "Example Bank"
           "bank.example").
  reflexivity.
Defined.



Lemma discover_json_urls_on_site_witness :
  (List.length ["https://api.example/api/broken.json";
                "https://api.example/api/deposits.json"] <= 40)%nat
  /\ Forall (fun u => is_http u = true
                      /\ _same_domain "https://api.example/" u = Ok true)
       ["https://api.example/api/broken.json"; "https://api.example/api/deposits.json"].
Proof.
  apply (discover_json_urls_on_site Demo2.found_json_urls "https://api.example/"
           Demo2.api_html).
  reflexivity.
Defined.

Lemma crawl_stays_on_site_witness :
  (forall st w',
     crawl_reach Demo2.W Demo2.session_get Demo2.BeautifulSoup Demo2.urljoin
       Demo2.response_json Demo2.http_error_msg Demo2.py_repr Demo2.found_json_urls
       "https://api.example/" [] st w' ->
     Forall (fun u => domain_of u = Ok "api.example") (visited st)
     /\ Forall (fun e => domain_of (fst e) = Ok "api.example") (q st)
     /\ Forall (on_site "api.example") (all_deps st))
  /\ (forall recs w',
        at_demo2 _parse_universal "https://api.example/" [] = (Ok recs, w') ->
        Forall (on_site "api.example") recs).
Proof.
  apply (at_demo2 crawl_stays_on_site "https://api.example/" "api.example" []).
  reflexivity.
Defined.

Lemma main_rows_account_witness :
  map SiteStatus.input_url Demo2.rows = Demo2.urls
  /\ Forall row_ok Demo2.rows
  /\ List.length Demo2.deposits_all = list_sum (map SiteStatus.rows_found Demo2.rows)
  /\ ok_sites Demo2.rows
     = List.length
         (filter (fun row => String.eqb (SiteStatus.result row) "OK") Demo2.rows)
  /\ (ok_sites Demo2.rows <= List.length Demo2.urls)%nat.
Proof.
  exact (at_demo2 main_rows_account Demo2.urls [] Demo2.requests Demo2.rows
           Demo2.deposits_all demo2_run).
Defined.

Lemma site_rows_fonts_witness :
  Forall (fun row => result_font (SiteStatus.result row)
                     = kind_font (SiteStatus.result row)) Demo2.rows.
Proof.
  exact (at_demo2 site_rows_fonts Demo2.urls [] Demo2.requests Demo2.rows
           Demo2.deposits_all demo2_run).
Defined.

Lemma http_error_site_witness :
  exists row w' r0 w1 r3,
    Demo2.process_site "https://gone.example/" "gone.example" [] = ((row, []), w')
    /\ Demo2.session_get "https://gone.example/" [] = (Ok r0, w1)
    /\ SiteStatus.result row = "ERROR"
    /\ SiteStatus.rows_found row = O
    /\ SiteStatus.http_status row = Some (Response.status_code r0)
    /\ error_status r3 = true
    /\ SiteStatus.note row = "HTTPError: " ++ take 180 (Demo2.http_error_msg r3).
Proof.
  apply (at_demo2 http_error_site "https://gone.example/" "gone.example" "gone.example" []).
  - intros w0. eexists. eexists. split; [reflexivity|]. split; reflexivity.
  - reflexivity.
  - reflexivity.
Defined.

Lemma js_shell_signal_agrees_witness :
  exists row,
    Demo2.process_site "https://thin.example/" "thin.example" []
    = ((row, []), ["https://thin.example/"; "https://thin.example/"])
    /\ SiteStatus.signals row
       = join "," (diagnose_signals
                     (Response.mk 200 [("Content-Type", "text/html")] "<html></html>"))
    /\ (SiteStatus.result row = "JS_RENDER_REQUIRED"
        <-> In "thin_html_or_js_shell"
              (diagnose_signals
                 (Response.mk 200 [("Content-Type", "text/html")] "<html></html>"))).
Proof.
  apply (at_demo2 js_shell_signal_agrees "https://thin.example/" "thin.example" []
           ["https://thin.example/"]); reflexivity.
Defined.
